(** * vapi-memory: context assembly, recency cache and budgeted formatter

    A shallow embedding of the TypeScript sources
    - [src/utils/token-counter.ts] ([TokenCounter], [LRUCache]),
    - [src/formatters/ContextFormatter.ts] ([ContextFormatter]),
    - [src/client/SupermemoryClient.ts] ([SupermemoryClient]),
    - [src/VapiMemory.ts] ([VapiMemory.getContext]),
    followed by the properties the specification states about them.

    Conventions of the embedding.
    - A JavaScript [number] that the code uses as a counter, a priority, a
      size or a time stamp is a [Z]; a per-entry hit counter, which starts
      at 0 and is only incremented, is an [N]; a quotient of two such
      numbers is an exact rational [Q].
    - A JavaScript string is a [string]: one [ascii] per UTF-16 code unit,
      for the code units U+0000..U+00FF.
    - A JavaScript [Map] is an association list in insertion order.
    - [Date.now()] is an explicit argument of the cache operation that
      reads it; [VapiMemory] draws the readings from a clock, one per call.
    - A thrown value is the [Throw] case of [Result]; an awaited promise is
      a [Result] that the computation settles to. *)

From Stdlib Require Import ZArith NArith QArith List String Ascii Bool Lia.
From Stdlib Require Import DecimalString Sorted Permutation.
Import ListNotations.

Local Open Scope string_scope.
Local Open Scope Z_scope.

(* ================================================================== *)
(** ** JavaScript string primitives *)

Module JS.

(** Code unit of a character. *)
Definition code (c : ascii) : N := N_of_ascii c.

(** [WhiteSpace] and [LineTerminator] below U+0100: TAB, LF, VT, FF, CR,
    SP and NBSP.  The same set is matched by [\s] and removed by [trim]. *)
Definition isWhiteSpace (c : ascii) : bool :=
  let n := code c in
  ((9 <=? n) && (n <=? 13) || (n =? 32) || (n =? 160))%N.

(** [String.prototype.toLowerCase] on one code unit below U+0100:
    A..Z, and the Latin-1 capitals U+00C0..U+00DE except U+00D7. *)
Definition lowerChar (c : ascii) : ascii :=
  let n := code c in
  if ((65 <=? n) && (n <=? 90)
      || (192 <=? n) && (n <=? 222) && negb (n =? 215))%N
  then ascii_of_N (n + 32) else c.

Fixpoint toLowerCase (s : string) : string :=
  match s with
  | EmptyString => EmptyString
  | String c r => String (lowerChar c) (toLowerCase r)
  end.

Definition isEmpty (s : string) : bool :=
  match s with EmptyString => true | String _ _ => false end.

Fixpoint trimStart (s : string) : string :=
  match s with
  | EmptyString => EmptyString
  | String c r => if isWhiteSpace c then trimStart r else s
  end.

Fixpoint trimEnd (s : string) : string :=
  match s with
  | EmptyString => EmptyString
  | String c r =>
      let r' := trimEnd r in
      if isWhiteSpace c && isEmpty r' then EmptyString else String c r'
  end.

(** [String.prototype.trim]. *)
Definition trim (s : string) : string := trimEnd (trimStart s).

(** [s.split(/\s+/)]: the pieces between maximal runs of white space.
    [cur] is the piece being read, reversed; [inRun] tells that the
    previous code unit was white space. *)
Fixpoint splitWsAux (s : string) (cur : list ascii) (inRun : bool)
  : list string :=
  match s with
  | EmptyString => [string_of_list_ascii (rev cur)]
  | String c r =>
      if isWhiteSpace c then
        if inRun then splitWsAux r cur true
        else string_of_list_ascii (rev cur) :: splitWsAux r [] true
      else splitWsAux r (c :: cur) false
  end.

Definition splitWs (s : string) : list string := splitWsAux s [] false.

(** [`${n}`] for an integral number. *)
Definition numToString (n : Z) : string :=
  NilZero.string_of_int (Z.to_int n).

(** Truthiness of an optional string: [undefined] and [''] are falsy. *)
Definition truthyStr (o : option string) : bool :=
  match o with
  | Some s => negb (isEmpty s)
  | None => false
  end.

(** [x !== false] for an optional boolean field. *)
Definition notFalse (o : option bool) : bool :=
  match o with
  | Some false => false
  | _ => true
  end.

(** [Array.from(new Set(xs))]: first occurrences, in order. *)
Fixpoint uniqueAux (seen : list string) (xs : list string) : list string :=
  match xs with
  | [] => []
  | x :: r =>
      if existsb (String.eqb x) seen then uniqueAux seen r
      else x :: uniqueAux (x :: seen) r
  end.

Definition unique (xs : list string) : list string := uniqueAux [] xs.

End JS.

(* ================================================================== *)
(** ** TokenCounter *)

Module TokenCounter.

Definition CHARS_PER_TOKEN : Z := 4.

(** [Math.ceil(a / b)] for integers [a >= 0], [b > 0]. *)
Definition ceilDiv (a b : Z) : Z := (a + b - 1) / b.

(** [TOKENS_PER_WORD = 0.75]: [Math.ceil(n * 0.75)] is [ceil(3n/4)];
    the product is exact in binary floating point. *)
Definition wordEstimate (n : Z) : Z := ceilDiv (3 * n) 4.

Definition estimate (text : string) : Z :=
  if JS.isEmpty text then 0
  else
    let charEstimate := ceilDiv (Z.of_nat (String.length text)) CHARS_PER_TOKEN in
    let words := filter (fun w => negb (JS.isEmpty w)) (JS.splitWs text) in
    Z.max charEstimate (wordEstimate (Z.of_nat (List.length words))).

Definition estimateMultiple (texts : list string) : Z :=
  fold_left (fun total text => total + estimate text) texts 0.

Record BudgetResult : Type := mkBudgetResult
  { formatted : string; usedTokens : Z; includedCount : Z }.

(** The loop of [formatWithinBudget]; it stops at the first text that
    does not fit. *)
Fixpoint withinBudgetLoop (texts : list string) (budget : Z)
         (usedTokens : Z) (included : list string) : Z * list string :=
  match texts with
  | [] => (usedTokens, included)
  | text :: rest =>
      let tokenCount := estimate text in
      if usedTokens + tokenCount >? budget then (usedTokens, included)
      else withinBudgetLoop rest budget (usedTokens + tokenCount)
                            (included ++ [text])
  end.

Definition formatWithinBudget (texts : list string) (budget : Z)
           (separator : option string) : BudgetResult :=
  let separator :=
    match separator with
    | Some s => s
    | None => String "010"%char EmptyString
    end in
  let '(usedTokens, included) := withinBudgetLoop texts budget 0 [] in
  {| formatted := String.concat separator included;
     usedTokens := usedTokens;
     includedCount := Z.of_nat (List.length included) |}.

End TokenCounter.

(* ================================================================== *)
(** ** LRUCache *)

Module LRU.

Record CacheEntry (V : Type) : Type := mkEntry
  { value : V; timestamp : Z; hits : N }.
Arguments mkEntry {V} _ _ _.
Arguments value {V} _.
Arguments timestamp {V} _.
Arguments hits {V} _.

Section Cache.
Context {K V : Type}.
Variable K_eq_dec : forall x y : K, {x = y} + {x <> y}.

(** *** The underlying [Map<K, CacheEntry<V>>], in insertion order *)

Definition JSMap : Type := list (K * CacheEntry V).

Fixpoint mapGet (k : K) (m : JSMap) : option (CacheEntry V) :=
  match m with
  | [] => None
  | (k', e) :: r => if K_eq_dec k k' then Some e else mapGet k r
  end.

Definition mapHas (k : K) (m : JSMap) : bool :=
  match mapGet k m with Some _ => true | None => false end.

Fixpoint mapDelete (k : K) (m : JSMap) : JSMap :=
  match m with
  | [] => []
  | (k', e) :: r => if K_eq_dec k k' then r else (k', e) :: mapDelete k r
  end.

(** [Map.prototype.set]: an existing key keeps its place. *)
Fixpoint mapSet (k : K) (e : CacheEntry V) (m : JSMap) : JSMap :=
  match m with
  | [] => [(k, e)]
  | (k', e') :: r =>
      if K_eq_dec k k' then (k, e) :: r else (k', e') :: mapSet k e r
  end.

(** [map.keys().next().value] *)
Definition mapFirstKey (m : JSMap) : option K :=
  match m with
  | [] => None
  | (k, _) :: _ => Some k
  end.

Definition mapKeys (m : JSMap) : list K := map fst m.

(** *** The cache object *)

Record LRUCache : Type := mkCache
  { cache : JSMap; maxSize : Z; currentSize : Z }.

Definition new (maxSize : Z) : LRUCache :=
  {| cache := []; maxSize := maxSize; currentSize := 0 |}.

Definition get (key : K) (now : Z) (c : LRUCache) : option V * LRUCache :=
  match mapGet key (cache c) with
  | Some entry =>
      let entry' := {| value := value entry;
                       timestamp := now;
                       hits := (hits entry + 1)%N |} in
      (Some (value entry),
       {| cache := mapSet key entry' (mapDelete key (cache c));
          maxSize := maxSize c;
          currentSize := currentSize c |})
  | None => (None, c)
  end.

Definition dropExisting (key : K) (c : LRUCache) : LRUCache :=
  if mapHas key (cache c) then
    {| cache := mapDelete key (cache c);
       maxSize := maxSize c;
       currentSize := currentSize c - 1 |}
  else c.

Definition evictIfFull (c : LRUCache) : LRUCache :=
  if currentSize c >=? maxSize c then
    match mapFirstKey (cache c) with
    | Some firstKey =>
        {| cache := mapDelete firstKey (cache c);
           maxSize := maxSize c;
           currentSize := currentSize c - 1 |}
    | None => c
    end
  else c.

Definition set (key : K) (v : V) (now : Z) (c : LRUCache) : LRUCache :=
  let c1 := dropExisting key c in
  let c2 := evictIfFull c1 in
  {| cache := mapSet key {| value := v; timestamp := now; hits := 0 |}
                     (cache c2);
     maxSize := maxSize c2;
     currentSize := currentSize c2 + 1 |}.

Definition has (key : K) (c : LRUCache) : bool := mapHas key (cache c).

Definition delete (key : K) (c : LRUCache) : bool * LRUCache :=
  if mapHas key (cache c) then
    (true, {| cache := mapDelete key (cache c);
              maxSize := maxSize c;
              currentSize := currentSize c - 1 |})
  else (false, c).

Definition clear (c : LRUCache) : LRUCache :=
  {| cache := []; maxSize := maxSize c; currentSize := 0 |}.

Definition size (c : LRUCache) : Z := currentSize c.

Definition entries (c : LRUCache) : list (K * CacheEntry V) := cache c.

Definition keys (c : LRUCache) : list K := mapKeys (cache c).

Definition values (c : LRUCache) : list V :=
  map (fun ke => value (snd ke)) (cache c).

(** [cleanup]: the loop visits the entries present when it starts;
    deleting the entry being visited does not disturb the iteration. *)
Definition cleanupStep (cutoffTime : Z) (st : Z * LRUCache)
           (ke : K * CacheEntry V) : Z * LRUCache :=
  let '(removed, c) := st in
  if timestamp (snd ke) <? cutoffTime
  then (removed + 1, snd (delete (fst ke) c))
  else (removed, c).

Definition cleanup (maxAge : Z) (now : Z) (c : LRUCache) : Z * LRUCache :=
  let cutoffTime := now - maxAge in
  fold_left (cleanupStep cutoffTime) (cache c) (0, c).

Record StatEntry : Type := mkStatEntry
  { se_key : K; se_hits : N; se_age : Z }.

Record Stats : Type := mkStats
  { st_size : Z; st_maxSize : Z; st_hitRate : Q;
    st_entries : list StatEntry }.

Definition totalHits (c : LRUCache) : Z :=
  fold_left (fun sum ke => sum + Z.of_N (hits (snd ke))) (entries c) 0.

Definition totalAccess (c : LRUCache) : Z :=
  totalHits c + (maxSize c - Z.of_nat (List.length (cache c))).

Definition getStats (now : Z) (c : LRUCache) : Stats :=
  {| st_size := currentSize c;
     st_maxSize := maxSize c;
     st_hitRate :=
       if totalAccess c >? 0
       then (inject_Z (totalHits c) / inject_Z (totalAccess c))%Q
       else 0%Q;
     st_entries :=
       map (fun ke => {| se_key := fst ke;
                         se_hits := hits (snd ke);
                         se_age := now - timestamp (snd ke) |})
           (entries c) |}.

(** *** Sequences of operations *)

Inductive Op : Type :=
| OpGet (key : K) (now : Z)
| OpSet (key : K) (v : V) (now : Z)
| OpHas (key : K)
| OpDelete (key : K)
| OpClear
| OpCleanup (maxAge : Z) (now : Z).

Definition step (c : LRUCache) (op : Op) : LRUCache :=
  match op with
  | OpGet key now => snd (get key now c)
  | OpSet key v now => set key v now c
  | OpHas _ => c
  | OpDelete key => snd (delete key c)
  | OpClear => clear c
  | OpCleanup maxAge now => snd (cleanup maxAge now c)
  end.

Definition run (ops : list Op) (c : LRUCache) : LRUCache :=
  fold_left step ops c.

(** [set] of each key of a list, in order. *)
Definition setAll (kvs : list (K * V * Z)) (c : LRUCache) : LRUCache :=
  fold_left (fun c kvt => set (fst (fst kvt)) (snd (fst kvt)) (snd kvt) c)
            kvs c.

(** The [set] operation a triple stands for. *)
Definition opSetOf (kvt : K * V * Z) : Op :=
  OpSet (fst (fst kvt)) (snd (fst kvt)) (snd kvt).

(** The sum of the per-entry hit counters. *)
Definition sumHits (m : JSMap) : Z :=
  fold_right (fun ke acc => Z.of_N (hits (snd ke)) + acc) 0 m.

(** The invariant of the object: the counter agrees with the map, and the
    map holds each key once. *)
Definition consistent (c : LRUCache) : Prop :=
  currentSize c = Z.of_nat (List.length (cache c))
  /\ NoDup (keys c).

(** The store is within its capacity. *)
Definition withinCapacity (c : LRUCache) : Prop :=
  Z.of_nat (List.length (cache c)) <= maxSize c.

(** The keys of the triples handed to [setAll]. *)
Definition keysOf (kvs : list (K * V * Z)) : list K :=
  map (fun kvt => fst (fst kvt)) kvs.

End Cache.

Arguments JSMap : clear implicits.
Arguments LRUCache : clear implicits.
Arguments Stats : clear implicits.
Arguments StatEntry : clear implicits.
Arguments Op : clear implicits.

End LRU.


(* ================================================================== *)
(** ** ContextFormatter *)

Module ContextFormatter.

Record ContextSection : Type := mkSection
  { id : string; content : string; priority : Z; tokens : Z; source : string }.

Record FormatOptions : Type := mkOptions
  { maxTokens : Z; includeTokens : bool; includeMetadata : bool;
    separator : option string }.

Record Metadata : Type := mkMetadata
  { totalItems : Z; includedItems : Z; excludedItems : Z;
    sources : list string }.

Record FormattedOutput : Type := mkOutput
  { formatted : string; usedTokens : Z; sections : list ContextSection;
    metadata : option Metadata }.

(** The line feed, ['\n']. *)
Definition LF : string := String "010"%char EmptyString.

(** *** [new Set<string>] as a duplicate-free list in insertion order *)

Definition setHas (x : string) (s : list string) : bool :=
  existsb (String.eqb x) s.

Definition setAdd (x : string) (s : list string) : list string :=
  if setHas x s then s else s ++ [x].

Definition setOf (xs : list string) : list string := JS.unique xs.

(** *** [calculateSimilarity] *)

Definition calculateSimilarity (str1 str2 : string) : Q :=
  let s1 := JS.trim (JS.toLowerCase str1) in
  let s2 := JS.trim (JS.toLowerCase str2) in
  if String.eqb s1 s2 then 1%Q
  else if (Nat.eqb (String.length s1) 0 || Nat.eqb (String.length s2) 0)%bool
  then 0%Q
  else
    let words1 := setOf (JS.splitWs s1) in
    let words2 := setOf (JS.splitWs s2) in
    let intersection := setOf (filter (fun x => setHas x words2) words1) in
    let union := setOf (words1 ++ words2) in
    (inject_Z (Z.of_nat (List.length intersection))
     / inject_Z (Z.of_nat (List.length union)))%Q.

(** *** [deduplicate] *)

(** [similarity > 0.85] *)
Definition aboveThreshold (similarity : Q) : bool :=
  negb (Qle_bool similarity (85 # 100)).

Fixpoint deduplicateLoop (sections : list ContextSection)
         (seen : list string) (deduplicated : list ContextSection)
  : list ContextSection :=
  match sections with
  | [] => deduplicated
  | section :: rest =>
      let normalized := JS.trim (JS.toLowerCase (content section)) in
      if setHas normalized seen then deduplicateLoop rest seen deduplicated
      else
        let isDuplicate :=
          existsb (fun s =>
                     aboveThreshold
                       (calculateSimilarity (content s) (content section)))
                  deduplicated in
        if isDuplicate then deduplicateLoop rest seen deduplicated
        else deduplicateLoop rest (setAdd normalized seen)
                             (deduplicated ++ [section])
  end.

Definition deduplicate (sections : list ContextSection)
  : list ContextSection :=
  deduplicateLoop sections [] [].

(** *** [Array.prototype.sort]: a stable sort by a comparator *)

Section Sort.
Context {A : Type}.
Variable compareFn : A -> A -> Z.

Fixpoint insertSorted (x : A) (l : list A) : list A :=
  match l with
  | [] => [x]
  | y :: r => if compareFn x y <=? 0 then x :: l else y :: insertSorted x r
  end.

Definition sort (l : list A) : list A := fold_right insertSorted [] l.

End Sort.

(** *** Budget selection *)

Record Selection : Type := mkSelection
  { sel_usedTokens : Z;
    sel_included : list ContextSection;
    sel_excluded : list ContextSection }.

Fixpoint selectLoop (maxTokens : Z) (deduplicated : list ContextSection)
         (st : Selection) : Selection :=
  match deduplicated with
  | [] => st
  | section :: rest =>
      if sel_usedTokens st + tokens section >? maxTokens then
        selectLoop maxTokens rest
          {| sel_usedTokens := sel_usedTokens st;
             sel_included := sel_included st;
             sel_excluded := sel_excluded st ++ [section] |}
      else
        selectLoop maxTokens rest
          {| sel_usedTokens := sel_usedTokens st + tokens section;
             sel_included := sel_included st ++ [section];
             sel_excluded := sel_excluded st |}
  end.

Definition select (maxTokens : Z) (deduplicated : list ContextSection)
  : Selection :=
  selectLoop maxTokens deduplicated
    {| sel_usedTokens := 0; sel_included := []; sel_excluded := [] |}.

(** *** Rendering *)

Definition renderSection (includeTokens includeMetadata : bool)
           (separator : string) (formatted : string)
           (section : ContextSection) : string :=
  let formatted := (formatted ++ content section)%string in
  let formatted :=
    if includeMetadata
    then (formatted ++ (" [" ++ source section ++ "]"))%string
    else formatted in
  let formatted :=
    if includeTokens
    then (formatted ++ (" [" ++ JS.numToString (tokens section) ++ "t]"))%string
    else formatted in
  (formatted ++ separator)%string.

Definition summaryLine (usedTokens maxTokens : Z) : string :=
  (LF ++ "Total: " ++ JS.numToString usedTokens ++ "/"
      ++ JS.numToString maxTokens ++ " tokens")%string.

(** *** [format] *)

Section Format.

(** [String.prototype.localeCompare] of the host: negative, zero or
    positive as the receiver sorts before, with or after the argument. *)
Variable localeCompare : string -> string -> Z.

Definition compareSections (a b : ContextSection) : Z :=
  if negb (priority b =? priority a) then priority b - priority a
  else localeCompare (id b) (id a).

Definition format (sections : list ContextSection) (options : FormatOptions)
  : FormattedOutput :=
  let maxTokens := maxTokens options in
  let includeTokens := includeTokens options in
  let includeMetadata := includeMetadata options in
  let separator :=
    match separator options with
    | Some s => s
    | None => (LF ++ LF)%string
    end in
  let sorted := sort compareSections sections in
  let deduplicated := deduplicate sorted in
  let sel := select maxTokens deduplicated in
  let usedTokens := sel_usedTokens sel in
  let included := sel_included sel in
  let excluded := sel_excluded sel in
  let formatted :=
    fold_left (renderSection includeTokens includeMetadata separator)
              included EmptyString in
  let formatted :=
    if includeTokens
    then (formatted ++ summaryLine usedTokens maxTokens)%string
    else formatted in
  let sources := setOf (map source included) in
  let metadata :=
    {| totalItems := Z.of_nat (List.length deduplicated);
       includedItems := Z.of_nat (List.length included);
       excludedItems := Z.of_nat (List.length excluded);
       sources := sources |} in
  {| formatted := JS.trim formatted;
     usedTokens := usedTokens;
     sections := included;
     metadata := if includeMetadata then Some metadata else None |}.

End Format.

Definition createSection (id content source : string) (priority : option Z)
  : ContextSection :=
  {| id := id;
     content := content;
     tokens := TokenCounter.estimate content;
     priority := match priority with Some p => p | None => 1 end;
     source := source |}.

Definition createSections (items : list (string * string)) (source : string)
           (priority : option Z) : list ContextSection :=
  let priority := match priority with Some p => p | None => 1 end in
  map (fun item => createSection (fst item) (snd item) source (Some priority))
      items.

(** Sum of the [tokens] of a list of sections. *)
Definition sumTokens (l : list ContextSection) : Z :=
  fold_right (fun s acc => tokens s + acc) 0 l.

(** The order the sort aims at: [x] may stand before [y]. *)
Definition precedes (localeCompare : string -> string -> Z)
           (x y : ContextSection) : Prop :=
  priority y < priority x
  \/ (priority x = priority y /\ localeCompare (id y) (id x) <= 0).

(** Code-unit lexicographic comparison, one possible [localeCompare]. *)
Definition codeUnitCompare (a b : string) : Z :=
  match String.compare a b with
  | Lt => -1
  | Eq => 0
  | Gt => 1
  end.

(** [l1] is [l2] with some elements left out, the order kept. *)
Inductive Subseq {A : Type} : list A -> list A -> Prop :=
| Subseq_nil : Subseq [] []
| Subseq_skip (x : A) (l1 l2 : list A) : Subseq l1 l2 -> Subseq l1 (x :: l2)
| Subseq_take (x : A) (l1 l2 : list A) :
    Subseq l1 l2 -> Subseq (x :: l1) (x :: l2).

End ContextFormatter.


(* ================================================================== *)
(** ** Effects: exceptions, the log, the clock and the backend *)

Module Effects.

(** A thrown value: an [Error] with its message, or something else. *)
Inductive Exn : Type :=
| ErrorObj (message : string)
| NonError.

(** [error instanceof Error ? error.message : 'Unknown error'] *)
Definition messageOf (e : Exn) : string :=
  match e with
  | ErrorObj m => m
  | NonError => "Unknown error"
  end.

Inductive Result (A : Type) : Type :=
| Return (a : A)
| Throw (e : Exn).
Arguments Return {A} _.
Arguments Throw {A} _.

(** An untyped metadata value ([Record<string, any>]). *)
#[warnings="-register-all"] Inductive Json : Type :=
| JNull
| JBool (b : bool)
| JNum (n : Z)
| JStr (s : string)
| JArr (items : list Json)
| JObj (fields : list (string * Json)).

Record MemoryResult : Type := mkMemoryResult
  { memory : option string; score : Q; resultMetadata : option Json }.

Record SearchResults : Type := mkSearchResults
  { results : list MemoryResult; total : Z; timing : Z }.

Record SupermemoryProfile : Type := mkProfile
  { profileStatic : list string;
    profileDynamic : list string;
    searchResults : option SearchResults }.

(** What the client hands to the backend SDK. *)
Inductive Request : Type :=
| ReqProfile (containerTag : string) (q : option string)
| ReqAdd (content : string) (containerTag : string) (metadata : option Json)
| ReqSearchMemories (q : string) (containerTag : string)
                    (threshold : option Q) (limit : Z)
| ReqSearchDocuments (q : string) (containerTags : list string) (limit : Z).

(** The backend SDK: each operation answers or throws. *)
Record Backend : Type := mkBackend
  { be_profile : string -> option string -> Result SupermemoryProfile;
    be_add : string -> string -> option Json -> Result Json;
    be_searchMemories :
      string -> string -> option Q -> Z -> Result SearchResults;
    be_searchDocuments : string -> list string -> Z -> Result Json }.

Inductive Level : Type := Info | Warn | Error | Debug.

Record LogLine : Type := mkLogLine
  { level : Level; text : string; thrown : option Exn }.

(** The mutable world of one [VapiMemory] instance: its profile cache,
    what its logger received, what was transmitted to the backend, and
    how many times the clock has been read. *)
Record World : Type := mkWorld
  { profileCache : LRU.LRUCache string SupermemoryProfile;
    logged : list LogLine;
    transmitted : list Request;
    ticks : nat }.

(** The environment: the backend and the readings of [Date.now()]. *)
Record Env : Type := mkEnv
  { backend : Backend; clock : nat -> Z }.

(** Computations that read and write the world and may throw. *)
Definition M (A : Type) : Type := World -> Result A * World.

Definition ret {A : Type} (a : A) : M A := fun w => (Return a, w).

Definition throw {A : Type} (e : Exn) : M A := fun w => (Throw e, w).

Definition bind {A B : Type} (m : M A) (k : A -> M B) : M B :=
  fun w =>
    match m w with
    | (Return a, w') => k a w'
    | (Throw e, w') => (Throw e, w')
    end.

(** [try { m } catch (error) { handler error }] *)
Definition tryCatch {A : Type} (m : M A) (handler : Exn -> M A) : M A :=
  fun w =>
    match m w with
    | (Return a, w') => (Return a, w')
    | (Throw e, w') => handler e w'
    end.

(** [await] of a backend promise: settle to the answer or throw. *)
Definition await {A : Type} (r : Result A) : M A := fun w => (r, w).

Definition log (l : Level) (t : string) (e : option Exn) : M unit :=
  fun w =>
    (Return tt,
     {| profileCache := profileCache w;
        logged := logged w ++ [{| level := l; text := t; thrown := e |}];
        transmitted := transmitted w;
        ticks := ticks w |}).

Definition transmit (r : Request) : M unit :=
  fun w =>
    (Return tt,
     {| profileCache := profileCache w;
        logged := logged w;
        transmitted := transmitted w ++ [r];
        ticks := ticks w |}).

Definition dateNow (env : Env) : M Z :=
  fun w =>
    (Return (clock env (ticks w)),
     {| profileCache := profileCache w;
        logged := logged w;
        transmitted := transmitted w;
        ticks := S (ticks w) |}).

Definition withCache (w : World)
           (c : LRU.LRUCache string SupermemoryProfile) : World :=
  {| profileCache := c;
     logged := logged w;
     transmitted := transmitted w;
     ticks := ticks w |}.

(** [profileCache.get(key)]; the clock is read only on a hit. *)
Definition cacheGet (env : Env) (key : string) : M (option SupermemoryProfile) :=
  fun w =>
    if LRU.has string_dec key (profileCache w) then
      let now := clock env (ticks w) in
      let '(v, c) := LRU.get string_dec key now (profileCache w) in
      (Return v,
       {| profileCache := c;
          logged := logged w;
          transmitted := transmitted w;
          ticks := S (ticks w) |})
    else (Return None, w).

(** [profileCache.set(key, value)] *)
Definition cacheSet (env : Env) (key : string) (v : SupermemoryProfile)
  : M unit :=
  fun w =>
    let now := clock env (ticks w) in
    (Return tt,
     {| profileCache := LRU.set string_dec key v now (profileCache w);
        logged := logged w;
        transmitted := transmitted w;
        ticks := S (ticks w) |}).

End Effects.

Declare Scope js_scope.
Delimit Scope js_scope with js.
Notation "x <- m ;; k" := (Effects.bind m (fun x => k))
  (at level 61, m at next level, right associativity) : js_scope.
Notation "m ;;; k" := (Effects.bind m (fun _ => k))
  (at level 61, right associativity) : js_scope.

(* ================================================================== *)
(** ** SupermemoryClient *)

Module SupermemoryClient.
Import Effects.
Local Open Scope js_scope.

(** The characters the class [[a-zA-Z0-9_-]] accepts. *)
Definition isTagChar (c : ascii) : bool :=
  let n := JS.code c in
  ((97 <=? n) && (n <=? 122)
   || (65 <=? n) && (n <=? 90)
   || (48 <=? n) && (n <=? 57)
   || (n =? 95) || (n =? 45))%N.

(** [tag.replace(/[^a-zA-Z0-9_-]/g, '')] *)
Fixpoint sanitizeContainerTag (tag : string) : string :=
  match tag with
  | EmptyString => EmptyString
  | String c r =>
      if isTagChar c then String c (sanitizeContainerTag r)
      else sanitizeContainerTag r
  end.

(** [limit || 5] *)
Definition limitOr5 (limit : option Z) : Z :=
  match limit with
  | Some l => if l =? 0 then 5 else l
  | None => 5
  end.

Definition rethrow {A : Type} (logText failText : string) (error : Exn) : M A :=
  log Error logText (Some error) ;;;
  throw (ErrorObj (failText ++ messageOf error)).

Definition getProfile (env : Env) (containerTag : string)
           (query : option string) (threshold : option Q)
  : M SupermemoryProfile :=
  tryCatch
    (log Debug ("Fetching profile for " ++ containerTag) None ;;;
     let tag := sanitizeContainerTag containerTag in
     transmit (ReqProfile tag query) ;;;
     result <- await (be_profile (backend env) tag query) ;;
     ret result)
    (rethrow "Error fetching profile:" "Failed to fetch profile: ").

Definition addMemory (env : Env) (content containerTag : string)
           (metadata : option Json) : M Json :=
  tryCatch
    (log Debug ("Adding memory for " ++ containerTag) None ;;;
     let tag := sanitizeContainerTag containerTag in
     transmit (ReqAdd content tag metadata) ;;;
     result <- await (be_add (backend env) content tag metadata) ;;
     ret result)
    (rethrow "Error adding memory:" "Failed to add memory: ").

Definition searchMemories (env : Env) (query containerTag : string)
           (threshold : option Q) (limit : option Z) : M SearchResults :=
  tryCatch
    (log Debug ("Searching memories: " ++ query ++ " in " ++ containerTag)
         None ;;;
     let tag := sanitizeContainerTag containerTag in
     let lim := limitOr5 limit in
     transmit (ReqSearchMemories query tag threshold lim) ;;;
     result <- await (be_searchMemories (backend env) query tag threshold lim) ;;
     ret result)
    (rethrow "Error searching memories:" "Failed to search memories: ").

Definition searchDocuments (env : Env) (query : string)
           (containerTags : list string) (limit : option Z) : M Json :=
  tryCatch
    (log Debug ("Searching documents: " ++ query ++ " in "
                  ++ String.concat ", " containerTags) None ;;;
     let tags := map sanitizeContainerTag containerTags in
     let lim := limitOr5 limit in
     transmit (ReqSearchDocuments query tags lim) ;;;
     result <- await (be_searchDocuments (backend env) query tags lim) ;;
     ret result)
    (rethrow "Error searching documents:" "Failed to search documents: ").

(** The container tags a transmitted request carries. *)
Definition tagsOf (r : Request) : list string :=
  match r with
  | ReqProfile t _ => [t]
  | ReqAdd _ t _ => [t]
  | ReqSearchMemories _ t _ _ => [t]
  | ReqSearchDocuments _ ts _ => ts
  end.

(** Every code unit of [s] is in the class [[A-Za-z0-9_-]]. *)
Fixpoint allTagChars (s : string) : bool :=
  match s with
  | EmptyString => true
  | String c r => isTagChar c && allTagChars r
  end.

(** The class [[A-Za-z0-9_-]] of the specification, written out. *)
Definition specClass : string :=
  "ABCDEFGHIJKLMNOPQRSTUVWXYZabcdefghijklmnopqrstuvwxyz0123456789_-".

Definition inSpecClass (c : ascii) : bool :=
  existsb (Ascii.eqb c) (list_ascii_of_string specClass).

(** The identifier with every character outside the class removed, as
    the specification words it. *)
Definition stripOutsideClass (tag : string) : string :=
  string_of_list_ascii (filter inSpecClass (list_ascii_of_string tag)).

End SupermemoryClient.


(* ================================================================== *)
(** ** VapiMemory *)

Module VapiMemory.
Import Effects.
Local Open Scope js_scope.

Record VapiMemoryOptions : Type := mkRawOptions
  { opt_apiKey : string;
    opt_baseUrl : option string;
    opt_maxTokens : option Z;
    opt_searchThreshold : option Q;
    opt_cacheEnabled : option bool;
    opt_cacheTTL : option Z }.

(** [Required<VapiMemoryOptions>], as the constructor fills it in. *)
Record Options : Type := mkOptions
  { apiKey : string;
    baseUrl : string;
    maxTokens : Z;
    searchThreshold : Q;
    cacheEnabled : bool;
    cacheTTL : Z }.

Definition resolveOptions (o : VapiMemoryOptions) : Options :=
  {| apiKey := opt_apiKey o;
     baseUrl := match opt_baseUrl o with
                | Some u => if JS.isEmpty u then "https://api.supermemory.ai"
                            else u
                | None => "https://api.supermemory.ai"
                end;
     maxTokens := match opt_maxTokens o with
                  | Some n => if n =? 0 then 2000 else n
                  | None => 2000
                  end;
     searchThreshold := match opt_searchThreshold o with
                        | Some t => if Qeq_bool t 0 then (5 # 10)%Q else t
                        | None => (5 # 10)%Q
                        end;
     cacheEnabled := JS.notFalse (opt_cacheEnabled o);
     cacheTTL := match opt_cacheTTL o with
                 | Some n => if n =? 0 then 60000 else n
                 | None => 60000
                 end |}.

Record GetContextRequest : Type := mkRequest
  { userId : string;
    query : option string;
    callId : option string;
    includeProfile : option bool;
    includeRecent : option bool;
    includeSearch : option bool;
    reqMaxTokens : option Z }.

Record ProfileFacts : Type := mkFacts
  { static : list string; dynamic : list string }.

Record ContextMetadata : Type := mkContextMetadata
  { metaUserId : string; retrievalTime : Z; sources : list string }.

Record FormattedContext : Type := mkContext
  { profile : option ProfileFacts;
    recentMemories : list string;
    searchResults : list string;
    totalTokens : Z;
    metadata : ContextMetadata }.

(** The two locals of [getContext] that its steps update. *)
Record Locals : Type := mkLocals
  { context : FormattedContext; srcs : list string }.

(** [results.filter(r => r.memory !== undefined).map(r => r.memory!)] *)
Fixpoint memoriesOf (rs : list MemoryResult) : list string :=
  match rs with
  | [] => []
  | r :: rest =>
      match memory r with
      | Some m => m :: memoriesOf rest
      | None => memoriesOf rest
      end
  end.

Definition setProfile (p : SupermemoryProfile) (l : Locals) : Locals :=
  let facts := {| static := profileStatic p; dynamic := profileDynamic p |} in
  let c := context l in
  {| context :=
       {| profile := Some facts;
          recentMemories := recentMemories c;
          searchResults := searchResults c;
          totalTokens :=
            totalTokens c + TokenCounter.estimateMultiple (static facts)
            + TokenCounter.estimateMultiple (dynamic facts);
          metadata := metadata c |};
     srcs := srcs l |}.

Definition pushSource (s : string) (l : Locals) : Locals :=
  {| context := context l; srcs := srcs l ++ [s] |}.

(** The search results a profile answer carries, when search is wanted. *)
Definition addProfileSearch (request : GetContextRequest)
           (p : SupermemoryProfile) (l : Locals) : Locals :=
  match Effects.searchResults p with
  | Some sr =>
      if JS.notFalse (includeSearch request) then
        let found := memoriesOf (results sr) in
        let c := context l in
        pushSource "search"
          {| context :=
               {| profile := profile c;
                  recentMemories := recentMemories c;
                  searchResults := found;
                  totalTokens :=
                    totalTokens c + TokenCounter.estimateMultiple found;
                  metadata := metadata c |};
             srcs := srcs l |}
      else l
  | None => l
  end.

Definition setRecent (found : list string) (l : Locals) : Locals :=
  let c := context l in
  {| context :=
       {| profile := profile c;
          recentMemories := found;
          searchResults := searchResults c;
          totalTokens := totalTokens c + TokenCounter.estimateMultiple found;
          metadata := metadata c |};
     srcs := srcs l |}.

Section GetContext.
Variable env : Env.
Variable options : Options.

(** Step "check cache first". *)
Definition checkCache (request : GetContextRequest) (l : Locals) : M Locals :=
  let cacheKey := ("profile:" ++ userId request)%string in
  if cacheEnabled options then
    cached <- cacheGet env cacheKey ;;
    match cached with
    | Some cached =>
        log Debug ("Cache hit for " ++ userId request) None ;;;
        ret (addProfileSearch request cached
               (pushSource "cache" (setProfile cached l)))
    | None => ret l
    end
  else ret l.

(** Step "fetch from API if not in cache".  The answer of the client is
    typed, so nothing after the [await] can throw. *)
Definition fetchProfile (request : GetContextRequest) (l : Locals) : M Locals :=
  let cacheKey := ("profile:" ++ userId request)%string in
  match profile (context l) with
  | Some _ => ret l
  | None =>
      if JS.notFalse (includeProfile request) then
        tryCatch
          (p <- SupermemoryClient.getProfile env (userId request)
                                             (query request) None ;;
           let l1 := pushSource "profile" l in
           (if cacheEnabled options then cacheSet env cacheKey p else ret tt) ;;;
           ret (addProfileSearch request p (setProfile p l1)))
          (fun error =>
             log Warn "Failed to fetch profile:" (Some error) ;;;
             ret l)
      else ret l
  end.

(** Step "search for recent memories if requested". *)
Definition fetchRecent (request : GetContextRequest) (l : Locals) : M Locals :=
  if (JS.notFalse (includeRecent request) && JS.truthyStr (callId request))%bool
  then
    tryCatch
      (memories <- SupermemoryClient.searchMemories
                     env "recent conversation" (userId request)
                     (Some (searchThreshold options)) (Some 3) ;;
       ret (pushSource "recent-memories"
              (setRecent (memoriesOf (results memories)) l)))
      (fun error =>
         log Warn "Failed to fetch recent memories:" (Some error) ;;;
         ret l)
  else ret l.

Definition getContext (request : GetContextRequest) : M FormattedContext :=
  startTime <- dateNow env ;;
  tryCatch
    (let l0 :=
       {| context :=
            {| profile := None;
               recentMemories := [];
               searchResults := [];
               totalTokens := 0;
               metadata := {| metaUserId := userId request;
                              retrievalTime := 0;
                              sources := [] |} |};
          srcs := [] |} in
     l1 <- checkCache request l0 ;;
     l2 <- fetchProfile request l1 ;;
     l3 <- fetchRecent request l2 ;;
     endTime <- dateNow env ;;
     let c := context l3 in
     let result :=
       {| profile := profile c;
          recentMemories := recentMemories c;
          searchResults := searchResults c;
          totalTokens := totalTokens c;
          metadata := {| metaUserId := metaUserId (metadata c);
                         retrievalTime := endTime - startTime;
                         sources := srcs l3 |} |} in
     log Info ("Context retrieved for " ++ userId request ++ " in "
                 ++ JS.numToString (endTime - startTime) ++ "ms ("
                 ++ String.concat ", " (srcs l3) ++ ")") None ;;;
     ret result)
    (fun error =>
       log Error "Error getting context:" (Some error) ;;;
       throw (ErrorObj ("Failed to get context: " ++ messageOf error))).

End GetContext.

End VapiMemory.


(* ================================================================== *)
(** ** Fixtures of the test suite *)

Module Fixtures.
Import Effects.
Local Open Scope list_scope.

(** A backend whose profile operation fails and whose memory search
    answers two memories and one result without a memory field. *)
Definition failingProfileBackend : Backend :=
  {| be_profile := fun _ _ => Throw (ErrorObj "API Error");
     be_add := fun _ _ _ => Return JNull;
     be_searchMemories := fun _ _ _ _ =>
       Return {| results :=
                   [ {| memory := Some "Asked about pricing";
                        score := (9 # 10)%Q; resultMetadata := None |};
                     {| memory := None;
                        score := (8 # 10)%Q; resultMetadata := None |};
                     {| memory := Some "Prefers email";
                        score := (7 # 10)%Q; resultMetadata := None |} ]%string;
                 total := 3; timing := 12 |};
     be_searchDocuments := fun _ _ _ => Return JNull |}.

Definition testEnv : Env :=
  {| backend := failingProfileBackend; clock := fun n => 1000 + Z.of_nat n |}.

Definition testOptions : VapiMemory.Options :=
  VapiMemory.resolveOptions
    {| VapiMemory.opt_apiKey := "test-api-key";
       VapiMemory.opt_baseUrl := None;
       VapiMemory.opt_maxTokens := None;
       VapiMemory.opt_searchThreshold := None;
       VapiMemory.opt_cacheEnabled := None;
       VapiMemory.opt_cacheTTL := None |}.

Definition testRequest : VapiMemory.GetContextRequest :=
  {| VapiMemory.userId := "+15551234567";
     VapiMemory.query := None;
     VapiMemory.callId := Some "call-1"%string;
     VapiMemory.includeProfile := None;
     VapiMemory.includeRecent := None;
     VapiMemory.includeSearch := None;
     VapiMemory.reqMaxTokens := None |}.

Definition freshWorld : World :=
  {| profileCache := LRU.new 100; logged := []; transmitted := []; ticks := 0 |}.

End Fixtures.

(* ================================================================== *)
(** ** VapiResponseBuilder: the context rendered as a system message *)

Module VapiResponseBuilder.
Import VapiMemory.
Local Open Scope list_scope.

Inductive Role : Type := RoleSystem | RoleUser | RoleAssistant | RoleTool.

(** A message as the builder produces it: its content is a string. *)
Record Message : Type := mkMessage { role : Role; content : string }.

(** ['\n'] *)
Definition LF : string := String "010"%char EmptyString.

(** One titled block of [formatContextString]; nothing for an absent or
    empty list. *)
Definition block (title : string) (items : option (list string))
  : list string :=
  match items with
  | Some (item :: rest) => [title] ++ (item :: rest) ++ [EmptyString]
  | _ => []
  end.

Definition formatContextString (context : FormattedContext) : string :=
  let parts := [("User context:" ++ LF)%string] in
  let parts :=
    parts ++ block "Static Profile:" (option_map static (profile context)) in
  let parts :=
    parts ++ block "Dynamic Profile:" (option_map dynamic (profile context)) in
  let parts :=
    parts ++ block "Recent Memories:" (Some (recentMemories context)) in
  let parts :=
    parts ++ block "Relevant Memories:" (Some (searchResults context)) in
  let parts :=
    parts ++ [("Context includes " ++ JS.numToString (totalTokens context)
                 ++ " estimated tokens.")%string] in
  let parts :=
    parts ++ [("Retrieved in "
                 ++ JS.numToString (retrievalTime (metadata context))
                 ++ "ms from sources: "
                 ++ String.concat ", " (sources (metadata context))
                 ++ ".")%string] in
  String.concat LF parts.

Definition buildSystemMessage (context : FormattedContext) : Message :=
  {| role := RoleSystem; content := formatContextString context |}.

Inductive Position : Type := Before | After.

Definition injectContextToMessages (messages : list Message)
           (context : FormattedContext) (position : option Position)
  : list Message :=
  let systemMessage := buildSystemMessage context in
  match position with
  | Some After => messages ++ [systemMessage]
  | _ => systemMessage :: messages
  end.

(** [s.includes(k)]: [k] occurs in [s] as a run of code units. *)
Fixpoint includes (s k : string) : bool :=
  (String.prefix k s
   || match s with
      | EmptyString => false
      | String _ r => includes r k
      end)%bool.

(** The first fact whose lower-cased text includes one of the keywords. *)
Fixpoint extractValue (facts keywords : list string) : string :=
  match facts with
  | [] => EmptyString
  | fact :: rest =>
      let lowerFact := JS.toLowerCase fact in
      if existsb (fun keyword => includes lowerFact keyword) keywords
      then fact
      else extractValue rest keywords
  end.

(** A [Record<string, string>] in the order its keys were assigned. *)
Definition extractVariableValues (context : FormattedContext)
  : list (string * string) :=
  let values :=
    match profile context with
    | Some p =>
        [ ("userName", extractValue (static p) ["name"; "Name"]);
          ("userTier",
           extractValue (static p) ["VIP"; "vip"; "premium"; "standard"]);
          ("userLocation",
           extractValue (static p) ["lives"; "location"; "in"]);
          ("userAge", extractValue (static p) ["years old"; "age"]) ]%string
    | None => []
    end in
  match recentMemories context with
  | [] => values
  | _ :: _ =>
      values
        ++ [("recentActivities"%string,
             String.concat "; " (firstn 3 (recentMemories context)))]
  end.

(** The value a key is bound to. *)
Fixpoint valueOf (k : string) (values : list (string * string))
  : option string :=
  match values with
  | [] => None
  | (k', v) :: r => if String.eqb k k' then Some v else valueOf k r
  end.

(** One of the letters [A]..[Z]. *)
Definition isCapital (c : ascii) : bool :=
  ((65 <=? JS.code c) && (JS.code c <=? 90))%N.

Fixpoint hasCapital (s : string) : bool :=
  match s with
  | EmptyString => false
  | String c r => isCapital c || hasCapital r
  end.

End VapiResponseBuilder.

(* ================================================================== *)
(** ** VapiMemory: the other operations *)

Module VapiMemoryOps.
Import Effects VapiMemory.
Local Open Scope list_scope.
Local Open Scope js_scope.

(** One titled block of [createContextMessage]. *)
Definition section (title : string) (items : option (list string))
           (content : string) : string :=
  match items with
  | Some (item :: rest) =>
      let content := (content ++ (title ++ VapiResponseBuilder.LF))%string in
      let content :=
        (content ++ String.concat VapiResponseBuilder.LF (item :: rest))%string in
      (content ++ (VapiResponseBuilder.LF ++ VapiResponseBuilder.LF))%string
  | _ => content
  end.

Definition createContextMessage (context : FormattedContext)
  : VapiResponseBuilder.Message :=
  let content :=
    ("User context:" ++ VapiResponseBuilder.LF ++ VapiResponseBuilder.LF)%string in
  let content :=
    section "Static Profile:" (option_map static (profile context)) content in
  let content :=
    section "Dynamic Profile:" (option_map dynamic (profile context)) content in
  let content :=
    section "Recent Memories:" (Some (recentMemories context)) content in
  let content :=
    section "Relevant Memories:" (Some (searchResults context)) content in
  let content :=
    (content ++ ("Context includes " ++ JS.numToString (totalTokens context)
                   ++ " estimated tokens." ++ VapiResponseBuilder.LF))%string in
  let content :=
    (content ++ ("Retrieved in "
                   ++ JS.numToString (retrievalTime (metadata context))
                   ++ "ms from sources: "
                   ++ String.concat ", " (sources (metadata context))
                   ++ "."))%string in
  {| VapiResponseBuilder.role := VapiResponseBuilder.RoleSystem;
     VapiResponseBuilder.content := content |}.

Record UserProfile : Type := mkUserProfile
  { up_userId : string; up_static : list string; up_dynamic : list string }.

Definition getUserProfile (env : Env) (userId : string) : M UserProfile :=
  tryCatch
    (p <- SupermemoryClient.getProfile env userId None None ;;
     ret {| up_userId := userId;
            up_static := profileStatic p;
            up_dynamic := profileDynamic p |})
    (SupermemoryClient.rethrow "Error getting user profile:"
                               "Failed to get user profile: ").

Record Memory : Type := mkMemory
  { mem_userId : string; mem_content : string; mem_metadata : option Json }.

Definition addMemory (env : Env) (memory : Memory) : M unit :=
  tryCatch
    (SupermemoryClient.addMemory env (mem_content memory) (mem_userId memory)
                                 (mem_metadata memory) ;;;
     log Info ("Added memory for user " ++ mem_userId memory) None ;;;
     ret tt)
    (SupermemoryClient.rethrow "Error adding memory:" "Failed to add memory: ").

Inductive TranscriptRole : Type := TUser | TAssistant | TSystem.

Definition roleName (r : TranscriptRole) : string :=
  match r with
  | TUser => "user"
  | TAssistant => "assistant"
  | TSystem => "system"
  end.

Record VapiTranscript : Type := mkTranscript
  { t_role : TranscriptRole; t_content : string }.

Record StoreConversationRequest : Type := mkStoreRequest
  { sc_callId : string;
    sc_userId : string;
    sc_transcript : list VapiTranscript;
    sc_metadata : option (list (string * Json)) }.

(** Assignment to one property of an object: an existing key keeps its
    place, a new key goes last. *)
Fixpoint objSet (k : string) (v : Json) (o : list (string * Json))
  : list (string * Json) :=
  match o with
  | [] => [(k, v)]
  | (k', v') :: r =>
      if String.eqb k k' then (k, v) :: r else (k', v') :: objSet k v r
  end.

(** [{...target, ...source}] *)
Definition objSpread (target : list (string * Json))
           (source : option (list (string * Json))) : list (string * Json) :=
  match source with
  | Some fields => fold_left (fun o kv => objSet (fst kv) (snd kv) o) fields target
  | None => target
  end.

Fixpoint objGet (k : string) (o : list (string * Json)) : option Json :=
  match o with
  | [] => None
  | (k', v) :: r => if String.eqb k k' then Some v else objGet k r
  end.

Section StoreConversation.
Variable env : Env.

(** [new Date(ms).toISOString()] of the host. *)
Variable toISOString : Z -> string.

Definition transcriptText (transcript : list VapiTranscript) : string :=
  String.concat VapiResponseBuilder.LF
    (map (fun t => (roleName (t_role t) ++ ": " ++ t_content t)%string)
         transcript).

Definition storeConversation (call : StoreConversationRequest) : M unit :=
  tryCatch
    (let text := transcriptText (sc_transcript call) in
     now <- dateNow env ;;
     let md :=
       objSpread [("callId"%string, JStr (sc_callId call));
                  ("timestamp"%string, JStr (toISOString now))]
                 (sc_metadata call) in
     SupermemoryClient.addMemory env text (sc_userId call) (Some (JObj md)) ;;;
     log Info ("Stored conversation " ++ sc_callId call ++ " for user "
                 ++ sc_userId call) None ;;;
     ret tt)
    (SupermemoryClient.rethrow "Error storing conversation:"
                               "Failed to store conversation: ").

End StoreConversation.

Definition forgetMemory (memoryId : string) : M unit :=
  throw (ErrorObj "forgetMemory is not yet implemented").

Definition clearCache : M unit :=
  fun w =>
    log Info "Cache cleared" None
        (withCache w (LRU.clear (profileCache w))).

(** The text one titled block adds to the message. *)
Definition blockText (title : string) (items : option (list string))
  : string :=
  match items with
  | Some (item :: rest) =>
      ((title ++ VapiResponseBuilder.LF)
         ++ (String.concat VapiResponseBuilder.LF (item :: rest)
               ++ (VapiResponseBuilder.LF ++ VapiResponseBuilder.LF)))%string
  | _ => EmptyString
  end.

(** The items of a joined list after the first, each behind a line feed. *)
Definition tailJoin (l : list string) : string :=
  fold_right (fun y acc => (VapiResponseBuilder.LF ++ (y ++ acc))%string)
             EmptyString l.

(** The estimated tokens of the text a context record carries. *)
Definition profileTokens (p : option ProfileFacts) : Z :=
  match p with
  | Some facts =>
      TokenCounter.estimateMultiple (static facts)
      + TokenCounter.estimateMultiple (dynamic facts)
  | None => 0
  end.

Definition textTokens (c : FormattedContext) : Z :=
  profileTokens (profile c)
  + TokenCounter.estimateMultiple (searchResults c)
  + TokenCounter.estimateMultiple (recentMemories c).

(** The provenance tags [getContext] uses. *)
Definition knownSource (s : string) : Prop :=
  In s ["cache"; "profile"; "search"; "recent-memories"]%string.

(** What holds of the locals of [getContext] between its steps. *)
Definition accounted (uid : string) (l : Locals) : Prop :=
  totalTokens (context l) = textTokens (context l)
  /\ (profile (context l) = None -> searchResults (context l) = [])
  /\ Forall knownSource (srcs l)
  /\ metaUserId (metadata (context l)) = uid.

End VapiMemoryOps.

(* ================================================================== *)
(** ** Further fixtures *)

Module MoreFixtures.
Import Effects.
Local Open Scope list_scope.

(** A backend that answers every operation. *)
Definition answeringBackend : Backend :=
  {| be_profile := fun _ _ =>
       Return {| profileStatic := ["User is VIP customer"]%string;
                 profileDynamic := ["Asked about pricing"]%string;
                 searchResults := None |};
     be_add := fun _ _ _ => Return JNull;
     be_searchMemories := fun _ _ _ _ =>
       Return {| results := []; total := 0; timing := 1 |};
     be_searchDocuments := fun _ _ _ => Return JNull |}.

Definition answeringEnv : Env :=
  {| backend := answeringBackend; clock := fun n => 1000 + Z.of_nat n |}.

(** A request that wants neither a profile nor recent memories. *)
Definition quietRequest : VapiMemory.GetContextRequest :=
  {| VapiMemory.userId := "user123";
     VapiMemory.query := None;
     VapiMemory.callId := None;
     VapiMemory.includeProfile := Some false;
     VapiMemory.includeRecent := None;
     VapiMemory.includeSearch := None;
     VapiMemory.reqMaxTokens := None |}.

Definition plainRequest : VapiMemory.GetContextRequest :=
  {| VapiMemory.userId := "user123";
     VapiMemory.query := None;
     VapiMemory.callId := None;
     VapiMemory.includeProfile := None;
     VapiMemory.includeRecent := None;
     VapiMemory.includeSearch := None;
     VapiMemory.reqMaxTokens := None |}.

Definition fullContext : VapiMemory.FormattedContext :=
  {| VapiMemory.profile :=
       Some {| VapiMemory.static := ["User is 25 years old"]%string;
               VapiMemory.dynamic := ["Likes coffee"; "Lives in Berlin"]%string |};
     VapiMemory.recentMemories := ["Asked about pricing"]%string;
     VapiMemory.searchResults := [];
     VapiMemory.totalTokens := 500;
     VapiMemory.metadata :=
       {| VapiMemory.metaUserId := "user123";
          VapiMemory.retrievalTime := 100;
          VapiMemory.sources := ["profile"; "recent-memories"]%string |} |}.

End MoreFixtures.

(* ================================================================== *)
(** * Properties of the recency cache *)

Local Open Scope list_scope.

Section LRUFacts.
Context {K V : Type}.
Variable K_eq_dec : forall x y : K, {x = y} + {x <> y}.

Local Abbreviation Cache := (LRU.LRUCache K V).
Local Abbreviation mapKeys := (@LRU.mapKeys K V).
Local Abbreviation new := (@LRU.new K V).
Local Abbreviation mapHas := (LRU.mapHas K_eq_dec).
Local Abbreviation mapGet := (LRU.mapGet K_eq_dec).
Local Abbreviation mapDelete := (LRU.mapDelete K_eq_dec).
Local Abbreviation mapSet := (LRU.mapSet K_eq_dec).
Local Abbreviation get := (LRU.get K_eq_dec).
Local Abbreviation set := (LRU.set K_eq_dec).
Local Abbreviation has := (LRU.has K_eq_dec).
Local Abbreviation delete := (LRU.delete K_eq_dec).
Local Abbreviation cleanup := (LRU.cleanup K_eq_dec).
Local Abbreviation run := (LRU.run K_eq_dec).
Local Abbreviation setAll := (LRU.setAll K_eq_dec).

(** *** The map *)

Lemma mapHas_In (k : K) (m : LRU.JSMap K V) :
  mapHas k m = true <-> In k (mapKeys m).
Proof.
  unfold LRU.mapHas.
  induction m as [|[k' e] m IH]; simpl.
  - split; [discriminate | tauto].
  - destruct (K_eq_dec k k') as [->|Hne].
    + split; auto.
    + rewrite IH. split; [auto | intros [H|H]; congruence].
Qed.

Lemma mapHas_false (k : K) (m : LRU.JSMap K V) :
  mapHas k m = false <-> ~ In k (mapKeys m).
Proof.
  rewrite <- mapHas_In. destruct (mapHas k m); split; congruence.
Qed.

Lemma mapGet_Some_has (k : K) (m : LRU.JSMap K V) (e : LRU.CacheEntry V) :
  mapGet k m = Some e -> mapHas k m = true.
Proof. unfold LRU.mapHas. intros ->. reflexivity. Qed.

Lemma mapGet_None_has (k : K) (m : LRU.JSMap K V) :
  mapGet k m = None -> mapHas k m = false.
Proof. unfold LRU.mapHas. intros ->. reflexivity. Qed.

Lemma mapDelete_absent (k : K) (m : LRU.JSMap K V) :
  ~ In k (mapKeys m) -> mapDelete k m = m.
Proof.
  induction m as [|[k' e] m IH]; simpl; intros H; [reflexivity|].
  destruct (K_eq_dec k k') as [->|Hne]; [tauto|].
  f_equal. apply IH. tauto.
Qed.

Lemma mapDelete_length (k : K) (m : LRU.JSMap K V) :
  In k (mapKeys m) ->
  S (List.length (mapDelete k m)) = List.length m.
Proof.
  induction m as [|[k' e] m IH]; simpl; intros H; [tauto|].
  destruct (K_eq_dec k k') as [->|Hne]; [reflexivity|].
  simpl. f_equal. apply IH. destruct H; congruence.
Qed.

Lemma mapDelete_keys_incl (k x : K) (m : LRU.JSMap K V) :
  In x (mapKeys (mapDelete k m)) -> In x (mapKeys m).
Proof.
  induction m as [|[k' e] m IH]; simpl; [tauto|].
  destruct (K_eq_dec k k'); simpl; tauto.
Qed.

Lemma mapDelete_keys_other (k x : K) (m : LRU.JSMap K V) :
  x <> k -> In x (mapKeys m) -> In x (mapKeys (mapDelete k m)).
Proof.
  intros Hx.
  induction m as [|[k' e] m IH]; simpl; [tauto|].
  destruct (K_eq_dec k k') as [->|Hne]; simpl.
  - intros [H|H]; [congruence | assumption].
  - tauto.
Qed.

Lemma mapDelete_NoDup (k : K) (m : LRU.JSMap K V) :
  NoDup (mapKeys m) -> NoDup (mapKeys (mapDelete k m)).
Proof.
  induction m as [|[k' e] m IH]; simpl; intros H; [assumption|].
  inversion H as [|? ? Hnin Hnd]; subst.
  destruct (K_eq_dec k k'); [assumption|].
  simpl. constructor; [|auto].
  intros Hin. apply Hnin. eapply mapDelete_keys_incl; eassumption.
Qed.

Lemma mapDelete_removes (k : K) (m : LRU.JSMap K V) :
  NoDup (mapKeys m) -> ~ In k (mapKeys (mapDelete k m)).
Proof.
  induction m as [|[k' e] m IH]; simpl; intros H; [tauto|].
  inversion H as [|? ? Hnin Hnd]; subst.
  destruct (K_eq_dec k k') as [->|Hne]; [assumption|].
  simpl. intros [Heq|Hin]; [congruence | exact (IH Hnd Hin)].
Qed.

Lemma mapSet_absent (k : K) (e : LRU.CacheEntry V) (m : LRU.JSMap K V) :
  ~ In k (mapKeys m) -> mapSet k e m = m ++ [(k, e)].
Proof.
  induction m as [|[k' e'] m IH]; simpl; intros H; [reflexivity|].
  destruct (K_eq_dec k k') as [->|Hne]; [tauto|].
  f_equal. apply IH. tauto.
Qed.

Lemma mapKeys_app (m1 m2 : LRU.JSMap K V) :
  mapKeys (m1 ++ m2) = mapKeys m1 ++ mapKeys m2.
Proof. unfold LRU.mapKeys. apply map_app. Qed.

Lemma NoDup_snoc (x : K) (l : list K) :
  NoDup l -> ~ In x l -> NoDup (l ++ [x]).
Proof.
  induction l as [|a l IH]; simpl; intros Hnd Hnin.
  - constructor; [tauto | constructor].
  - inversion Hnd as [|? ? Ha Hl]; subst. constructor.
    + rewrite in_app_iff. simpl. intros [H|[H|[]]]; [tauto | subst; tauto].
    + apply IH; tauto.
Qed.

(** *** Each operation keeps the object consistent *)

Lemma consistent_new (maxSize : Z) : LRU.consistent (new maxSize).
Proof. split; [reflexivity | constructor]. Qed.

Lemma consistent_remove (k : K) (c : Cache) :
  LRU.consistent c -> In k (LRU.keys c) ->
  LRU.consistent {| LRU.cache := mapDelete k (LRU.cache c);
                LRU.maxSize := LRU.maxSize c;
                LRU.currentSize := LRU.currentSize c - 1 |}.
Proof.
  intros [Hsz Hnd] Hin. split; simpl.
  - pose proof (mapDelete_length k (LRU.cache c) Hin). lia.
  - apply mapDelete_NoDup. exact Hnd.
Qed.

Lemma consistent_append (k : K) (e : LRU.CacheEntry V) (c : Cache) :
  LRU.consistent c -> ~ In k (LRU.keys c) ->
  LRU.consistent {| LRU.cache := mapSet k e (LRU.cache c);
                LRU.maxSize := LRU.maxSize c;
                LRU.currentSize := LRU.currentSize c + 1 |}.
Proof.
  intros [Hsz Hnd] Hnin. unfold LRU.consistent, LRU.keys. simpl.
  rewrite (mapSet_absent k e _ Hnin), length_app, mapKeys_app. simpl.
  split; [lia | apply NoDup_snoc; assumption].
Qed.

Lemma consistent_dropExisting (k : K) (c : Cache) :
  LRU.consistent c ->
  LRU.consistent (LRU.dropExisting K_eq_dec k c)
  /\ ~ In k (LRU.keys (LRU.dropExisting K_eq_dec k c)).
Proof.
  intros Hc. unfold LRU.dropExisting.
  destruct (mapHas k (LRU.cache c)) eqn:Hhas.
  - split.
    + apply consistent_remove; [assumption | apply mapHas_In; assumption].
    + simpl. apply mapDelete_removes. apply Hc.
  - split; [assumption | apply mapHas_false; assumption].
Qed.

Lemma consistent_evictIfFull (c : Cache) :
  LRU.consistent c -> LRU.consistent (LRU.evictIfFull K_eq_dec c).
Proof.
  intros Hc. unfold LRU.evictIfFull.
  destruct (LRU.currentSize c >=? LRU.maxSize c); [|assumption].
  destruct (LRU.mapFirstKey (LRU.cache c)) as [k|] eqn:Hk; [|assumption].
  apply consistent_remove; [assumption|].
  unfold LRU.keys. destruct (LRU.cache c) as [|[k' e] m]; simpl in *.
  - discriminate.
  - left. congruence.
Qed.

Lemma evictIfFull_keys_incl (x : K) (c : Cache) :
  In x (LRU.keys (LRU.evictIfFull K_eq_dec c)) -> In x (LRU.keys c).
Proof.
  unfold LRU.evictIfFull.
  destruct (LRU.currentSize c >=? LRU.maxSize c); [|auto].
  destruct (LRU.mapFirstKey (LRU.cache c)); [|auto].
  simpl. apply mapDelete_keys_incl.
Qed.

Lemma consistent_set (k : K) (v : V) (now : Z) (c : Cache) :
  LRU.consistent c -> LRU.consistent (set k v now c).
Proof.
  intros Hc. unfold LRU.set.
  destruct (consistent_dropExisting k c Hc) as [Hd Hnin].
  apply consistent_append.
  - apply consistent_evictIfFull. exact Hd.
  - intros Hin. apply Hnin. eapply evictIfFull_keys_incl. exact Hin.
Qed.

Lemma consistent_get (k : K) (now : Z) (c : Cache) :
  LRU.consistent c -> LRU.consistent (snd (get k now c)).
Proof.
  intros Hc. unfold LRU.get.
  destruct (mapGet k (LRU.cache c)) as [e|] eqn:Hg; simpl; [|assumption].
  apply mapGet_Some_has, mapHas_In in Hg.
  pose proof (consistent_remove k c Hc Hg) as Hr.
  pose proof (consistent_append k
                {| LRU.value := LRU.value e; LRU.timestamp := now;
                   LRU.hits := (LRU.hits e + 1)%N |} _ Hr) as Ha.
  simpl in Ha.
  assert (Hnin : ~ In k (mapKeys (mapDelete k (LRU.cache c))))
    by (apply mapDelete_removes, Hc).
  specialize (Ha Hnin). destruct Ha as [Hsz Hnd]. destruct Hr as [Hsz' _].
  simpl in *. split; simpl; [lia | exact Hnd].
Qed.

Lemma consistent_delete (k : K) (c : Cache) :
  LRU.consistent c -> LRU.consistent (snd (delete k c)).
Proof.
  intros Hc. unfold LRU.delete.
  destruct (mapHas k (LRU.cache c)) eqn:Hhas; simpl; [|assumption].
  apply consistent_remove; [assumption | apply mapHas_In; assumption].
Qed.

Lemma consistent_clear (c : Cache) : LRU.consistent (LRU.clear c).
Proof. split; [reflexivity | constructor]. Qed.

Lemma consistent_cleanup_fold (cutoff : Z) (l : list (K * LRU.CacheEntry V))
      (st : Z * Cache) :
  LRU.consistent (snd st) ->
  LRU.consistent (snd (fold_left (LRU.cleanupStep K_eq_dec cutoff) l st)).
Proof.
  revert st. induction l as [|ke l IH]; intros [removed c] Hc; simpl in *.
  - assumption.
  - apply IH. unfold LRU.cleanupStep.
    destruct (LRU.timestamp (snd ke) <? cutoff); simpl; [|assumption].
    apply consistent_delete. assumption.
Qed.

Lemma consistent_cleanup (maxAge now : Z) (c : Cache) :
  LRU.consistent c -> LRU.consistent (snd (cleanup maxAge now c)).
Proof. intros Hc. apply consistent_cleanup_fold. exact Hc. Qed.

Lemma consistent_step (c : Cache) (op : LRU.Op K V) :
  LRU.consistent c -> LRU.consistent (LRU.step K_eq_dec c op).
Proof.
  intros Hc. destruct op; simpl.
  - apply consistent_get; assumption.
  - apply consistent_set; assumption.
  - assumption.
  - apply consistent_delete; assumption.
  - apply consistent_clear.
  - apply consistent_cleanup; assumption.
Qed.

Lemma consistent_run (ops : list (LRU.Op K V)) (c : Cache) :
  LRU.consistent c -> LRU.consistent (run ops c).
Proof.
  revert c. induction ops as [|op ops IH]; intros c Hc; simpl.
  - assumption.
  - apply IH, consistent_step, Hc.
Qed.

(** *** The recency order *)

Lemma set_keys (k : K) (v : V) (now : Z) (c : Cache) :
  LRU.consistent c -> LRU.withinCapacity c -> 1 <= LRU.maxSize c ->
  ~ In k (LRU.keys c) ->
  LRU.keys (set k v now c)
  = (if LRU.currentSize c >=? LRU.maxSize c
     then tl (LRU.keys c) else LRU.keys c) ++ [k].
Proof.
  intros [Hsz Hnd] Hcap Hmax Hnin.
  unfold LRU.set, LRU.dropExisting.
  rewrite (proj2 (mapHas_false k (LRU.cache c)) Hnin).
  unfold LRU.evictIfFull.
  destruct (LRU.currentSize c >=? LRU.maxSize c) eqn:Hfull.
  - unfold LRU.keys in *. destruct (LRU.cache c) as [|[k' e] m] eqn:Hm.
    + simpl in *. lia.
    + simpl. destruct (K_eq_dec k' k') as [_|Hne]; [|congruence].
      rewrite mapSet_absent, mapKeys_app; [reflexivity|].
      simpl in Hnin. tauto.
  - unfold LRU.keys in *. simpl.
    rewrite mapSet_absent, mapKeys_app; [reflexivity | assumption].
Qed.

Lemma set_withinCapacity (k : K) (v : V) (now : Z) (c : Cache) :
  LRU.consistent c -> LRU.withinCapacity c -> 1 <= LRU.maxSize c ->
  LRU.withinCapacity (set k v now c).
Proof.
  intros Hc Hcap Hmax.
  destruct (consistent_dropExisting k c Hc) as [Hd Hnin].
  pose proof (consistent_evictIfFull _ Hd) as He.
  assert (Hdcap : Z.of_nat (List.length
                    (LRU.cache (LRU.dropExisting K_eq_dec k c)))
                  <= LRU.maxSize c
                  /\ LRU.maxSize (LRU.dropExisting K_eq_dec k c)
                     = LRU.maxSize c).
  { unfold LRU.dropExisting.
    destruct (mapHas k (LRU.cache c)) eqn:Hhas; simpl.
    - apply mapHas_In in Hhas.
      pose proof (mapDelete_length k _ Hhas). unfold LRU.withinCapacity in Hcap.
      split; [lia | reflexivity].
    - split; [exact Hcap | reflexivity]. }
  destruct Hdcap as [Hdlen Hdmax].
  assert (Hnin' : ~ In k (LRU.keys (LRU.evictIfFull K_eq_dec
                                      (LRU.dropExisting K_eq_dec k c))))
    by (intros Hin; apply Hnin; eapply evictIfFull_keys_incl; exact Hin).
  unfold LRU.withinCapacity, LRU.set. simpl.
  rewrite (mapSet_absent k _ _ Hnin'), length_app. simpl.
  destruct Hd as [Hdsz _]. destruct He as [Hesz _].
  revert Hesz Hnin'. unfold LRU.evictIfFull.
  set (d := LRU.dropExisting K_eq_dec k c) in *.
  destruct (LRU.currentSize d >=? LRU.maxSize d) eqn:Hfull.
  - destruct (LRU.mapFirstKey (LRU.cache d)) as [fk|] eqn:Hfk; simpl.
    + intros Hesz _. lia.
    + intros _ _. destruct (LRU.cache d); simpl in *; [lia | destruct p; discriminate].
  - simpl. intros _ _. lia.
Qed.

Lemma skipn_In (x : K) (n : nat) (l : list K) :
  In x (skipn n l) -> In x l.
Proof.
  revert l. induction n as [|n IH]; intros [|a l]; simpl; auto.
Qed.

Lemma skipn_tl_snoc (x : K) (l : list K) :
  l <> [] -> tl l ++ [x] = skipn 1 (l ++ [x]).
Proof. destruct l; [congruence | reflexivity]. Qed.

(** After the fresh, distinct keys [news] have been set, the store holds
    the last [maxSize] keys of the recency order, oldest first. *)
Lemma setAll_keys (kvs : list (K * V * Z)) (c : Cache) :
  LRU.consistent c -> LRU.withinCapacity c -> 1 <= LRU.maxSize c ->
  NoDup (LRU.keysOf kvs) ->
  (forall k, In k (LRU.keysOf kvs) -> ~ In k (LRU.keys c)) ->
  let all := LRU.keys c ++ LRU.keysOf kvs in
  LRU.keys (setAll kvs c)
  = skipn (List.length all - Z.to_nat (LRU.maxSize c)) all
  /\ LRU.maxSize (setAll kvs c) = LRU.maxSize c.
Proof.
  revert c. induction kvs as [|[[k v] now] kvs IH]; intros c Hc Hcap Hmax Hnd Hfresh.
  - simpl. rewrite app_nil_r. split; [|reflexivity].
    unfold LRU.withinCapacity, LRU.keys, LRU.mapKeys in *.
    replace (List.length (map fst (LRU.cache c)) - Z.to_nat (LRU.maxSize c))%nat
      with 0%nat by (rewrite length_map; lia).
    reflexivity.
  - simpl in Hnd. inversion Hnd as [|? ? Hk Hnd']; subst.
    assert (Hkc : ~ In k (LRU.keys c)) by (apply Hfresh; left; reflexivity).
    pose proof (set_keys k v now c Hc Hcap Hmax Hkc) as Hkeys.
    pose proof (consistent_set k v now c Hc) as Hc'.
    pose proof (set_withinCapacity k v now c Hc Hcap Hmax) as Hcap'.
    assert (Hmax' : LRU.maxSize (set k v now c) = LRU.maxSize c).
    { unfold LRU.set, LRU.evictIfFull, LRU.dropExisting. simpl.
      destruct (mapHas k (LRU.cache c)); simpl;
        match goal with |- context [?a >=? ?b] => destruct (a >=? b) end;
        try reflexivity;
        match goal with |- context [LRU.mapFirstKey ?m] =>
                          destruct (LRU.mapFirstKey m) end; reflexivity. }
    assert (Hlen : List.length (LRU.keys c) = List.length (LRU.cache c))
      by (unfold LRU.keys, LRU.mapKeys; apply length_map).
    assert (Hkeys' : LRU.keys (set k v now c)
                     = skipn (List.length (LRU.keys c ++ [k])
                              - Z.to_nat (LRU.maxSize c)) (LRU.keys c ++ [k])).
    { rewrite Hkeys, length_app. simpl. destruct Hc as [Hsz _].
      unfold LRU.withinCapacity in Hcap.
      destruct (LRU.currentSize c >=? LRU.maxSize c) eqn:Hfull.
      - replace (List.length (LRU.keys c) + 1 - Z.to_nat (LRU.maxSize c))%nat
          with 1%nat by lia.
        apply skipn_tl_snoc. intros Hnil. rewrite Hnil in Hlen. simpl in Hlen. lia.
      - replace (List.length (LRU.keys c) + 1 - Z.to_nat (LRU.maxSize c))%nat
          with 0%nat by lia.
        reflexivity. }
    assert (Hfresh' : forall k0, In k0 (LRU.keysOf kvs) ->
                                 ~ In k0 (LRU.keys (set k v now c))).
    { intros k0 Hin Hin'. rewrite Hkeys' in Hin'.
      apply skipn_In in Hin'.
      apply in_app_or in Hin'. destruct Hin' as [Hin'|[Heq|[]]].
      - apply (Hfresh k0); [right; exact Hin | exact Hin'].
      - subst. exact (Hk Hin). }
    rewrite <- Hmax' in Hmax.
    destruct (IH (set k v now c) Hc' Hcap' Hmax Hnd' Hfresh') as [IHk IHm].
    simpl. split; [|congruence].
    change (fold_left _ kvs (set k v now c)) with (setAll kvs (set k v now c)).
    rewrite IHk, Hmax', Hkeys'.
    set (m := Z.to_nat (LRU.maxSize c)).
    set (X := LRU.keys c ++ [k]).
    replace (LRU.keys c ++ k :: LRU.keysOf kvs) with (X ++ LRU.keysOf kvs)
      by (unfold X; rewrite <- app_assoc; reflexivity).
    assert (HX : (List.length X <= S m)%nat).
    { unfold X, m. rewrite length_app. simpl.
      unfold LRU.withinCapacity in Hcap. lia. }
    assert (Hsk : skipn (List.length X - m) X ++ LRU.keysOf kvs
                  = skipn (List.length X - m) (X ++ LRU.keysOf kvs)).
    { rewrite skipn_app.
      replace (List.length X - m - List.length X)%nat with 0%nat by lia.
      reflexivity. }
    rewrite Hsk, skipn_skipn. f_equal.
    rewrite length_skipn, !length_app. lia.
Qed.

Lemma get_keys_head (k : K) (now : Z) (l : list K) (c : Cache) :
  NoDup (LRU.keys c) -> LRU.keys c = k :: l ->
  LRU.keys (snd (get k now c)) = l ++ [k].
Proof.
  unfold LRU.get, LRU.keys. intros Hnd Hk.
  destruct (LRU.cache c) as [|[k' e] m]; simpl in *; [discriminate|].
  injection Hk as -> <-.
  destruct (K_eq_dec k k) as [_|Hne]; [|congruence]. simpl.
  inversion Hnd as [|? ? Hnin _]; subst.
  rewrite mapSet_absent, mapKeys_app by exact Hnin. reflexivity.
Qed.

Lemma get_same_size (k : K) (now : Z) (c : Cache) :
  LRU.consistent c ->
  List.length (LRU.cache (snd (get k now c))) = List.length (LRU.cache c)
  /\ LRU.maxSize (snd (get k now c)) = LRU.maxSize c.
Proof.
  intros Hc. pose proof (consistent_get k now c Hc) as [Hsz _].
  destruct Hc as [Hsz0 _]. revert Hsz. unfold LRU.get.
  destruct (mapGet k (LRU.cache c)); simpl; intros Hsz; split;
    try reflexivity; lia.
Qed.

Lemma delete_shrinks (k : K) (c : Cache) :
  (List.length (LRU.cache (snd (delete k c))) <= List.length (LRU.cache c))%nat
  /\ LRU.maxSize (snd (delete k c)) = LRU.maxSize c.
Proof.
  unfold LRU.delete. destruct (mapHas k (LRU.cache c)) eqn:Hhas; simpl.
  - apply mapHas_In in Hhas. pose proof (mapDelete_length k _ Hhas).
    split; [lia | reflexivity].
  - split; [lia | reflexivity].
Qed.

Lemma cleanup_shrinks (cutoff : Z) (l : list (K * LRU.CacheEntry V))
      (st : Z * Cache) :
  let st' := fold_left (LRU.cleanupStep K_eq_dec cutoff) l st in
  (List.length (LRU.cache (snd st')) <= List.length (LRU.cache (snd st)))%nat
  /\ LRU.maxSize (snd st') = LRU.maxSize (snd st).
Proof.
  revert st. induction l as [|ke l IH]; intros [removed c]; simpl.
  - split; [lia | reflexivity].
  - specialize (IH (LRU.cleanupStep K_eq_dec cutoff (removed, c) ke)).
    simpl in IH. destruct IH as [IHl IHm]. rewrite IHm.
    unfold LRU.cleanupStep in *.
    destruct (LRU.timestamp (snd ke) <? cutoff); simpl in *.
    + destruct (delete_shrinks (fst ke) c) as [Hl Hm]. split; [lia | exact Hm].
    + split; [lia | reflexivity].
Qed.

Lemma set_maxSize (k : K) (v : V) (now : Z) (c : Cache) :
  LRU.maxSize (set k v now c) = LRU.maxSize c.
Proof.
  unfold LRU.set, LRU.evictIfFull, LRU.dropExisting. simpl.
  destruct (mapHas k (LRU.cache c)); simpl;
    match goal with |- context [?a >=? ?b] => destruct (a >=? b) end;
    try reflexivity;
    match goal with |- context [LRU.mapFirstKey ?m] =>
                      destruct (LRU.mapFirstKey m) end; reflexivity.
Qed.

(** The states a cache of capacity [cap] can be in. *)
Lemma step_bounded (cap : Z) (c : Cache) (op : LRU.Op K V) :
  1 <= cap ->
  LRU.consistent c /\ LRU.withinCapacity c /\ LRU.maxSize c = cap ->
  LRU.withinCapacity (LRU.step K_eq_dec c op)
  /\ LRU.maxSize (LRU.step K_eq_dec c op) = cap.
Proof.
  intros Hcap (Hc & Hw & Hm). unfold LRU.withinCapacity in *.
  destruct op; cbn [LRU.step].
  - destruct (get_same_size key now c Hc) as [Hl Hm']. rewrite Hl, Hm'. lia.
  - pose proof (set_withinCapacity key v now c Hc Hw ltac:(lia)) as Hs.
    unfold LRU.withinCapacity in Hs. rewrite set_maxSize in *. lia.
  - lia.
  - destruct (delete_shrinks key c) as [Hl Hm']. rewrite Hm'. lia.
  - simpl. lia.
  - destruct (cleanup_shrinks (now - maxAge) (LRU.cache c) (0, c)) as [Hl Hm'].
    unfold LRU.cleanup. cbn [snd] in *. rewrite Hm'. lia.
Qed.

Lemma run_bounded (cap : Z) (ops : list (LRU.Op K V)) (c : Cache) :
  1 <= cap ->
  LRU.consistent c /\ LRU.withinCapacity c /\ LRU.maxSize c = cap ->
  LRU.consistent (run ops c) /\ LRU.withinCapacity (run ops c)
  /\ LRU.maxSize (run ops c) = cap.
Proof.
  intros Hcap. revert c.
  induction ops as [|op ops IH]; intros c Hinv; simpl; [exact Hinv|].
  apply IH. destruct (step_bounded cap c op Hcap Hinv) as [Hw Hm].
  split; [apply consistent_step, Hinv | split; assumption].
Qed.

Lemma new_bounded (cap : Z) :
  0 <= cap ->
  LRU.consistent (new cap) /\ LRU.withinCapacity (new cap)
  /\ LRU.maxSize (new cap) = cap.
Proof.
  intros Hcap. split; [apply consistent_new|].
  split; [unfold LRU.withinCapacity; simpl; lia | reflexivity].
Qed.

Lemma has_In (k : K) (c : Cache) : has k c = true <-> In k (LRU.keys c).
Proof. apply mapHas_In. Qed.

Lemma has_false (k : K) (c : Cache) : has k c = false <-> ~ In k (LRU.keys c).
Proof. apply mapHas_false. Qed.

Lemma keysOf_length (kvs : list (K * V * Z)) :
  List.length (LRU.keysOf kvs) = List.length kvs.
Proof. apply length_map. Qed.

Lemma setAll_run (kvs : list (K * V * Z)) (c : Cache) :
  setAll kvs c = run (map LRU.opSetOf kvs) c.
Proof.
  revert c. induction kvs as [|kvt kvs IH]; intros c; simpl.
  - reflexivity.
  - apply IH.
Qed.

(** Filling an empty cache with distinct keys. *)
Lemma fill_keys (cap : Z) (kvs : list (K * V * Z)) :
  1 <= cap -> NoDup (LRU.keysOf kvs) ->
  let c := setAll kvs (new cap) in
  LRU.keys c
  = skipn (List.length kvs - Z.to_nat cap) (LRU.keysOf kvs)
  /\ LRU.maxSize c = cap /\ LRU.consistent c /\ LRU.withinCapacity c.
Proof.
  intros Hcap Hnd.
  destruct (new_bounded cap ltac:(lia)) as (Hc & Hw & Hm).
  assert (Hfresh : forall k, In k (LRU.keysOf kvs) -> ~ In k (LRU.keys (new cap)))
    by (intros k _ []).
  destruct (setAll_keys kvs (new cap) Hc Hw Hcap Hnd Hfresh) as [Hk Hm'].
  simpl in *. rewrite keysOf_length in Hk.
  split; [exact Hk | split; [exact Hm'|]].
  rewrite setAll_run.
  destruct (run_bounded cap (map LRU.opSetOf kvs) (new cap) Hcap) as (H1 & H2 & _).
  - repeat split; assumption || constructor.
  - split; assumption.
Qed.

(** *** The statistics *)

Lemma totalHits_fold (m : LRU.JSMap K V) (acc : Z) :
  fold_left (fun sum ke => sum + Z.of_N (LRU.hits (snd ke))) m acc
  = acc + LRU.sumHits m.
Proof.
  revert acc. induction m as [|ke m IH]; intros acc; simpl.
  - lia.
  - rewrite IH. lia.
Qed.

Lemma totalHits_sum (c : Cache) : LRU.totalHits c = LRU.sumHits (LRU.cache c).
Proof. unfold LRU.totalHits, LRU.entries. rewrite totalHits_fold. lia. Qed.

Lemma sumHits_nonneg (m : LRU.JSMap K V) : 0 <= LRU.sumHits m.
Proof. induction m as [|ke m IH]; simpl; lia. Qed.

(** *** The claims about the cache *)

(** C10: after every sequence of [get], [set], [has], [delete], [clear]
    and [cleanup] on a freshly constructed cache, the [currentSize] counter
    equals the number of entries of the internal map, so [size()] and
    [getStats().size] report the true number of live entries. *)
Theorem currentSize_counts_entries
        (maxSize : Z) (ops : list (LRU.Op K V)) (now : Z) :
  let c := run ops (new maxSize) in
  LRU.currentSize c = Z.of_nat (List.length (LRU.cache c))
  /\ LRU.size c = Z.of_nat (List.length (LRU.cache c))
  /\ LRU.st_size (LRU.getStats now c) = Z.of_nat (List.length (LRU.cache c)).
Proof.
  intros c.
  destruct (consistent_run ops (new maxSize) (consistent_new maxSize))
    as [Hsz _].
  repeat split; exact Hsz.
Qed.

(** C6: with capacity [cap >= 1], setting [cap + 1] distinct keys in order
    on an empty cache leaves the first key absent and the [cap] later keys
    present; and in every state a cache of that capacity can reach, [set]
    leaves the store within the capacity, evicting the head of the recency
    order (the least recently touched entry) when a new key arrives at
    capacity. *)
Theorem set_evicts_least_recent
        (cap : Z) (kvs : list (K * V * Z)) (ops : list (LRU.Op K V))
        (k : K) (v : V) (now : Z) :
  1 <= cap ->
  NoDup (LRU.keysOf kvs) ->
  Z.of_nat (List.length kvs) = cap + 1 ->
  (let filled := setAll kvs (new cap) in
   (forall first, hd_error (LRU.keysOf kvs) = Some first ->
                  has first filled = false)
   /\ (forall later, In later (tl (LRU.keysOf kvs)) ->
                     has later filled = true))
  /\ (let st := run ops (new cap) in
      let st' := set k v now st in
      LRU.size st' <= LRU.maxSize st'
      /\ Z.of_nat (List.length (LRU.cache st')) <= cap
      /\ (LRU.size st = LRU.maxSize st -> has k st = false ->
          LRU.keys st' = tl (LRU.keys st) ++ [k])).
Proof.
  intros Hcap Hnd Hlen. split.
  - intros filled.
    destruct (fill_keys cap kvs Hcap Hnd) as (Hk & _).
    fold filled in Hk.
    replace (List.length kvs - Z.to_nat cap)%nat with 1%nat in Hk by lia.
    destruct (LRU.keysOf kvs) as [|k1 rest] eqn:Hkeys; simpl in Hk.
    + apply (f_equal (@List.length K)) in Hkeys.
      rewrite keysOf_length in Hkeys. simpl in Hkeys. lia.
    + split.
      * intros first Hfirst. injection Hfirst as <-.
        apply has_false. rewrite Hk. inversion Hnd; assumption.
      * intros later Hin. apply has_In. rewrite Hk. exact Hin.
  - intros st st'.
    destruct (run_bounded cap ops (new cap) Hcap (new_bounded cap ltac:(lia)))
      as (Hc & Hw & Hm).
    fold st in Hc, Hw, Hm.
    assert (Hmst : 1 <= LRU.maxSize st) by lia.
    pose proof (set_withinCapacity k v now st Hc Hw Hmst) as Hw'.
    pose proof (consistent_set k v now st Hc) as [Hsz' _].
    fold st' in Hw', Hsz'. unfold LRU.withinCapacity in Hw'.
    assert (Hm' : LRU.maxSize st' = cap)
      by (unfold st'; rewrite set_maxSize; exact Hm).
    unfold LRU.size. split; [lia | split; [lia|]].
    intros Hfull Hnew. apply has_false in Hnew.
    unfold st'. rewrite (set_keys k v now st Hc Hw Hmst Hnew).
    unfold LRU.size in Hfull. rewrite Hfull.
    replace (LRU.maxSize st >=? LRU.maxSize st) with true
      by (symmetry; apply Z.geb_le; lia).
    reflexivity.
Qed.

(** C3 (as amended): a cache of capacity [cap] is filled with [cap]
    distinct keys, the oldest key [k1] is read with [get], and then [n]
    new distinct keys are set, with [1 <= n <= cap - 1].  Afterwards [k1]
    is still present, and the key [k2] that was second-oldest is absent. *)
Theorem promoted_key_outlives_second_oldest
        (cap : Z) (kvs news : list (K * V * Z)) (k1 k2 : K) (rest : list K)
        (now : Z) :
  LRU.keysOf kvs = k1 :: k2 :: rest ->
  NoDup (LRU.keysOf kvs) ->
  Z.of_nat (List.length kvs) = cap ->
  NoDup (LRU.keysOf news) ->
  (forall k, In k (LRU.keysOf news) -> ~ In k (LRU.keysOf kvs)) ->
  (1 <= List.length news)%nat ->
  Z.of_nat (List.length news) <= cap - 1 ->
  let st := setAll news (snd (get k1 now (setAll kvs (new cap)))) in
  has k1 st = true /\ has k2 st = false.
Proof.
  intros Hkeys Hnd Hlen Hndn Hdisj Hn1 Hn2 st.
  assert (Hcap : 1 <= cap) by lia.
  destruct (fill_keys cap kvs Hcap Hnd) as (Hk & Hm & Hc & Hw).
  replace (List.length kvs - Z.to_nat cap)%nat with 0%nat in Hk by lia.
  simpl in Hk. rewrite Hkeys in Hk.
  set (filled := setAll kvs (new cap)) in *.
  pose proof (get_keys_head k1 now (k2 :: rest) filled (proj2 Hc) Hk) as Hg.
  pose proof (consistent_get k1 now filled Hc) as Hcg.
  destruct (get_same_size k1 now filled Hc) as [Hgl Hgm].
  set (got := snd (get k1 now filled)) in *.
  assert (Hwg : LRU.withinCapacity got).
  { unfold LRU.withinCapacity in *. rewrite Hgl, Hgm. exact Hw. }
  assert (Hmg : 1 <= LRU.maxSize got) by lia.
  assert (Hfresh : forall k, In k (LRU.keysOf news) -> ~ In k (LRU.keys got)).
  { intros k Hin Hin'. apply (Hdisj k Hin). rewrite Hkeys. rewrite Hg in Hin'.
    apply in_app_or in Hin'. simpl in *. tauto. }
  destruct (setAll_keys news got Hcg Hwg Hmg Hndn Hfresh) as [Hst _].
  fold st in Hst. cbv zeta in Hst. rewrite Hg, Hgm, Hm in Hst.
  assert (Hrest : Z.of_nat (List.length (k2 :: rest)) = cap - 1).
  { apply (f_equal (@List.length K)) in Hkeys.
    rewrite keysOf_length in Hkeys. cbn [List.length] in *. lia. }
  replace (List.length (((k2 :: rest) ++ [k1]) ++ LRU.keysOf news)
           - Z.to_nat cap)%nat
    with (List.length news) in Hst
    by (rewrite !length_app, keysOf_length; cbn [List.length] in *; lia).
  rewrite <- app_assoc, skipn_app in Hst.
  replace (List.length news - List.length (k2 :: rest))%nat with 0%nat in Hst
    by lia.
  simpl skipn in Hst at 2.
  rewrite Hkeys in Hnd. apply NoDup_cons_iff in Hnd. destruct Hnd as [Hk1 Hnd2].
  apply NoDup_cons_iff in Hnd2. destruct Hnd2 as [Hk2 _].
  split.
  - apply has_In. rewrite Hst. apply in_or_app. right. left. reflexivity.
  - apply has_false. rewrite Hst. intros Hin.
    apply in_app_or in Hin. destruct Hin as [Hin|[Heq|Hin]].
    + destruct (List.length news) as [|n]; [lia|]. simpl in Hin.
      apply skipn_In in Hin. exact (Hk2 Hin).
    + subst. apply Hk1. left. reflexivity.
    + apply (Hdisj k2 Hin). rewrite Hkeys. right. left. reflexivity.
Qed.

(** C8: in every state within its capacity, [getStats()] reports
    [hitRate = totalHits / (totalHits + (maxSize - live entries))], where
    [totalHits] is the sum of the per-entry hit counters, and reports 0
    when that denominator is 0. *)
Theorem hitRate_formula (now : Z) (c : Cache) :
  LRU.withinCapacity c ->
  let totalHits := LRU.sumHits (LRU.cache c) in
  let denominator :=
    totalHits + (LRU.maxSize c - Z.of_nat (List.length (LRU.cache c))) in
  LRU.st_hitRate (LRU.getStats now c)
  = if denominator =? 0 then 0%Q
    else (inject_Z totalHits / inject_Z denominator)%Q.
Proof.
  intros Hw totalHits denominator. unfold LRU.withinCapacity in Hw.
  unfold LRU.getStats, LRU.totalAccess. simpl.
  rewrite totalHits_sum. fold totalHits. fold denominator.
  pose proof (sumHits_nonneg (LRU.cache c)) as Hnn. fold totalHits in Hnn.
  destruct (denominator =? 0) eqn:Hz.
  - apply Z.eqb_eq in Hz. rewrite Hz. reflexivity.
  - apply Z.eqb_neq in Hz.
    replace (denominator >? 0) with true; [reflexivity|].
    symmetry. apply Z.gtb_lt. unfold denominator in *. lia.
Qed.

End LRUFacts.

(** *** The cache claims on the cache of the tests *)

Lemma NoDup_abc : NoDup ["key1"; "key2"; "key3"]%string.
Proof. repeat constructor; simpl; intuition discriminate. Qed.

Lemma NoDup_abcd : NoDup ["key1"; "key2"; "key3"; "key4"]%string.
Proof. repeat constructor; simpl; intuition discriminate. Qed.

Lemma set_evicts_least_recent_witness :
  let kvs := [("key1", 1, 10); ("key2", 2, 20); ("key3", 3, 30);
              ("key4", 4, 40)]%string in
  let filled := LRU.setAll string_dec kvs (LRU.new 3) in
  let st := LRU.run string_dec
              [LRU.OpSet "key1" 1 10; LRU.OpSet "key2" 2 20;
               LRU.OpSet "key3" 3 30]%string (LRU.new 3) in
  LRU.has string_dec "key1"%string filled = false
  /\ LRU.has string_dec "key4"%string filled = true
  /\ LRU.keys (LRU.set string_dec "key4"%string 4 40 st)
     = ["key2"; "key3"; "key4"]%string.
Proof.
  intros kvs filled st.
  destruct (set_evicts_least_recent string_dec 3 kvs
              [LRU.OpSet "key1" 1 10; LRU.OpSet "key2" 2 20;
               LRU.OpSet "key3" 3 30]%string "key4"%string 4 40)
    as [[Hfirst Hlater] (_ & _ & Hevict)].
  - lia.
  - exact NoDup_abcd.
  - reflexivity.
  - split; [apply Hfirst; reflexivity|].
    split; [apply Hlater; simpl; tauto|].
    apply Hevict; reflexivity.
Defined.

Lemma promoted_key_outlives_second_oldest_witness :
  let kvs := [("key1", 1, 10); ("key2", 2, 20); ("key3", 3, 30)]%string in
  let news := [("key4", 4, 50); ("key5", 5, 60)]%string in
  let st := LRU.setAll string_dec news
              (snd (LRU.get string_dec "key1"%string 40
                            (LRU.setAll string_dec kvs (LRU.new 3)))) in
  LRU.has string_dec "key1"%string st = true
  /\ LRU.has string_dec "key2"%string st = false.
Proof.
  intros kvs news.
  apply (promoted_key_outlives_second_oldest string_dec 3 kvs news
           "key1"%string "key2"%string ["key3"%string] 40).
  - reflexivity.
  - exact NoDup_abc.
  - reflexivity.
  - repeat constructor; simpl; intuition discriminate.
  - intros k [<-|[<-|[]]] [H|[H|[H|[]]]]; discriminate.
  - simpl. lia.
  - simpl. lia.
Defined.

(** C3 as the specification states it fails: after [get] of the oldest
    key, setting [capacity] new keys evicts that key too. *)
Lemma promoted_key_evicted_after_capacity_sets :
  let kvs := [("key1", 1, 10); ("key2", 2, 20); ("key3", 3, 30)]%string in
  let news := [("key4", 4, 50); ("key5", 5, 60); ("key6", 6, 70)]%string in
  let st := LRU.setAll string_dec news
              (snd (LRU.get string_dec "key1"%string 40
                            (LRU.setAll string_dec kvs (LRU.new 3)))) in
  Z.of_nat (List.length news) = LRU.maxSize st
  /\ LRU.has string_dec "key1"%string st = false.
Proof. split; reflexivity. Qed.

Lemma hitRate_formula_witness :
  let c := snd (LRU.get string_dec "key1"%string 30
                        (LRU.setAll string_dec
                           [("key1", 1, 10); ("key2", 2, 20)]%string
                           (LRU.new 3))) in
  LRU.st_hitRate (LRU.getStats 40 c) = (1 # 2)%Q.
Proof.
  intros c.
  exact (hitRate_formula (K := string) (V := Z) 40 c
           ltac:(unfold LRU.withinCapacity; simpl; lia)).
Defined.

(* ================================================================== *)
(** * Properties of the formatter *)

Module FormatterFacts.
Import ContextFormatter.

(** *** Budget selection *)

Lemma sumTokens_snoc (l : list ContextSection) (s : ContextSection) :
  sumTokens (l ++ [s]) = sumTokens l + tokens s.
Proof. induction l as [|a l IH]; simpl; lia. Qed.

Lemma selectLoop_budget (maxTokens : Z) (l : list ContextSection)
      (st : Selection) :
  let r := selectLoop maxTokens l st in
  (sumTokens (sel_included st) = sel_usedTokens st ->
   sumTokens (sel_included r) = sel_usedTokens r)
  /\ (sel_usedTokens st <= maxTokens -> sel_usedTokens r <= maxTokens).
Proof.
  revert st. induction l as [|s l IH]; intros st; simpl.
  - tauto.
  - destruct (sel_usedTokens st + tokens s >? maxTokens) eqn:Hgt.
    + exact (IH {| sel_usedTokens := sel_usedTokens st;
                   sel_included := sel_included st;
                   sel_excluded := sel_excluded st ++ [s] |}).
    + specialize (IH {| sel_usedTokens := sel_usedTokens st + tokens s;
                        sel_included := sel_included st ++ [s];
                        sel_excluded := sel_excluded st |}).
      simpl in IH. destruct IH as [IHsum IHmax].
      assert (Hle : sel_usedTokens st + tokens s <= maxTokens).
      { destruct (Z.gtb_spec (sel_usedTokens st + tokens s) maxTokens);
          [discriminate | lia]. }
      split.
      * intros Hsum. apply IHsum. rewrite sumTokens_snoc. lia.
      * intros _. apply IHmax. exact Hle.
Qed.

(** The loop does not stop at a section that does not fit. *)
Lemma selectLoop_step (maxTokens : Z) (s : ContextSection)
      (rest : list ContextSection) (st : Selection) :
  selectLoop maxTokens (s :: rest) st
  = if sel_usedTokens st + tokens s <=? maxTokens
    then selectLoop maxTokens rest
           {| sel_usedTokens := sel_usedTokens st + tokens s;
              sel_included := sel_included st ++ [s];
              sel_excluded := sel_excluded st |}
    else selectLoop maxTokens rest
           {| sel_usedTokens := sel_usedTokens st;
              sel_included := sel_included st;
              sel_excluded := sel_excluded st ++ [s] |}.
Proof.
  simpl.
  destruct (Z.gtb_spec (sel_usedTokens st + tokens s) maxTokens);
    destruct (Z.leb_spec (sel_usedTokens st + tokens s) maxTokens);
    try reflexivity; lia.
Qed.

(** C1: for every list of sections and every configuration whose
    [maxTokens] is not negative, the [tokens] of the returned [sections]
    sum to the returned [usedTokens], which does not exceed [maxTokens];
    a section is accepted exactly when [usedTokens + tokens <= maxTokens],
    and otherwise it is excluded and the loop goes on. *)
Theorem format_respects_budget
        (localeCompare : string -> string -> Z)
        (input : list ContextSection) (options : FormatOptions) :
  0 <= maxTokens options ->
  let out := format localeCompare input options in
  sumTokens (sections out) = usedTokens out
  /\ usedTokens out <= maxTokens options
  /\ (forall s rest st,
        selectLoop (maxTokens options) (s :: rest) st
        = if sel_usedTokens st + tokens s <=? maxTokens options
          then selectLoop (maxTokens options) rest
                 {| sel_usedTokens := sel_usedTokens st + tokens s;
                    sel_included := sel_included st ++ [s];
                    sel_excluded := sel_excluded st |}
          else selectLoop (maxTokens options) rest
                 {| sel_usedTokens := sel_usedTokens st;
                    sel_included := sel_included st;
                    sel_excluded := sel_excluded st ++ [s] |}).
Proof.
  intros Hmax out. unfold out, format. simpl. unfold select.
  match goal with
  | |- context [selectLoop ?m ?l ?st] =>
      destruct (selectLoop_budget m l st) as [Hsum Hle]
  end.
  simpl in Hsum, Hle.
  split; [apply Hsum; reflexivity|].
  split; [apply Hle; exact Hmax|].
  intros s rest st. apply selectLoop_step.
Qed.

(** *** Strings *)

Lemma isWhiteSpace_lowerChar (c : ascii) :
  JS.isWhiteSpace (JS.lowerChar c) = JS.isWhiteSpace c.
Proof.
  destruct c as [b0 b1 b2 b3 b4 b5 b6 b7].
  destruct b0, b1, b2, b3, b4, b5, b6, b7; reflexivity.
Qed.

Lemma isEmpty_toLowerCase (s : string) :
  JS.isEmpty (JS.toLowerCase s) = JS.isEmpty s.
Proof. destruct s; reflexivity. Qed.

Lemma isEmpty_true (s : string) : JS.isEmpty s = true <-> s = EmptyString.
Proof. destruct s; simpl; split; congruence. Qed.

Lemma trimStart_toLowerCase (s : string) :
  JS.trimStart (JS.toLowerCase s) = JS.toLowerCase (JS.trimStart s).
Proof.
  induction s as [|c s IH]; simpl; [reflexivity|].
  rewrite isWhiteSpace_lowerChar.
  destruct (JS.isWhiteSpace c); [exact IH | reflexivity].
Qed.

Lemma trimEnd_toLowerCase (s : string) :
  JS.trimEnd (JS.toLowerCase s) = JS.toLowerCase (JS.trimEnd s).
Proof.
  induction s as [|c s IH]; simpl; [reflexivity|].
  rewrite isWhiteSpace_lowerChar, IH, isEmpty_toLowerCase.
  destruct (JS.isWhiteSpace c && JS.isEmpty (JS.trimEnd s))%bool; reflexivity.
Qed.

(** Lower-casing and trimming commute. *)
Lemma trim_toLowerCase (s : string) :
  JS.trim (JS.toLowerCase s) = JS.toLowerCase (JS.trim s).
Proof.
  unfold JS.trim. rewrite trimStart_toLowerCase. apply trimEnd_toLowerCase.
Qed.

Lemma toLowerCase_empty (s : string) :
  JS.toLowerCase s = EmptyString <-> s = EmptyString.
Proof. destruct s; simpl; split; congruence. Qed.

Lemma trimEnd_snoc (s : string) (c : ascii) :
  JS.isWhiteSpace c = false ->
  JS.trimEnd (s ++ String c EmptyString)%string
  = (s ++ String c EmptyString)%string.
Proof.
  intros Hc. induction s as [|a s IH]; simpl.
  - rewrite Hc. reflexivity.
  - rewrite IH.
    replace (JS.isEmpty (s ++ String c EmptyString)%string) with false
      by (destruct s; reflexivity).
    rewrite andb_false_r. reflexivity.
Qed.

Lemma string_app_assoc (a b c : string) :
  ((a ++ b) ++ c = a ++ (b ++ c))%string.
Proof. induction a as [|x a IH]; simpl; [reflexivity | rewrite IH; reflexivity]. Qed.

(** *** The empty input *)

Lemma summaryLine_trim (maxTokens : Z) :
  JS.trim (summaryLine 0 maxTokens)
  = ("Total: 0/" ++ JS.numToString maxTokens ++ " tokens")%string.
Proof.
  unfold summaryLine, JS.trim.
  change (JS.numToString 0) with "0"%string.
  change (JS.trimStart
            (LF ++ "Total: " ++ "0" ++ "/" ++ JS.numToString maxTokens
                ++ " tokens")%string)
    with ("Total: 0/" ++ JS.numToString maxTokens ++ " tokens")%string.
  replace ("Total: 0/" ++ JS.numToString maxTokens ++ " tokens")%string
    with (("Total: 0/" ++ JS.numToString maxTokens ++ " token")
            ++ String "s"%char EmptyString)%string.
  - apply trimEnd_snoc. reflexivity.
  - rewrite !string_app_assoc. reflexivity.
Qed.

(** C5 (as amended): formatting an empty list of sections yields, in every
    configuration, [usedTokens = 0], no sections and, when metadata is
    requested, the counts [totalItems = includedItems = excludedItems = 0];
    [formatted] is the empty string when [includeTokens] is off, and the
    summary line ["Total: 0/<maxTokens> tokens"] when it is on. *)
Theorem format_empty_input
        (localeCompare : string -> string -> Z) (options : FormatOptions) :
  let out := format localeCompare [] options in
  formatted out
  = (if includeTokens options
     then ("Total: 0/" ++ JS.numToString (maxTokens options) ++ " tokens")%string
     else EmptyString)
  /\ usedTokens out = 0
  /\ sections out = []
  /\ metadata out
     = (if includeMetadata options
        then Some {| totalItems := 0; includedItems := 0; excludedItems := 0;
                     sources := [] |}
        else None).
Proof.
  intros out. unfold out, format. simpl.
  repeat split.
  destruct (includeTokens options).
  - apply summaryLine_trim.
  - reflexivity.
Qed.

(** C5 as the specification states it fails: with [includeTokens] on, the
    empty input is rendered as the summary line, not as the empty string. *)
Lemma format_empty_input_with_token_summary :
  formatted (format codeUnitCompare []
               {| maxTokens := 100; includeTokens := true;
                  includeMetadata := false; separator := None |})
  <> EmptyString.
Proof. discriminate. Qed.

(** *** The order of the output *)

Section Ordering.
Variable localeCompare : string -> string -> Z.

(** The collation is a total preorder: of two identifiers one sorts no
    later than the other, and sorting no later is transitive. *)
Hypothesis localeCompare_total :
  forall a b, 0 < localeCompare a b -> localeCompare b a <= 0.
Hypothesis localeCompare_trans :
  forall a b c,
    localeCompare a b <= 0 -> localeCompare b c <= 0 -> localeCompare a c <= 0.

Local Abbreviation cmp := (compareSections localeCompare).
Local Abbreviation before := (precedes localeCompare).

Lemma compare_precedes (x y : ContextSection) : cmp x y <= 0 <-> before x y.
Proof.
  unfold compareSections, precedes.
  destruct (Z.eqb_spec (priority y) (priority x)) as [Heq|Hne]; simpl; lia.
Qed.

Lemma precedes_total (x y : ContextSection) : 0 < cmp x y -> before y x.
Proof.
  unfold compareSections, precedes.
  destruct (Z.eqb_spec (priority y) (priority x)) as [Heq|Hne]; simpl.
  - intros H. right. split; [exact Heq | apply localeCompare_total, H].
  - lia.
Qed.

Lemma precedes_trans (x y z : ContextSection) :
  before x y -> before y z -> before x z.
Proof.
  unfold precedes. intros [Hxy|[Hxy Lxy]] [Hyz|[Hyz Lyz]]; try lia.
  right. split; [lia|]. eapply localeCompare_trans; eassumption.
Qed.

Lemma insertSorted_In (x y : ContextSection) (l : list ContextSection) :
  In y (insertSorted cmp x l) -> y = x \/ In y l.
Proof.
  induction l as [|a l IH]; simpl.
  - intros [H|[]]. left. congruence.
  - destruct (cmp x a <=? 0); simpl.
    + intros [H|H]; [left; congruence | right; exact H].
    + intros [H|H]; [right; left; exact H|].
      destruct (IH H); [left; assumption | right; right; assumption].
Qed.

Lemma insertSorted_sorted (x : ContextSection) (l : list ContextSection) :
  StronglySorted before l -> StronglySorted before (insertSorted cmp x l).
Proof.
  induction l as [|a l IH]; simpl; intros Hs.
  - repeat constructor.
  - apply StronglySorted_inv in Hs. destruct Hs as [Hl Ha].
    destruct (Z.leb_spec (cmp x a) 0) as [Hle|Hgt].
    + apply compare_precedes in Hle. constructor.
      * constructor; assumption.
      * constructor; [exact Hle|].
        rewrite Forall_forall in *. intros y Hy.
        eapply precedes_trans; [exact Hle | apply Ha, Hy].
    + constructor; [apply IH, Hl|].
      rewrite Forall_forall in *. intros y Hy.
      apply insertSorted_In in Hy. destruct Hy as [->|Hy].
      * apply precedes_total. exact Hgt.
      * apply Ha, Hy.
Qed.

Lemma sort_sorted (l : list ContextSection) :
  StronglySorted before (sort cmp l).
Proof.
  induction l as [|x l IH]; simpl.
  - constructor.
  - apply insertSorted_sorted, IH.
Qed.

Lemma Subseq_In (x : ContextSection) (l1 l2 : list ContextSection) :
  Subseq l1 l2 -> In x l1 -> In x l2.
Proof.
  induction 1 as [|a l1 l2 _ IH|a l1 l2 _ IH]; simpl; tauto.
Qed.

Lemma Subseq_sorted (l1 l2 : list ContextSection) :
  Subseq l1 l2 -> StronglySorted before l2 -> StronglySorted before l1.
Proof.
  induction 1 as [|a l1 l2 Hsub IH|a l1 l2 Hsub IH]; intros Hs.
  - constructor.
  - apply StronglySorted_inv in Hs. apply IH, Hs.
  - apply StronglySorted_inv in Hs. destruct Hs as [Hl Ha].
    constructor; [apply IH, Hl|].
    rewrite Forall_forall in *. intros y Hy.
    apply Ha. eapply Subseq_In; eassumption.
Qed.

Lemma Subseq_nil_l (l : list ContextSection) : Subseq [] l.
Proof. induction l; constructor; assumption. Qed.

Lemma deduplicateLoop_Subseq (l : list ContextSection) :
  forall seen acc,
  exists kept, deduplicateLoop l seen acc = acc ++ kept /\ Subseq kept l.
Proof.
  induction l as [|s l IH]; intros seen acc; simpl.
  - exists []. rewrite app_nil_r. split; [reflexivity | constructor].
  - destruct (setHas _ seen).
    + destruct (IH seen acc) as (kept & Heq & Hsub).
      exists kept. split; [exact Heq | constructor; exact Hsub].
    + destruct (existsb _ acc).
      * destruct (IH seen acc) as (kept & Heq & Hsub).
        exists kept. split; [exact Heq | constructor; exact Hsub].
      * destruct (IH (setAdd (JS.trim (JS.toLowerCase (content s))) seen)
                     (acc ++ [s])) as (kept & Heq & Hsub).
        exists (s :: kept). rewrite Heq, <- app_assoc.
        split; [reflexivity | constructor; exact Hsub].
Qed.

Lemma selectLoop_Subseq (maxTokens : Z) (l : list ContextSection) :
  forall st,
  exists kept,
    sel_included (selectLoop maxTokens l st) = sel_included st ++ kept
    /\ Subseq kept l.
Proof.
  induction l as [|s l IH]; intros st; simpl.
  - exists []. rewrite app_nil_r. split; [reflexivity | constructor].
  - destruct (sel_usedTokens st + tokens s >? maxTokens).
    + destruct (IH {| sel_usedTokens := sel_usedTokens st;
                      sel_included := sel_included st;
                      sel_excluded := sel_excluded st ++ [s] |})
        as (kept & Heq & Hsub).
      exists kept. split; [exact Heq | constructor; exact Hsub].
    + destruct (IH {| sel_usedTokens := sel_usedTokens st + tokens s;
                      sel_included := sel_included st ++ [s];
                      sel_excluded := sel_excluded st |})
        as (kept & Heq & Hsub).
      exists (s :: kept). rewrite Heq. simpl. rewrite <- app_assoc.
      split; [reflexivity | constructor; exact Hsub].
Qed.

(** C7: the [sections] of the output are in descending order of
    [priority], and sections of equal priority are in descending order of
    [id] under the collation [localeCompare]: of two sections, the one in
    front has the higher priority, or the same priority and an [id] that
    sorts no earlier. *)
Theorem format_sections_sorted
        (input : list ContextSection) (options : FormatOptions) :
  StronglySorted before (sections (format localeCompare input options)).
Proof.
  unfold format. simpl. unfold select, deduplicate.
  destruct (deduplicateLoop_Subseq (sort cmp input) [] [])
    as (kept & Hd & Hsub).
  rewrite Hd. simpl.
  destruct (selectLoop_Subseq (maxTokens options) kept
              {| sel_usedTokens := 0; sel_included := [];
                 sel_excluded := [] |}) as (kept' & Hs & Hsub').
  rewrite Hs. simpl.
  eapply Subseq_sorted; [exact Hsub'|].
  eapply Subseq_sorted; [exact Hsub|].
  apply sort_sorted.
Qed.

End Ordering.

(** *** The code-unit collation is a total preorder *)

Lemma ascii_compare_refl (x : ascii) : Ascii.compare x x = Eq.
Proof. unfold Ascii.compare. apply N.compare_refl. Qed.

Lemma ascii_compare_lt_trans (x y z : ascii) :
  Ascii.compare x y = Lt -> Ascii.compare y z = Lt -> Ascii.compare x z = Lt.
Proof.
  unfold Ascii.compare. rewrite !N.compare_lt_iff. apply N.lt_trans.
Qed.

Lemma string_compare_trans (a b c : string) :
  String.compare a b <> Gt -> String.compare b c <> Gt ->
  String.compare a c <> Gt.
Proof.
  revert b c. induction a as [|x a IH]; intros [|y b] [|z c]; simpl;
    try congruence.
  destruct (Ascii.compare x y) eqn:Hxy; [| |congruence].
  - apply Ascii.compare_eq_iff in Hxy. subst y.
    destruct (Ascii.compare x z) eqn:Hxz; [apply IH | congruence | congruence].
  - destruct (Ascii.compare y z) eqn:Hyz; [| |congruence].
    + apply Ascii.compare_eq_iff in Hyz. subst z. rewrite Hxy. congruence.
    + rewrite (ascii_compare_lt_trans x y z Hxy Hyz). congruence.
Qed.

Lemma codeUnitCompare_le (a b : string) :
  codeUnitCompare a b <= 0 <-> String.compare a b <> Gt.
Proof.
  unfold codeUnitCompare.
  destruct (String.compare a b); split; intros; congruence || lia.
Qed.

Lemma codeUnitCompare_total (a b : string) :
  0 < codeUnitCompare a b -> codeUnitCompare b a <= 0.
Proof.
  unfold codeUnitCompare. rewrite (String.compare_antisym a b).
  destruct (String.compare b a); simpl; lia.
Qed.

Lemma codeUnitCompare_trans (a b c : string) :
  codeUnitCompare a b <= 0 -> codeUnitCompare b c <= 0 ->
  codeUnitCompare a c <= 0.
Proof. rewrite !codeUnitCompare_le. apply string_compare_trans. Qed.

Lemma format_sections_sorted_witness :
  let input :=
    [ {| id := "3"; content := "Low priority"; priority := 3;
         tokens := 10; source := "low" |};
      {| id := "1"; content := "High priority"; priority := 1;
         tokens := 10; source := "high" |};
      {| id := "2"; content := "Medium priority"; priority := 2;
         tokens := 10; source := "medium" |} ]%string in
  let options := {| maxTokens := 100; includeTokens := false;
                    includeMetadata := false; separator := None |} in
  StronglySorted (precedes codeUnitCompare)
                 (sections (format codeUnitCompare input options)).
Proof.
  intros input options.
  exact (format_sections_sorted codeUnitCompare codeUnitCompare_total
           codeUnitCompare_trans input options).
Defined.

Lemma format_respects_budget_witness :
  let input :=
    [ {| id := "1"; content := "First memory"; priority := 1;
         tokens := 10; source := "profile" |};
      {| id := "2"; content := "Second memory"; priority := 2;
         tokens := 10; source := "search" |};
      {| id := "3"; content := "Third memory"; priority := 3;
         tokens := 15; source := "recent" |} ]%string in
  let options := {| maxTokens := 30; includeTokens := true;
                    includeMetadata := true; separator := None |} in
  let out := format codeUnitCompare input options in
  sumTokens (sections out) = usedTokens out /\ usedTokens out <= 30.
Proof.
  intros input options out.
  destruct (format_respects_budget codeUnitCompare input options)
    as (Hsum & Hle & _).
  - simpl. lia.
  - split; [exact Hsum | exact Hle].
Defined.

(** *** Similarity *)

(** C4 (as amended): when the two strings are equal after trimming and
    case folding (both being empty included), [calculateSimilarity]
    returns 1; when exactly one of them is empty after trimming, it
    returns 0. *)
Theorem calculateSimilarity_exact_and_empty (a b : string) :
  (JS.toLowerCase (JS.trim a) = JS.toLowerCase (JS.trim b) ->
   calculateSimilarity a b = 1%Q)
  /\ ((JS.trim a = EmptyString /\ JS.trim b <> EmptyString)
      \/ (JS.trim a <> EmptyString /\ JS.trim b = EmptyString) ->
      calculateSimilarity a b = 0%Q).
Proof.
  unfold calculateSimilarity. rewrite !trim_toLowerCase. split.
  - intros ->. rewrite String.eqb_refl. reflexivity.
  - intros Hone.
    destruct (String.eqb_spec (JS.toLowerCase (JS.trim a))
                              (JS.toLowerCase (JS.trim b))) as [Heq|Hne].
    + exfalso. destruct Hone as [[Ha Hb]|[Ha Hb]].
      * rewrite Ha in Heq. simpl in Heq. symmetry in Heq.
        apply (proj1 (toLowerCase_empty _)) in Heq. contradiction.
      * rewrite Hb in Heq. simpl in Heq.
        apply (proj1 (toLowerCase_empty _)) in Heq. contradiction.
    + destruct Hone as [[Ha _]|[_ Hb]].
      * rewrite Ha. reflexivity.
      * rewrite Hb. simpl. rewrite orb_true_r. reflexivity.
Qed.

Lemma calculateSimilarity_exact_and_empty_witness :
  calculateSimilarity "  Hello World "%string "hello world"%string = 1%Q
  /\ calculateSimilarity ""%string "anything"%string = 0%Q
  /\ calculateSimilarity "anything"%string "  "%string = 0%Q.
Proof.
  split; [|split].
  - apply (proj1 (calculateSimilarity_exact_and_empty
                    "  Hello World "%string "hello world"%string)).
    reflexivity.
  - apply (proj2 (calculateSimilarity_exact_and_empty
                    ""%string "anything"%string)).
    left. split; [reflexivity | discriminate].
  - apply (proj2 (calculateSimilarity_exact_and_empty
                    "anything"%string "  "%string)).
    right. split; [discriminate | reflexivity].
Defined.

(** C4 as the specification states it fails: two strings that are both
    empty after trimming are an exact match, and the result is 1, not 0. *)
Lemma calculateSimilarity_both_empty :
  JS.trim "  "%string = EmptyString
  /\ JS.trim ""%string = EmptyString
  /\ ~ (calculateSimilarity "  "%string ""%string == 0)%Q.
Proof.
  split; [reflexivity | split; [reflexivity|]].
  discriminate.
Qed.

End FormatterFacts.

(* ================================================================== *)
(** * Properties of the backend client *)

Module ClientFacts.
Import Effects SupermemoryClient.

Lemma isTagChar_spec (c : ascii) : isTagChar c = inSpecClass c.
Proof.
  destruct c as [b0 b1 b2 b3 b4 b5 b6 b7].
  destruct b0, b1, b2, b3, b4, b5, b6, b7; reflexivity.
Qed.

Lemma sanitize_strips (tag : string) :
  sanitizeContainerTag tag = stripOutsideClass tag.
Proof.
  unfold stripOutsideClass.
  induction tag as [|c tag IH]; simpl; [reflexivity|].
  rewrite isTagChar_spec, IH.
  destruct (inSpecClass c); reflexivity.
Qed.

Lemma sanitize_in_class (tag : string) :
  Forall (fun c => inSpecClass c = true)
         (list_ascii_of_string (sanitizeContainerTag tag)).
Proof.
  induction tag as [|c tag IH]; simpl; [constructor|].
  destruct (isTagChar c) eqn:Hc; [|exact IH].
  simpl. constructor; [rewrite <- isTagChar_spec; exact Hc | exact IH].
Qed.

Lemma map_sanitize_strips (tags : list string) :
  map sanitizeContainerTag tags = map stripOutsideClass tags.
Proof. apply map_ext. intros t. apply sanitize_strips. Qed.

(** What a guarded backend call leaves in the transmission record. *)
Lemma guarded_call_transmits {A : Type} (w : World)
      (debugText errText failText : string) (req : Request) (r : Result A) :
  transmitted
    (snd (tryCatch
            (bind (log Debug debugText None)
                  (fun _ => bind (transmit req)
                                 (fun _ => bind (await r) (fun x => ret x))))
            (rethrow errText failText) w))
  = transmitted w ++ [req].
Proof.
  unfold tryCatch, bind, log, transmit, await, ret, rethrow, throw. simpl.
  destruct r; reflexivity.
Qed.

(** C9: every backend operation transmits, as container tag, the
    identifier it was given with every character outside [[A-Za-z0-9_-]]
    removed, and nothing else; the transmitted tag contains characters of
    that class only. *)
Theorem container_tags_sanitized
        (env : Env) (w : World) (tag : string) (tags : list string)
        (q : option string) (content query : string) (md : option Json)
        (threshold : option Q) (limit : option Z) :
  sanitizeContainerTag tag = stripOutsideClass tag
  /\ Forall (fun c => inSpecClass c = true)
            (list_ascii_of_string (sanitizeContainerTag tag))
  /\ transmitted (snd (getProfile env tag q threshold w))
     = transmitted w ++ [ReqProfile (stripOutsideClass tag) q]
  /\ transmitted (snd (addMemory env content tag md w))
     = transmitted w ++ [ReqAdd content (stripOutsideClass tag) md]
  /\ transmitted (snd (searchMemories env query tag threshold limit w))
     = transmitted w
       ++ [ReqSearchMemories query (stripOutsideClass tag) threshold
                             (limitOr5 limit)]
  /\ transmitted (snd (searchDocuments env query tags limit w))
     = transmitted w
       ++ [ReqSearchDocuments query (map stripOutsideClass tags)
                              (limitOr5 limit)].
Proof.
  split; [apply sanitize_strips|].
  split; [apply sanitize_in_class|].
  rewrite <- sanitize_strips, <- map_sanitize_strips.
  unfold getProfile, addMemory, searchMemories, searchDocuments.
  repeat split; apply guarded_call_transmits.
Qed.

End ClientFacts.

(* ================================================================== *)
(** * Properties of the context assembly *)

Module ContextFacts.
Import Effects VapiMemory.

Section Assembly.
Variable env : Env.
Variable options : Options.

Lemma addProfileSearch_keeps (request : GetContextRequest)
      (p : SupermemoryProfile) (l : Locals) :
  recentMemories (context (addProfileSearch request p l))
  = recentMemories (context l)
  /\ (~ In "profile"%string (srcs l) ->
      ~ In "profile"%string (srcs (addProfileSearch request p l))).
Proof.
  unfold addProfileSearch.
  destruct (Effects.searchResults p); [|tauto].
  destruct (JS.notFalse (includeSearch request)); [|tauto].
  simpl. split; [reflexivity|].
  intros Hnin Hin. apply in_app_or in Hin.
  destruct Hin as [Hin|[Heq|[]]]; [tauto | discriminate].
Qed.

(** The cache step returns, leaves [recentMemories] alone and never
    records the source ["profile"]. *)
Lemma checkCache_returns (request : GetContextRequest) (l : Locals)
      (w : World) :
  exists l' w',
    checkCache env options request l w = (Return l', w')
    /\ recentMemories (context l') = recentMemories (context l)
    /\ (~ In "profile"%string (srcs l) -> ~ In "profile"%string (srcs l')).
Proof.
  unfold checkCache.
  destruct (cacheEnabled options); [|exists l, w; tauto].
  unfold bind, cacheGet.
  destruct (LRU.has string_dec _ (profileCache w)); [|exists l, w; tauto].
  destruct (LRU.get string_dec _ _ (profileCache w)) as [[cached|] c];
    simpl; [|eexists; eexists; split; [reflexivity | tauto]].
  eexists. eexists. split; [reflexivity|].
  destruct (addProfileSearch_keeps request cached
              (pushSource "cache" (setProfile cached l))) as [Hr Hs].
  split; [rewrite Hr; reflexivity|].
  intros Hnin. apply Hs. simpl. intros Hin. apply in_app_or in Hin.
  destruct Hin as [Hin|[Heq|[]]]; [tauto | discriminate].
Qed.

(** When the backend profile call throws, the profile step returns with
    its locals unchanged. *)
Lemma fetchProfile_swallows (request : GetContextRequest) (l : Locals)
      (w : World) (e : Exn) :
  be_profile (backend env)
             (SupermemoryClient.sanitizeContainerTag (userId request))
             (query request) = Throw e ->
  exists w', fetchProfile env options request l w = (Return l, w').
Proof.
  intros Hthrow. unfold fetchProfile.
  destruct (profile (context l)); [exists w; reflexivity|].
  destruct (JS.notFalse (includeProfile request)); [|exists w; reflexivity].
  unfold tryCatch, bind, SupermemoryClient.getProfile,
    SupermemoryClient.rethrow, log, transmit, await, throw, ret.
  simpl. rewrite Hthrow. simpl. eexists. reflexivity.
Qed.

(** When the search answers, the recent-memory step records its result. *)
Lemma fetchRecent_records (request : GetContextRequest) (l : Locals)
      (w : World) (found : SearchResults) :
  JS.notFalse (includeRecent request) = true ->
  JS.truthyStr (callId request) = true ->
  be_searchMemories (backend env) "recent conversation"
                    (SupermemoryClient.sanitizeContainerTag (userId request))
                    (Some (searchThreshold options)) 3 = Return found ->
  exists w',
    fetchRecent env options request l w
    = (Return (pushSource "recent-memories"
                 (setRecent (memoriesOf (results found)) l)), w').
Proof.
  intros Hrecent Hcall Hfound. unfold fetchRecent.
  rewrite Hrecent, Hcall. simpl.
  unfold tryCatch, bind, SupermemoryClient.searchMemories,
    SupermemoryClient.rethrow, log, transmit, await, throw, ret.
  simpl. rewrite Hfound. eexists. reflexivity.
Qed.

(** C2: for a request with [includeRecent] enabled and a [callId], if the
    backend profile call throws and the recent-memories search answers,
    [getContext] returns a record (no exception escapes) whose
    [recentMemories] are the memories of the search results and whose
    [sources] do not contain ["profile"]. *)
Theorem getContext_survives_profile_failure
        (request : GetContextRequest) (w : World) (e : Exn)
        (found : SearchResults) :
  JS.notFalse (includeRecent request) = true ->
  JS.truthyStr (callId request) = true ->
  be_profile (backend env)
             (SupermemoryClient.sanitizeContainerTag (userId request))
             (query request) = Throw e ->
  be_searchMemories (backend env) "recent conversation"
                    (SupermemoryClient.sanitizeContainerTag (userId request))
                    (Some (searchThreshold options)) 3 = Return found ->
  exists ctx w',
    getContext env options request w = (Return ctx, w')
    /\ recentMemories ctx = memoriesOf (results found)
    /\ ~ In "profile"%string (sources (metadata ctx)).
Proof.
  intros Hrecent Hcall Hthrow Hfound.
  unfold getContext, bind at 1, dateNow at 1. unfold tryCatch.
  set (w0 := {| profileCache := profileCache w; logged := logged w;
                transmitted := transmitted w; ticks := S (ticks w) |}).
  set (l0 := {| context := _; srcs := [] |}).
  destruct (checkCache_returns request l0 w0) as (l1 & w1 & Hc & _ & Hs1).
  destruct (fetchProfile_swallows request l1 w1 e Hthrow) as (w2 & Hp).
  destruct (fetchRecent_records request l1 w2 found Hrecent Hcall Hfound)
    as (w3 & Hr).
  unfold bind. rewrite Hc, Hp, Hr. simpl.
  eexists. eexists. split; [reflexivity|].
  simpl. split; [reflexivity|].
  intros Hin. apply in_app_or in Hin.
  destruct Hin as [Hin|[Heq|[]]]; [|discriminate].
  apply Hs1; [|exact Hin]. simpl. tauto.
Qed.

End Assembly.

End ContextFacts.

(* ================================================================== *)
(** * The scenarios of the test suite *)

Module Scenarios.
Import Effects Fixtures.

Lemma getContext_survives_profile_failure_witness :
  exists ctx w',
    VapiMemory.getContext testEnv testOptions testRequest freshWorld
    = (Return ctx, w')
    /\ VapiMemory.recentMemories ctx
       = ["Asked about pricing"; "Prefers email"]%string
    /\ ~ In "profile"%string
            (VapiMemory.sources (VapiMemory.metadata ctx)).
Proof.
  apply (ContextFacts.getContext_survives_profile_failure
           testEnv testOptions testRequest freshWorld (ErrorObj "API Error")
           {| results :=
                [ {| memory := Some "Asked about pricing";
                     score := (9 # 10)%Q; resultMetadata := None |};
                  {| memory := None;
                     score := (8 # 10)%Q; resultMetadata := None |};
                  {| memory := Some "Prefers email";
                     score := (7 # 10)%Q; resultMetadata := None |} ]%string;
              total := 3; timing := 12 |});
    reflexivity.
Defined.

(** The degraded context of that scenario, computed. *)
Example degraded_context_sources :
  match fst (VapiMemory.getContext testEnv testOptions testRequest freshWorld)
  with
  | Return ctx =>
      VapiMemory.sources (VapiMemory.metadata ctx)
      = ["recent-memories"]%string
      /\ VapiMemory.profile ctx = None
  | Throw _ => False
  end.
Proof. simpl. split; reflexivity. Qed.

(** The tag of a phone-number-shaped user loses its leading [+]. *)
Example phone_tag_transmitted :
  transmitted
    (snd (VapiMemory.getContext testEnv testOptions testRequest freshWorld))
  = [ReqProfile "15551234567" None;
     ReqSearchMemories "recent conversation" "15551234567"
                       (Some (5 # 10)%Q) 3]%string.
Proof. reflexivity. Qed.

Example estimate_hello : TokenCounter.estimate "Hello" = 2.
Proof. reflexivity. Qed.

Example estimate_empty : TokenCounter.estimate "" = 0.
Proof. reflexivity. Qed.

Example similarity_partial :
  ContextFormatter.calculateSimilarity "hello world" "hello there"
  = (1 # 3)%Q.
Proof. reflexivity. Qed.

Example format_budget_30 :
  let out :=
    ContextFormatter.format ContextFormatter.codeUnitCompare
      [ ContextFormatter.mkSection "1" "First memory" 1 10 "profile";
        ContextFormatter.mkSection "2" "Second memory" 2 10 "search";
        ContextFormatter.mkSection "3" "Third memory" 3 15 "recent" ]%string
      {| ContextFormatter.maxTokens := 30;
         ContextFormatter.includeTokens := true;
         ContextFormatter.includeMetadata := true;
         ContextFormatter.separator := None |} in
  map ContextFormatter.id (ContextFormatter.sections out) = ["3"; "2"]%string
  /\ ContextFormatter.usedTokens out = 25.
Proof. split; reflexivity. Qed.

Example format_metadata_sources :
  let out :=
    ContextFormatter.format ContextFormatter.codeUnitCompare
      [ ContextFormatter.mkSection "1" "First" 1 10 "source1";
        ContextFormatter.mkSection "2" "Second" 2 10 "source2";
        ContextFormatter.mkSection "3" "Third" 3 10 "source1" ]%string
      {| ContextFormatter.maxTokens := 100;
         ContextFormatter.includeTokens := false;
         ContextFormatter.includeMetadata := true;
         ContextFormatter.separator := None |} in
  ContextFormatter.metadata out
  = Some {| ContextFormatter.totalItems := 3;
            ContextFormatter.includedItems := 3;
            ContextFormatter.excludedItems := 0;
            ContextFormatter.sources := ["source1"; "source2"]%string |}.
Proof. reflexivity. Qed.

Example promote_then_one_set :
  let c := LRU.set string_dec "key4"%string 4 50
             (snd (LRU.get string_dec "key1"%string 40
                     (LRU.setAll string_dec
                        [("key1", 1, 10); ("key2", 2, 20); ("key3", 3, 30)]%string
                        (LRU.new 3)))) in
  LRU.keys c = ["key3"; "key1"; "key4"]%string.
Proof. reflexivity. Qed.

End Scenarios.

(* ================================================================== *)
(** * Further properties of the recency cache *)

Section LRUOperations.
Context {K V : Type}.
Variable K_eq_dec : forall x y : K, {x = y} + {x <> y}.

Local Abbreviation Cache := (LRU.LRUCache K V).
Local Abbreviation mapKeys := (@LRU.mapKeys K V).
Local Abbreviation new := (@LRU.new K V).
Local Abbreviation mapHas := (LRU.mapHas K_eq_dec).
Local Abbreviation mapGet := (LRU.mapGet K_eq_dec).
Local Abbreviation mapDelete := (LRU.mapDelete K_eq_dec).
Local Abbreviation mapSet := (LRU.mapSet K_eq_dec).
Local Abbreviation get := (LRU.get K_eq_dec).
Local Abbreviation set := (LRU.set K_eq_dec).
Local Abbreviation has := (LRU.has K_eq_dec).
Local Abbreviation delete := (LRU.delete K_eq_dec).
Local Abbreviation cleanup := (LRU.cleanup K_eq_dec).
Local Abbreviation run := (LRU.run K_eq_dec).

(** The key test the map uses, as a boolean. *)
Local Abbreviation differs k := (fun x : K => if K_eq_dec k x then false else true).

Lemma reachable_consistent (maxSize : Z) (ops : list (LRU.Op K V)) :
  LRU.consistent (run ops (new maxSize)).
Proof. apply consistent_run, consistent_new. Qed.

Lemma mapGet_snoc (k : K) (e : LRU.CacheEntry V) (m : LRU.JSMap K V) :
  ~ In k (mapKeys m) -> mapGet k (m ++ [(k, e)]) = Some e.
Proof.
  induction m as [|[k' e'] m IH]; simpl; intros Hnin.
  - destruct (K_eq_dec k k); congruence.
  - destruct (K_eq_dec k k') as [->|Hne]; [tauto|]. apply IH. tauto.
Qed.

Lemma mapGet_snoc_other (k k' : K) (e : LRU.CacheEntry V) (m : LRU.JSMap K V) :
  k' <> k -> mapGet k' (m ++ [(k, e)]) = mapGet k' m.
Proof.
  intros Hne. induction m as [|[k0 e0] m IH]; simpl.
  - destruct (K_eq_dec k' k); congruence.
  - destruct (K_eq_dec k' k0); [reflexivity | exact IH].
Qed.

Lemma mapGet_delete_other (k k' : K) (m : LRU.JSMap K V) :
  k' <> k -> mapGet k' (mapDelete k m) = mapGet k' m.
Proof.
  intros Hne. induction m as [|[k0 e0] m IH]; simpl; [reflexivity|].
  destruct (K_eq_dec k k0) as [->|Hk]; simpl.
  - destruct (K_eq_dec k' k0); congruence.
  - destruct (K_eq_dec k' k0); [reflexivity | exact IH].
Qed.

Lemma filter_differs_absent (k : K) (l : list K) :
  ~ In k l -> filter (differs k) l = l.
Proof.
  intros Hnin. induction l as [|x l IH]; simpl; [reflexivity|].
  destruct (K_eq_dec k x) as [->|Hne]; [simpl in Hnin; tauto|].
  f_equal. apply IH. simpl in Hnin. tauto.
Qed.

Lemma mapDelete_keys (k : K) (m : LRU.JSMap K V) :
  NoDup (mapKeys m) ->
  mapKeys (mapDelete k m) = filter (differs k) (mapKeys m).
Proof.
  induction m as [|[k' e] m IH]; simpl; intros Hnd; [reflexivity|].
  apply NoDup_cons_iff in Hnd. destruct Hnd as [Hnin Hnd].
  destruct (K_eq_dec k k') as [->|Hne]; simpl.
  - symmetry. apply filter_differs_absent. exact Hnin.
  - f_equal. apply IH, Hnd.
Qed.

(** The state [set] builds on: the old entry and, at capacity, the head
    of the order are gone. *)
Lemma set_shape (k : K) (v : V) (now : Z) (c : Cache) :
  LRU.consistent c ->
  let c2 := LRU.evictIfFull K_eq_dec (LRU.dropExisting K_eq_dec k c) in
  LRU.cache (set k v now c)
  = LRU.cache c2 ++ [(k, {| LRU.value := v; LRU.timestamp := now;
                            LRU.hits := 0 |})]
  /\ ~ In k (LRU.keys c2).
Proof.
  intros Hc c2.
  destruct (consistent_dropExisting K_eq_dec k c Hc) as [_ Hnin].
  assert (Hnin2 : ~ In k (LRU.keys c2)).
  { intros Hin. apply Hnin. eapply evictIfFull_keys_incl. exact Hin. }
  split; [|exact Hnin2].
  unfold LRU.set. simpl. apply mapSet_absent. exact Hnin2.
Qed.

(** X1: a value that was [set] is what the next [get] of its key returns,
    in every state a cache can reach and for every capacity. *)
Theorem set_then_get
        (maxSize : Z) (ops : list (LRU.Op K V)) (k : K) (v : V) (t0 t1 : Z) :
  let c := set k v t0 (run ops (new maxSize)) in
  has k c = true
  /\ fst (get k t1 c) = Some v
  /\ has k (snd (get k t1 c)) = true.
Proof.
  intros c.
  destruct (set_shape k v t0 _ (reachable_consistent maxSize ops))
    as [Hcache Hnin].
  fold c in Hcache.
  assert (Hget : mapGet k (LRU.cache c)
                 = Some {| LRU.value := v; LRU.timestamp := t0;
                           LRU.hits := 0 |}).
  { rewrite Hcache. apply mapGet_snoc. exact Hnin. }
  split; [unfold LRU.has, LRU.mapHas; rewrite Hget; reflexivity|].
  unfold LRU.get. rewrite Hget. simpl. split; [reflexivity|].
  unfold LRU.has. apply (proj2 (mapHas_In K_eq_dec _ _)).
  assert (Hc : LRU.consistent c)
    by (apply consistent_set, reachable_consistent).
  simpl. rewrite mapSet_absent, mapKeys_app.
  - apply in_or_app. right. left. reflexivity.
  - apply mapDelete_removes. apply Hc.
Qed.

Lemma get_present (k : K) (now : Z) (e : LRU.CacheEntry V) (c : Cache) :
  LRU.consistent c -> mapGet k (LRU.cache c) = Some e ->
  get k now c
  = (Some (LRU.value e),
     {| LRU.cache := mapDelete k (LRU.cache c)
                     ++ [(k, {| LRU.value := LRU.value e;
                                LRU.timestamp := now;
                                LRU.hits := (LRU.hits e + 1)%N |})];
        LRU.maxSize := LRU.maxSize c;
        LRU.currentSize := LRU.currentSize c |}).
Proof.
  intros Hc Hg. unfold LRU.get. rewrite Hg.
  rewrite mapSet_absent; [reflexivity|].
  apply mapDelete_removes. apply Hc.
Qed.

(** X2: [get] of a key that is absent returns nothing and leaves the
    cache as it is; [get] of a key that is present returns its value,
    moves the key to the most recent end of the order, adds one to its hit
    counter, and leaves every other entry and the size untouched. *)
Theorem get_promotes
        (maxSize : Z) (ops : list (LRU.Op K V)) (k : K) (now : Z) :
  let c := run ops (new maxSize) in
  (has k c = false -> get k now c = (None, c))
  /\ (forall e, mapGet k (LRU.cache c) = Some e ->
       let c' := snd (get k now c) in
       fst (get k now c) = Some (LRU.value e)
       /\ LRU.keys c' = filter (differs k) (LRU.keys c) ++ [k]
       /\ mapGet k (LRU.cache c')
          = Some {| LRU.value := LRU.value e; LRU.timestamp := now;
                    LRU.hits := (LRU.hits e + 1)%N |}
       /\ (forall k', k' <> k ->
                      mapGet k' (LRU.cache c') = mapGet k' (LRU.cache c))
       /\ LRU.size c' = LRU.size c).
Proof.
  intros c. pose proof (reachable_consistent maxSize ops) as Hc. fold c in Hc.
  split.
  - unfold LRU.has, LRU.mapHas, LRU.get.
    destruct (mapGet k (LRU.cache c)); [discriminate | reflexivity].
  - intros e Hg c'. unfold c'. rewrite (get_present k now e c Hc Hg). simpl.
    assert (Hnin : ~ In k (mapKeys (mapDelete k (LRU.cache c))))
      by (apply mapDelete_removes, Hc).
    split; [reflexivity|].
    split.
    { unfold LRU.keys. simpl. rewrite mapKeys_app. simpl.
      rewrite mapDelete_keys by apply Hc. reflexivity. }
    split; [apply mapGet_snoc; exact Hnin|].
    split; [|reflexivity].
    intros k' Hne. rewrite mapGet_snoc_other by exact Hne.
    apply mapGet_delete_other. exact Hne.
Qed.

(** X3: [delete] answers whether the key was present; afterwards the key
    is absent, every other key is present exactly if it was before, and
    the size has gone down by one exactly if the key was present. *)
Theorem delete_removes_only_its_key
        (maxSize : Z) (ops : list (LRU.Op K V)) (k : K) :
  let c := run ops (new maxSize) in
  let c' := snd (delete k c) in
  fst (delete k c) = has k c
  /\ has k c' = false
  /\ (forall k', k' <> k -> has k' c' = has k' c)
  /\ LRU.size c' = LRU.size c - (if has k c then 1 else 0).
Proof.
  intros c c'. pose proof (reachable_consistent maxSize ops) as Hc. fold c in Hc.
  unfold c', LRU.delete, LRU.has.
  destruct (mapHas k (LRU.cache c)) eqn:Hhas; simpl.
  - split; [reflexivity|]. split.
    + apply (proj2 (mapHas_false K_eq_dec _ _)).
      apply mapDelete_removes. apply Hc.
    + split; [|unfold LRU.size; simpl; lia].
      intros k' Hne. unfold LRU.mapHas.
      rewrite mapGet_delete_other by exact Hne. reflexivity.
  - split; [reflexivity|]. split; [exact Hhas|].
    split; [reflexivity | unfold LRU.size; lia].
Qed.

(** *** The expiry sweep *)

Lemma mapDelete_middle (k : K) (e : LRU.CacheEntry V)
      (m1 m2 : LRU.JSMap K V) :
  ~ In k (mapKeys m1) -> mapDelete k (m1 ++ (k, e) :: m2) = m1 ++ m2.
Proof.
  induction m1 as [|[k' e'] m1 IH]; simpl; intros Hnin.
  - destruct (K_eq_dec k k); congruence.
  - destruct (K_eq_dec k k') as [->|Hne]; [tauto|].
    f_equal. apply IH. tauto.
Qed.

Lemma mapHas_middle (k : K) (e : LRU.CacheEntry V) (m1 m2 : LRU.JSMap K V) :
  mapHas k (m1 ++ (k, e) :: m2) = true.
Proof.
  apply (proj2 (mapHas_In K_eq_dec _ _)).
  rewrite mapKeys_app. apply in_or_app. right. left. reflexivity.
Qed.

Lemma cleanup_fold_filter (cutoff : Z) (l kept : LRU.JSMap K V)
      (removed : Z) (c : Cache) :
  LRU.cache c = kept ++ l -> NoDup (mapKeys (kept ++ l)) ->
  let expired := fun ke : K * LRU.CacheEntry V =>
                   LRU.timestamp (snd ke) <? cutoff in
  fold_left (LRU.cleanupStep K_eq_dec cutoff) l (removed, c)
  = (removed + Z.of_nat (List.length (filter expired l)),
     {| LRU.cache := kept ++ filter (fun ke => negb (expired ke)) l;
        LRU.maxSize := LRU.maxSize c;
        LRU.currentSize :=
          LRU.currentSize c - Z.of_nat (List.length (filter expired l)) |}).
Proof.
  intros Hcache Hnd expired. subst expired. cbv beta.
  revert kept removed c Hcache Hnd.
  induction l as [|[k e] l IH]; intros kept removed c Hcache Hnd.
  - simpl. destruct c as [m ms sz]. simpl in *. subst m.
    f_equal; [lia|]. f_equal. lia.
  - cbn [fold_left filter snd].
    change (LRU.cleanupStep K_eq_dec cutoff (removed, c) (k, e))
      with (if LRU.timestamp e <? cutoff
            then (removed + 1, snd (delete k c)) else (removed, c)).
    destruct (LRU.timestamp e <? cutoff) eqn:Hexp; cbn [negb List.length].
    + assert (Hnin : ~ In k (mapKeys kept)).
      { rewrite mapKeys_app in Hnd. apply NoDup_remove_2 in Hnd.
        intros Hin. apply Hnd. apply in_or_app. left. exact Hin. }
      unfold LRU.delete. rewrite Hcache, mapHas_middle. cbn [snd].
      rewrite (mapDelete_middle k e kept l Hnin).
      rewrite (IH kept); cbn [LRU.cache LRU.maxSize LRU.currentSize].
      * f_equal; [lia|]. f_equal. lia.
      * reflexivity.
      * rewrite mapKeys_app in *. simpl in Hnd.
        apply NoDup_remove_1 in Hnd. exact Hnd.
    + rewrite (IH (kept ++ [(k, e)])).
      * rewrite <- app_assoc. reflexivity.
      * rewrite Hcache, <- app_assoc. reflexivity.
      * rewrite <- app_assoc. exact Hnd.
Qed.

Lemma filter_expired_fresh (cutoff : Z) (l : LRU.JSMap K V) :
  filter (fun ke => LRU.timestamp (snd ke) <? cutoff)
         (filter (fun ke => negb (LRU.timestamp (snd ke) <? cutoff)) l) = [].
Proof.
  induction l as [|ke l IH]; simpl; [reflexivity|].
  destruct (LRU.timestamp (snd ke) <? cutoff) eqn:H; simpl;
    [|rewrite H]; exact IH.
Qed.

Lemma cleanup_eq (maxAge now : Z) (c : Cache) :
  LRU.consistent c ->
  cleanup maxAge now c
  = (Z.of_nat (List.length
                 (filter (fun ke => LRU.timestamp (snd ke) <? now - maxAge)
                         (LRU.cache c))),
     {| LRU.cache :=
          filter (fun ke => negb (LRU.timestamp (snd ke) <? now - maxAge))
                 (LRU.cache c);
        LRU.maxSize := LRU.maxSize c;
        LRU.currentSize :=
          LRU.currentSize c
          - Z.of_nat (List.length
                        (filter (fun ke =>
                                   LRU.timestamp (snd ke) <? now - maxAge)
                                (LRU.cache c))) |}).
Proof.
  intros Hc. unfold LRU.cleanup.
  exact (cleanup_fold_filter (now - maxAge) (LRU.cache c) [] 0 c
           eq_refl (proj2 Hc)).
Qed.

(** X4: [cleanup(maxAge)] removes exactly the entries whose time stamp is
    older than [now - maxAge], keeps the others in their order, returns
    the number removed and lowers the size by it; a second sweep at the
    same time removes nothing. *)
Theorem cleanup_removes_expired
        (maxSize : Z) (ops : list (LRU.Op K V)) (maxAge now : Z) :
  let c := run ops (new maxSize) in
  let expired := fun ke : K * LRU.CacheEntry V =>
                   LRU.timestamp (snd ke) <? now - maxAge in
  let r := cleanup maxAge now c in
  LRU.cache (snd r) = filter (fun ke => negb (expired ke)) (LRU.cache c)
  /\ fst r = Z.of_nat (List.length (filter expired (LRU.cache c)))
  /\ LRU.size (snd r) = LRU.size c - fst r
  /\ fst (cleanup maxAge now (snd r)) = 0.
Proof.
  intros c expired r.
  pose proof (reachable_consistent maxSize ops) as Hc. fold c in Hc.
  pose proof (consistent_cleanup K_eq_dec maxAge now c Hc) as Hc'.
  fold r in Hc'.
  rewrite (cleanup_eq maxAge now (snd r) Hc').
  unfold r. rewrite (cleanup_eq maxAge now c Hc).
  cbn [fst snd LRU.cache]. unfold LRU.size. cbn [LRU.currentSize].
  repeat split.
  rewrite filter_expired_fresh. reflexivity.
Qed.

(** *** Updates and hit counters *)

(** X5: in a cache of capacity at least 1, [set] evicts nothing when the
    key is already present or the cache is not full: the key becomes the
    most recent one, every other key stays in its place in the order, and
    the size is unchanged for an update and one more for a new key. *)
Theorem set_without_eviction
        (cap : Z) (ops : list (LRU.Op K V)) (k : K) (v : V) (now : Z) :
  1 <= cap ->
  let c := run ops (new cap) in
  has k c = true \/ LRU.size c < LRU.maxSize c ->
  LRU.keys (set k v now c) = filter (differs k) (LRU.keys c) ++ [k]
  /\ LRU.size (set k v now c)
     = LRU.size c + (if has k c then 0 else 1).
Proof.
  intros Hcap c Hroom.
  destruct (run_bounded K_eq_dec cap ops (new cap) Hcap
              (new_bounded cap ltac:(lia))) as (Hc & Hw & Hm).
  fold c in Hc, Hw, Hm. unfold LRU.withinCapacity in Hw.
  destruct Hc as [Hsz Hnd].
  unfold LRU.size, LRU.has in *. unfold LRU.set, LRU.dropExisting.
  destruct (mapHas k (LRU.cache c)) eqn:Hhas.
  - apply (proj1 (mapHas_In K_eq_dec _ _)) in Hhas.
    pose proof (mapDelete_length K_eq_dec k _ Hhas) as Hlen.
    unfold LRU.evictIfFull. cbn [LRU.currentSize LRU.maxSize LRU.cache].
    replace (LRU.currentSize c - 1 >=? LRU.maxSize c) with false
      by (rewrite Z.geb_leb; symmetry; apply Z.leb_gt; lia).
    cbn [LRU.currentSize LRU.cache]. unfold LRU.keys. cbn [LRU.cache].
    rewrite mapSet_absent by (apply mapDelete_removes; exact Hnd).
    rewrite mapKeys_app, mapDelete_keys by exact Hnd.
    split; [reflexivity | lia].
  - destruct Hroom as [Habs|Hroom]; [discriminate|].
    apply (proj1 (mapHas_false K_eq_dec _ _)) in Hhas.
    unfold LRU.evictIfFull.
    replace (LRU.currentSize c >=? LRU.maxSize c) with false
      by (rewrite Z.geb_leb; symmetry; apply Z.leb_gt; lia).
    unfold LRU.keys. cbn [LRU.currentSize LRU.cache].
    rewrite mapSet_absent by exact Hhas.
    rewrite mapKeys_app, filter_differs_absent by exact Hhas.
    split; [reflexivity | lia].
Qed.

Lemma get_run_hits (k : K) (ts : list Z) :
  forall (c : Cache) (e : LRU.CacheEntry V),
    LRU.consistent c -> mapGet k (LRU.cache c) = Some e ->
    exists e',
      mapGet k (LRU.cache (run (map (LRU.OpGet k) ts) c)) = Some e'
      /\ LRU.value e' = LRU.value e
      /\ LRU.hits e' = (LRU.hits e + N.of_nat (List.length ts))%N.
Proof.
  induction ts as [|t ts IH]; intros c e Hc Hg; simpl.
  - exists e. repeat split; [exact Hg | lia].
  - pose proof (consistent_get K_eq_dec k t c Hc) as Hc'.
    assert (Hg' : mapGet k (LRU.cache (snd (get k t c)))
                  = Some {| LRU.value := LRU.value e; LRU.timestamp := t;
                            LRU.hits := (LRU.hits e + 1)%N |}).
    { rewrite (get_present k t e c Hc Hg). simpl.
      apply mapGet_snoc, mapDelete_removes, Hc. }
    destruct (IH _ _ Hc' Hg') as (e' & He' & Hv & Hh).
    exists e'. simpl in Hv, Hh. repeat split; [exact He' | exact Hv | lia].
Qed.

(** X6: the hit counter of an entry counts the [get]s of its key since the
    key was last [set]: after [set] and then [n] successful [get]s of the
    key, the entry holds the value that was set and [hits = n]. *)
Theorem hits_count_gets_since_set
        (maxSize : Z) (ops : list (LRU.Op K V)) (k : K) (v : V) (t0 : Z)
        (ts : list Z) :
  let c := run (map (LRU.OpGet k) ts) (set k v t0 (run ops (new maxSize))) in
  exists e,
    mapGet k (LRU.cache c) = Some e
    /\ LRU.value e = v
    /\ LRU.hits e = N.of_nat (List.length ts).
Proof.
  intros c.
  pose proof (reachable_consistent maxSize ops) as Hc0.
  destruct (set_shape k v t0 _ Hc0) as [Hcache Hnin].
  assert (Hg : mapGet k (LRU.cache (set k v t0 (run ops (new maxSize))))
               = Some {| LRU.value := v; LRU.timestamp := t0;
                         LRU.hits := 0 |}).
  { rewrite Hcache. apply mapGet_snoc. exact Hnin. }
  destruct (get_run_hits k ts _ _ (consistent_set K_eq_dec k v t0 _ Hc0) Hg)
    as (e & He & Hv & Hh).
  exists e. simpl in Hv, Hh. repeat split; [exact He | exact Hv | lia].
Qed.

(** X7: for a cache of capacity at least 1, the reported [hitRate] lies
    between 0 and 1 in every reachable state. *)
Theorem hitRate_between_0_and_1
        (cap : Z) (ops : list (LRU.Op K V)) (now : Z) :
  1 <= cap ->
  let rate := LRU.st_hitRate (LRU.getStats now (run ops (new cap))) in
  (0 <= rate)%Q /\ (rate <= 1)%Q.
Proof.
  intros Hcap rate.
  destruct (run_bounded K_eq_dec cap ops (new cap) Hcap
              (new_bounded cap ltac:(lia))) as (_ & Hw & _).
  unfold LRU.withinCapacity in Hw.
  unfold rate, LRU.getStats, LRU.totalAccess. cbn [LRU.st_hitRate].
  set (c := run ops (new cap)) in *.
  rewrite totalHits_sum.
  pose proof (sumHits_nonneg (LRU.cache c)) as Hnn.
  set (h := LRU.sumHits (LRU.cache c)) in *.
  set (d := h + (LRU.maxSize c - Z.of_nat (List.length (LRU.cache c)))).
  assert (Hhd : h <= d) by (unfold d; lia).
  destruct (Z.gtb_spec d 0) as [Hpos|Hle].
  - destruct d as [|p|p]; try lia.
    unfold Qle, Qdiv, Qmult, Qinv, inject_Z. simpl. split; lia.
  - unfold Qle. simpl. split; lia.
Qed.

End LRUOperations.

Lemma get_promotes_witness :
  let c := LRU.run string_dec
             [LRU.OpSet "key1" 1 10; LRU.OpSet "key2" 2 20]%string
             (LRU.new 3) in
  LRU.get string_dec "missing"%string 30 c = (None, c)
  /\ LRU.keys (snd (LRU.get string_dec "key1"%string 30 c))
     = ["key2"; "key1"]%string.
Proof.
  intros c.
  destruct (get_promotes string_dec 3
              [LRU.OpSet "key1" 1 10; LRU.OpSet "key2" 2 20]%string
              "missing"%string 30) as [Hmiss _].
  destruct (get_promotes string_dec 3
              [LRU.OpSet "key1" 1 10; LRU.OpSet "key2" 2 20]%string
              "key1"%string 30) as [_ Hhit].
  split; [apply Hmiss; reflexivity|].
  exact (proj1 (proj2 (Hhit _ eq_refl))).
Defined.

Lemma delete_removes_only_its_key_witness :
  let c := LRU.run string_dec
             [LRU.OpSet "key1" 1 10; LRU.OpSet "key2" 2 20]%string
             (LRU.new 3) in
  LRU.has string_dec "key2"%string (snd (LRU.delete string_dec "key1"%string c))
  = true.
Proof.
  intros c.
  destruct (delete_removes_only_its_key string_dec 3
              [LRU.OpSet "key1" 1 10; LRU.OpSet "key2" 2 20]%string
              "key1"%string) as (_ & _ & Hother & _).
  transitivity (LRU.has string_dec "key2"%string c);
    [apply Hother; discriminate | reflexivity].
Defined.

Lemma set_without_eviction_witness :
  let c := LRU.run string_dec
             [LRU.OpSet "key1" 1 10; LRU.OpSet "key2" 2 20]%string
             (LRU.new 3) in
  LRU.keys (LRU.set string_dec "key1"%string 5 30 c) = ["key2"; "key1"]%string
  /\ LRU.size (LRU.set string_dec "key1"%string 5 30 c) = 2.
Proof.
  intros c.
  apply (set_without_eviction string_dec 3
           [LRU.OpSet "key1" 1 10; LRU.OpSet "key2" 2 20]%string
           "key1"%string 5 30).
  - lia.
  - left. reflexivity.
Defined.

Lemma hitRate_between_0_and_1_witness :
  let rate :=
    LRU.st_hitRate
      (LRU.getStats 40
         (LRU.run string_dec
            [LRU.OpSet "key1" 1 10; LRU.OpSet "key2" 2 20;
             LRU.OpGet "key1" 30; LRU.OpGet "key1" 31]%string
            (LRU.new 3))) in
  (0 <= rate)%Q /\ (rate <= 1)%Q.
Proof.
  apply (hitRate_between_0_and_1 string_dec 3
           [LRU.OpSet "key1" 1 10; LRU.OpSet "key2" 2 20;
            LRU.OpGet "key1" 30; LRU.OpGet "key1" 31]%string 40).
  lia.
Defined.

(* ================================================================== *)
(** * Properties of the token estimate *)

Module TokenFacts.
Import TokenCounter.

Lemma isEmpty_of_rev (cur : list ascii) :
  JS.isEmpty (string_of_list_ascii (rev cur))
  = match cur with [] => true | _ :: _ => false end.
Proof.
  destruct cur as [|c cur]; [reflexivity|]. simpl.
  destruct (rev cur); reflexivity.
Qed.

(** The words of a text are no more than its code units. *)
Lemma splitWsAux_words (s : string) :
  forall cur inRun,
    (List.length (filter (fun w => negb (JS.isEmpty w))
                         (JS.splitWsAux s cur inRun))
     <= String.length s + match cur with [] => 0 | _ :: _ => 1 end)%nat.
Proof.
  induction s as [|c s IH]; intros cur inRun; simpl.
  - rewrite isEmpty_of_rev. destruct cur; simpl; lia.
  - destruct (JS.isWhiteSpace c).
    + destruct inRun.
      * specialize (IH cur true). lia.
      * simpl. rewrite isEmpty_of_rev. specialize (IH [] true).
        destruct cur; simpl in *; lia.
    + specialize (IH (c :: cur) false). simpl in IH. lia.
Qed.

Lemma words_le_length (s : string) :
  (List.length (filter (fun w => negb (JS.isEmpty w)) (JS.splitWs s))
   <= String.length s)%nat.
Proof. pose proof (splitWsAux_words s [] false). simpl in *. unfold JS.splitWs. lia. Qed.

(** X8: the estimate of the empty text is 0; the estimate of any other
    text is at least 1, at least a quarter of its length rounded up, and
    at most its length. *)
Theorem estimate_bounds (text : string) :
  estimate EmptyString = 0
  /\ (estimate text = 0 <-> text = EmptyString)
  /\ ceilDiv (Z.of_nat (String.length text)) 4 <= estimate text
  /\ estimate text <= Z.of_nat (String.length text).
Proof.
  split; [reflexivity|].
  unfold estimate, wordEstimate, ceilDiv, CHARS_PER_TOKEN.
  destruct text as [|c s];
    [split; [split; reflexivity | split; vm_compute; discriminate]|].
  cbn [JS.isEmpty].
  pose proof (words_le_length (String c s)) as Hw.
  set (w := List.length _) in *.
  set (n := String.length (String c s)) in *.
  assert (Hn : (1 <= n)%nat) by (unfold n; simpl; lia).
  assert (H1 : 1 <= (Z.of_nat n + 4 - 1) / 4 < Z.of_nat n + 1).
  { split; [apply Z.div_le_lower_bound | apply Z.div_lt_upper_bound]; lia. }
  assert (H2 : (3 * Z.of_nat w + 4 - 1) / 4 < Z.of_nat w + 1).
  { apply Z.div_lt_upper_bound; lia. }
  split; [split; [lia | discriminate]|].
  split; lia.
Qed.

Lemma estimateMultiple_fold (texts : list string) (acc : Z) :
  fold_left (fun total text => total + estimate text) texts acc
  = acc + fold_right (fun text total => estimate text + total) 0 texts.
Proof.
  revert acc. induction texts as [|t texts IH]; intros acc; simpl.
  - lia.
  - rewrite IH. lia.
Qed.

Lemma estimate_nonneg (text : string) : 0 <= estimate text.
Proof.
  destruct (estimate_bounds text) as (_ & _ & Hlo & _).
  unfold ceilDiv in Hlo.
  assert (0 <= (Z.of_nat (String.length text) + 4 - 1) / 4)
    by (apply Z.div_pos; lia).
  lia.
Qed.

(** X9: [estimateMultiple] is the sum of the estimates of the texts: it
    adds over concatenation, is 0 on the empty list, and is never
    negative. *)
Theorem estimateMultiple_additive (a b : list string) :
  estimateMultiple (a ++ b) = estimateMultiple a + estimateMultiple b
  /\ estimateMultiple a
     = fold_right (fun text total => estimate text + total) 0 a
  /\ estimateMultiple [] = 0
  /\ 0 <= estimateMultiple a.
Proof.
  unfold estimateMultiple.
  split; [|split; [|split]].
  - rewrite fold_left_app, !estimateMultiple_fold. lia.
  - rewrite estimateMultiple_fold. lia.
  - reflexivity.
  - rewrite estimateMultiple_fold.
    induction a as [|t a IH]; simpl; [lia|].
    pose proof (estimate_nonneg t). lia.
Qed.

Lemma estimateMultiple_snoc (l : list string) (t : string) :
  estimateMultiple (l ++ [t]) = estimateMultiple l + estimate t.
Proof.
  destruct (estimateMultiple_additive l [t]) as [H _]. rewrite H.
  unfold estimateMultiple. simpl. lia.
Qed.

Lemma withinBudgetLoop_prefix (texts : list string) (budget : Z) :
  forall (done : list string),
    estimateMultiple done <= budget ->
    exists n,
      (n <= List.length texts)%nat
      /\ withinBudgetLoop texts budget (estimateMultiple done) done
         = (estimateMultiple (done ++ firstn n texts), done ++ firstn n texts)
      /\ estimateMultiple (done ++ firstn n texts) <= budget
      /\ (n = List.length texts
          \/ budget < estimateMultiple (done ++ firstn (S n) texts)).
Proof.
  induction texts as [|t texts IH]; intros done Hdone; simpl.
  - exists 0%nat. rewrite app_nil_r. repeat split; auto.
  - destruct (Z.gtb_spec (estimateMultiple done + estimate t) budget)
      as [Hgt|Hle].
    + exists 0%nat. simpl. rewrite app_nil_r.
      repeat split; [lia | exact Hdone|].
      right. rewrite estimateMultiple_snoc. lia.
    + rewrite <- estimateMultiple_snoc in *.
      destruct (IH (done ++ [t]) Hle) as (n & Hn & Heq & Hfit & Hstop).
      exists (S n). simpl. rewrite <- !app_assoc in *. simpl in *.
      repeat split; [lia | exact Heq | exact Hfit|].
      destruct Hstop as [->|Hstop]; [left; reflexivity | right; exact Hstop].
Qed.

(** X10: for a budget that is not negative, [formatWithinBudget] includes
    a prefix of the texts, joined by the separator; [usedTokens] is the
    estimate of that prefix and does not exceed the budget; and the prefix
    is the longest one that fits: it is all the texts, or the next text
    would exceed the budget.  Texts after the first that does not fit are
    not considered. *)
Theorem formatWithinBudget_longest_prefix
        (texts : list string) (budget : Z) (separator : option string) :
  0 <= budget ->
  let r := formatWithinBudget texts budget separator in
  exists n,
    (n <= List.length texts)%nat
    /\ includedCount r = Z.of_nat n
    /\ formatted r
       = String.concat (match separator with
                        | Some s => s
                        | None => String "010"%char EmptyString
                        end) (firstn n texts)
    /\ usedTokens r = estimateMultiple (firstn n texts)
    /\ usedTokens r <= budget
    /\ (n = List.length texts
        \/ budget < estimateMultiple (firstn (S n) texts)).
Proof.
  intros Hb r.
  destruct (withinBudgetLoop_prefix texts budget [] Hb)
    as (n & Hn & Heq & Hfit & Hstop).
  simpl in Heq, Hfit, Hstop.
  change (estimateMultiple []) with 0 in Heq.
  exists n. unfold r, formatWithinBudget. rewrite Heq. simpl.
  rewrite length_firstn.
  repeat split; try assumption.
  rewrite Nat.min_l by exact Hn. reflexivity.
Qed.

Lemma formatWithinBudget_longest_prefix_witness :
  let r := formatWithinBudget
             ["First item"; "Second item"; "Third item"; "Fourth item"]%string
             7 None in
  exists n,
    (n <= 4)%nat
    /\ includedCount r = Z.of_nat n
    /\ formatted r
       = String.concat (String "010"%char EmptyString)
           (firstn n ["First item"; "Second item"; "Third item";
                      "Fourth item"]%string)
    /\ usedTokens r
       = estimateMultiple
           (firstn n ["First item"; "Second item"; "Third item";
                      "Fourth item"]%string)
    /\ usedTokens r <= 7
    /\ (n = 4%nat
        \/ 7 < estimateMultiple
                 (firstn (S n) ["First item"; "Second item"; "Third item";
                                "Fourth item"]%string)).
Proof.
  apply (formatWithinBudget_longest_prefix
           ["First item"; "Second item"; "Third item"; "Fourth item"]%string
           7 None).
  lia.
Defined.

End TokenFacts.

(* ================================================================== *)
(** * Further properties of the formatter *)

Module FormatterMoreFacts.
Import ContextFormatter.

(** *** String sets *)

Lemma setHas_In (x : string) (s : list string) : setHas x s = true <-> In x s.
Proof.
  unfold setHas. rewrite existsb_exists. split.
  - intros (y & Hy & Heq). apply String.eqb_eq in Heq. subst. exact Hy.
  - intros Hin. exists x. split; [exact Hin | apply String.eqb_refl].
Qed.

Lemma setHas_false (x : string) (s : list string) :
  setHas x s = false <-> ~ In x s.
Proof. rewrite <- setHas_In. destruct (setHas x s); split; congruence. Qed.

Lemma uniqueAux_In (x : string) (xs : list string) :
  forall seen, In x (JS.uniqueAux seen xs) <-> In x xs /\ ~ In x seen.
Proof.
  induction xs as [|y xs IH]; intros seen; simpl; [tauto|].
  fold (setHas y seen). destruct (setHas y seen) eqn:Hy.
  - apply setHas_In in Hy. rewrite IH. split.
    + tauto.
    + intros [[->|Hin] Hnin]; tauto.
  - apply setHas_false in Hy. simpl. rewrite IH. simpl. split.
    + intros [->|[Hin Hnin]]; tauto.
    + intros [[->|Hin] Hnin]; [tauto|].
      destruct (string_dec y x); [left; assumption | right; tauto].
Qed.

Lemma uniqueAux_NoDup (xs : list string) :
  forall seen, NoDup (JS.uniqueAux seen xs).
Proof.
  induction xs as [|y xs IH]; intros seen; simpl; [constructor|].
  fold (setHas y seen). destruct (setHas y seen); [apply IH|].
  constructor; [|apply IH].
  rewrite uniqueAux_In. simpl. tauto.
Qed.

Lemma setOf_In (x : string) (xs : list string) : In x (setOf xs) <-> In x xs.
Proof. unfold setOf, JS.unique. rewrite uniqueAux_In. simpl. tauto. Qed.

Lemma setOf_NoDup (xs : list string) : NoDup (setOf xs).
Proof. apply uniqueAux_NoDup. Qed.

Lemma setOf_length_ext (xs ys : list string) :
  (forall x, In x xs <-> In x ys) ->
  List.length (setOf xs) = List.length (setOf ys).
Proof.
  intros Hext. apply Permutation_length.
  apply NoDup_Permutation; try apply setOf_NoDup.
  intros x. rewrite !setOf_In. apply Hext.
Qed.

(** *** Similarity *)

Lemma ratio_between_0_and_1 (i u : nat) :
  (i <= u)%nat ->
  (0 <= inject_Z (Z.of_nat i) / inject_Z (Z.of_nat u))%Q
  /\ (inject_Z (Z.of_nat i) / inject_Z (Z.of_nat u) <= 1)%Q.
Proof.
  intros Hiu.
  assert (Hz : 0 <= Z.of_nat i <= Z.of_nat u) by lia.
  destruct (Z.of_nat u) as [|p|p]; try lia;
    unfold Qle, Qdiv, Qmult, Qinv, inject_Z; simpl; split; lia.
Qed.

(** X11: [calculateSimilarity] is symmetric in its two arguments, and its
    value lies between 0 and 1. *)
Theorem calculateSimilarity_symmetric_bounded (a b : string) :
  calculateSimilarity a b = calculateSimilarity b a
  /\ (0 <= calculateSimilarity a b)%Q
  /\ (calculateSimilarity a b <= 1)%Q.
Proof.
  unfold calculateSimilarity.
  set (s1 := JS.trim (JS.toLowerCase a)).
  set (s2 := JS.trim (JS.toLowerCase b)).
  set (w1 := setOf (JS.splitWs s1)).
  set (w2 := setOf (JS.splitWs s2)).
  rewrite (String.eqb_sym s2 s1).
  rewrite (orb_comm (Nat.eqb (String.length s2) 0)).
  assert (Hi : List.length (setOf (filter (fun x => setHas x w2) w1))
               = List.length (setOf (filter (fun x => setHas x w1) w2))).
  { apply setOf_length_ext. intros x.
    rewrite !filter_In, !setHas_In. tauto. }
  assert (Hu : List.length (setOf (w1 ++ w2))
               = List.length (setOf (w2 ++ w1))).
  { apply setOf_length_ext. intros x. rewrite !in_app_iff. tauto. }
  assert (Hle : (List.length (setOf (filter (fun x => setHas x w2) w1))
                 <= List.length (setOf (w1 ++ w2)))%nat).
  { apply NoDup_incl_length; [apply setOf_NoDup|].
    intros x. rewrite !setOf_In, filter_In, in_app_iff. tauto. }
  split.
  - destruct (String.eqb s1 s2); [reflexivity|].
    destruct (Nat.eqb (String.length s1) 0 || Nat.eqb (String.length s2) 0)%bool;
      [reflexivity|].
    rewrite Hi, Hu. reflexivity.
  - destruct (String.eqb s1 s2); [split; discriminate|].
    destruct (Nat.eqb (String.length s1) 0 || Nat.eqb (String.length s2) 0)%bool;
      [split; discriminate|].
    apply ratio_between_0_and_1. exact Hle.
Qed.

(** *** Deduplication *)

Local Abbreviation norm :=
  (fun s : ContextSection => JS.trim (JS.toLowerCase (content s))).
Local Abbreviation dissimilar :=
  (fun s t : ContextSection =>
     (calculateSimilarity (content s) (content t) <= 85 # 100)%Q).

Lemma aboveThreshold_false (q : Q) :
  aboveThreshold q = false <-> (q <= 85 # 100)%Q.
Proof.
  unfold aboveThreshold. rewrite negb_false_iff. apply Qle_bool_iff.
Qed.

Lemma FOP_snoc {A : Type} (R : A -> A -> Prop) (l : list A) (x : A) :
  ForallOrdPairs R l -> Forall (fun a => R a x) l ->
  ForallOrdPairs R (l ++ [x]).
Proof.
  induction 1 as [|a l Ha Hl IH]; intros Hx; simpl.
  - repeat constructor.
  - apply Forall_cons_iff in Hx. destruct Hx as [Hax Hx].
    constructor; [|apply IH, Hx].
    apply Forall_app. split; [exact Ha | repeat constructor; exact Hax].
Qed.

Lemma Subseq_In_gen {A : Type} (x : A) (l1 l2 : list A) :
  Subseq l1 l2 -> In x l1 -> In x l2.
Proof. induction 1; simpl; tauto. Qed.

Lemma Subseq_Forall {A : Type} (P : A -> Prop) (l1 l2 : list A) :
  Subseq l1 l2 -> Forall P l2 -> Forall P l1.
Proof.
  intros Hsub. rewrite !Forall_forall. intros H x Hx.
  apply H. eapply Subseq_In_gen; eassumption.
Qed.

Lemma Subseq_FOP {A : Type} (R : A -> A -> Prop) (l1 l2 : list A) :
  Subseq l1 l2 -> ForallOrdPairs R l2 -> ForallOrdPairs R l1.
Proof.
  induction 1 as [|a l1 l2 Hsub IH|a l1 l2 Hsub IH]; intros Hp.
  - constructor.
  - inversion Hp; subst. apply IH. assumption.
  - inversion Hp; subst. constructor; [|apply IH; assumption].
    eapply Subseq_Forall; eassumption.
Qed.

Lemma Subseq_map {A B : Type} (f : A -> B) (l1 l2 : list A) :
  Subseq l1 l2 -> Subseq (map f l1) (map f l2).
Proof. induction 1; simpl; constructor; assumption. Qed.

Lemma Subseq_NoDup {A : Type} (l1 l2 : list A) :
  Subseq l1 l2 -> NoDup l2 -> NoDup l1.
Proof.
  induction 1 as [|a l1 l2 Hsub IH|a l1 l2 Hsub IH]; intros Hnd.
  - constructor.
  - inversion Hnd; subst. apply IH. assumption.
  - inversion Hnd; subst. constructor; [|apply IH; assumption].
    intros Hin. eapply Subseq_In_gen in Hin; eauto.
Qed.

Lemma Subseq_length {A : Type} (l1 l2 : list A) :
  Subseq l1 l2 -> (List.length l1 <= List.length l2)%nat.
Proof. induction 1; simpl; lia. Qed.

Lemma Subseq_refl {A : Type} (l : list A) : Subseq l l.
Proof. induction l; constructor; assumption. Qed.

Lemma deduplicateLoop_distinct (l : list ContextSection) :
  forall seen acc,
    (forall x, setHas x seen = true <-> In x (map norm acc)) ->
    NoDup (map norm acc) -> ForallOrdPairs dissimilar acc ->
    NoDup (map norm (deduplicateLoop l seen acc))
    /\ ForallOrdPairs dissimilar (deduplicateLoop l seen acc).
Proof.
  induction l as [|s l IH]; intros seen acc Hseen Hnd Hp; simpl.
  - split; assumption.
  - destruct (setHas (norm s) seen) eqn:Hs; [apply IH; assumption|].
    destruct (existsb _ acc) eqn:Hdup; [apply IH; assumption|].
    apply IH.
    + intros x. unfold setAdd. rewrite Hs.
      rewrite setHas_In, map_app, !in_app_iff.
      specialize (Hseen x). rewrite setHas_In in Hseen.
      simpl. tauto.
    + rewrite map_app. simpl. apply NoDup_snoc; [exact Hnd|].
      rewrite <- Hseen, Hs. discriminate.
    + apply FOP_snoc; [exact Hp|].
      apply Forall_forall. intros a Ha.
      apply aboveThreshold_false.
      destruct (aboveThreshold _) eqn:Habove; [|reflexivity].
      rewrite <- Hdup. symmetry. apply existsb_exists.
      exists a. split; assumption.
Qed.

(** X12: no two sections of the output have the same content up to case
    and surrounding white space, and the similarity of any earlier to any
    later section of the output does not exceed 0.85. *)
Theorem format_output_has_no_duplicates
        (localeCompare : string -> string -> Z)
        (input : list ContextSection) (options : FormatOptions) :
  let out := sections (format localeCompare input options) in
  NoDup (map (fun s => JS.trim (JS.toLowerCase (content s))) out)
  /\ ForallOrdPairs
       (fun s t =>
          (calculateSimilarity (content s) (content t) <= 85 # 100)%Q)
       out.
Proof.
  intros out. unfold out, format. cbn [sections]. unfold select, deduplicate.
  set (sorted := sort (compareSections localeCompare) input).
  destruct (deduplicateLoop_distinct sorted [] []) as [Hnd Hp];
    [intros x; simpl; split; [discriminate | tauto] | constructor
     | constructor |].
  destruct (FormatterFacts.selectLoop_Subseq
              (maxTokens options) (deduplicateLoop sorted [] [])
              {| sel_usedTokens := 0; sel_included := [];
                 sel_excluded := [] |}) as (kept & Hk & Hsub).
  rewrite Hk. cbn [sel_included app]. split.
  - eapply Subseq_NoDup; [apply Subseq_map, Hsub | exact Hnd].
  - eapply Subseq_FOP; [exact Hsub | exact Hp].
Qed.

(** *** What the output is made of *)

Lemma insertSorted_perm {A : Type} (cmp : A -> A -> Z) (x : A) (l : list A) :
  Permutation (insertSorted cmp x l) (x :: l).
Proof.
  induction l as [|y l IH]; simpl; [reflexivity|].
  destruct (cmp x y <=? 0); [reflexivity|].
  rewrite IH. apply perm_swap.
Qed.

Lemma sort_perm {A : Type} (cmp : A -> A -> Z) (l : list A) :
  Permutation (sort cmp l) l.
Proof.
  induction l as [|x l IH]; simpl; [reflexivity|].
  rewrite insertSorted_perm. constructor. exact IH.
Qed.

Lemma Subseq_trans {A : Type} (l1 l2 l3 : list A) :
  Subseq l1 l2 -> Subseq l2 l3 -> Subseq l1 l3.
Proof.
  intros H12 H23. revert l1 H12.
  induction H23 as [|x l2 l3 H23 IH|x l2 l3 H23 IH]; intros l1 H12.
  - exact H12.
  - constructor. apply IH, H12.
  - inversion H12; subst.
    + constructor. apply IH. assumption.
    + apply Subseq_take. apply IH. assumption.
Qed.

Lemma format_sections_Subseq
      (localeCompare : string -> string -> Z)
      (input : list ContextSection) (options : FormatOptions) :
  Subseq (sections (format localeCompare input options))
         (deduplicate (sort (compareSections localeCompare) input))
  /\ Subseq (deduplicate (sort (compareSections localeCompare) input))
            (sort (compareSections localeCompare) input).
Proof.
  unfold format. cbn [sections]. unfold select.
  set (sorted := sort (compareSections localeCompare) input).
  destruct (FormatterFacts.selectLoop_Subseq
              (maxTokens options) (deduplicate sorted)
              {| sel_usedTokens := 0; sel_included := [];
                 sel_excluded := [] |}) as (kept & Hk & Hsub).
  rewrite Hk. cbn [sel_included app]. split; [exact Hsub|].
  unfold deduplicate.
  destruct (FormatterFacts.deduplicateLoop_Subseq sorted [] [])
    as (kept' & Hk' & Hsub').
  rewrite Hk'. exact Hsub'.
Qed.

(** X13: the formatter invents and reorders nothing: its output sections
    are the input in sorted order with some sections left out, so every
    output section is an input section and the output is no longer than
    the input. *)
Theorem format_output_from_input
        (localeCompare : string -> string -> Z)
        (input : list ContextSection) (options : FormatOptions) :
  let out := sections (format localeCompare input options) in
  Subseq out (sort (compareSections localeCompare) input)
  /\ Permutation (sort (compareSections localeCompare) input) input
  /\ (forall s, In s out -> In s input)
  /\ (List.length out <= List.length input)%nat.
Proof.
  intros out.
  destruct (format_sections_Subseq localeCompare input options) as [H1 H2].
  pose proof (Subseq_trans _ _ _ H1 H2) as Hsub. fold out in Hsub.
  pose proof (sort_perm (compareSections localeCompare) input) as Hperm.
  split; [exact Hsub|]. split; [exact Hperm|]. split.
  - intros s Hs. eapply Permutation_in; [exact Hperm|].
    eapply Subseq_In_gen; eassumption.
  - rewrite <- (Permutation_length Hperm). apply Subseq_length, Hsub.
Qed.

Lemma selectLoop_counts (maxTokens : Z) (l : list ContextSection) :
  forall st,
    (List.length (sel_included (selectLoop maxTokens l st))
     + List.length (sel_excluded (selectLoop maxTokens l st))
     = List.length (sel_included st) + List.length (sel_excluded st)
       + List.length l)%nat.
Proof.
  induction l as [|s l IH]; intros st; simpl; [lia|].
  destruct (sel_usedTokens st + tokens s >? maxTokens);
    rewrite IH; simpl; rewrite length_app; simpl; lia.
Qed.

(** X14: when metadata is requested, [includedItems] is the number of
    output sections, [includedItems + excludedItems = totalItems], and
    [totalItems] does not exceed the number of input sections; [sources]
    lists each source of an output section once and nothing else.  When
    it is not requested, no metadata is returned. *)
Theorem format_metadata_accounting
        (localeCompare : string -> string -> Z)
        (input : list ContextSection) (options : FormatOptions) :
  let out := format localeCompare input options in
  match metadata out with
  | Some m =>
      includeMetadata options = true
      /\ includedItems m = Z.of_nat (List.length (sections out))
      /\ includedItems m + excludedItems m = totalItems m
      /\ totalItems m <= Z.of_nat (List.length input)
      /\ NoDup (sources m)
      /\ (forall x, In x (sources m)
                    <-> exists s, In s (sections out) /\ source s = x)
  | None => includeMetadata options = false
  end.
Proof.
  intros out.
  destruct (format_sections_Subseq localeCompare input options) as [_ H2].
  pose proof (Subseq_length _ _ H2) as Hlen.
  rewrite (Permutation_length (sort_perm _ input)) in Hlen.
  unfold out, format. cbn [metadata sections].
  destruct (includeMetadata options); [|reflexivity].
  cbn [includedItems excludedItems totalItems sources].
  unfold select.
  pose proof (selectLoop_counts (maxTokens options)
                (deduplicate (sort (compareSections localeCompare) input))
                {| sel_usedTokens := 0; sel_included := [];
                   sel_excluded := [] |}) as Hc.
  cbn [sel_included sel_excluded List.length] in Hc.
  split; [reflexivity|]. split; [reflexivity|].
  split; [lia|]. split; [lia|].
  split; [apply setOf_NoDup|].
  intros x. rewrite setOf_In, in_map_iff. split.
  - intros (s & Hs & Hin). exists s. split; assumption.
  - intros (s & Hin & Hs). exists s. split; assumption.
Qed.

(** *** When everything fits *)

Lemma sumTokens_perm (l1 l2 : list ContextSection) :
  Permutation l1 l2 -> sumTokens l1 = sumTokens l2.
Proof. induction 1; simpl; lia. Qed.

Lemma sumTokens_Subseq (l1 l2 : list ContextSection) :
  Forall (fun s => 0 <= tokens s) l2 -> Subseq l1 l2 ->
  sumTokens l1 <= sumTokens l2
  /\ Forall (fun s => 0 <= tokens s) l1.
Proof.
  intros Hnn Hsub.
  induction Hsub as [|a l1 l2 Hsub IH|a l1 l2 Hsub IH]; simpl.
  - split; [lia | constructor].
  - apply Forall_cons_iff in Hnn. destruct Hnn as [Ha Hnn].
    destruct (IH Hnn). split; [lia | assumption].
  - apply Forall_cons_iff in Hnn. destruct Hnn as [Ha Hnn].
    destruct (IH Hnn). split; [lia | constructor; assumption].
Qed.

Lemma selectLoop_all_fit (maxTokens : Z) (l : list ContextSection) :
  forall st,
    Forall (fun s => 0 <= tokens s) l ->
    sel_usedTokens st + sumTokens l <= maxTokens ->
    selectLoop maxTokens l st
    = {| sel_usedTokens := sel_usedTokens st + sumTokens l;
         sel_included := sel_included st ++ l;
         sel_excluded := sel_excluded st |}.
Proof.
  induction l as [|s l IH]; intros st Hnn Hfit; simpl in *.
  - destruct st. simpl. rewrite app_nil_r. f_equal. lia.
  - apply Forall_cons_iff in Hnn. destruct Hnn as [Hs Hnn].
    assert (Hl : 0 <= sumTokens l).
    { clear -Hnn. induction Hnn; simpl; lia. }
    destruct (Z.gtb_spec (sel_usedTokens st + tokens s) maxTokens); [lia|].
    rewrite IH; [|exact Hnn | simpl; lia].
    simpl. rewrite <- app_assoc. f_equal. lia.
Qed.

(** X15: if no section has a negative token count and the token counts of
    all input sections together fit the budget, the budget excludes
    nothing: the output is the sorted, deduplicated input, and
    [usedTokens] is the sum of its token counts. *)
Theorem format_keeps_all_when_budget_suffices
        (localeCompare : string -> string -> Z)
        (input : list ContextSection) (options : FormatOptions) :
  Forall (fun s => 0 <= tokens s) input ->
  sumTokens input <= maxTokens options ->
  let out := format localeCompare input options in
  sections out
  = deduplicate (sort (compareSections localeCompare) input)
  /\ usedTokens out = sumTokens (sections out).
Proof.
  intros Hnn Hfit out.
  destruct (format_sections_Subseq localeCompare input options) as [_ H2].
  pose proof (sort_perm (compareSections localeCompare) input) as Hperm.
  assert (Hnn' : Forall (fun s => 0 <= tokens s)
                        (sort (compareSections localeCompare) input)).
  { rewrite Forall_forall in *. intros s Hs. apply Hnn.
    eapply Permutation_in; eassumption. }
  destruct (sumTokens_Subseq _ _ Hnn' H2) as [Hle Hnn2].
  rewrite (sumTokens_perm _ _ Hperm) in Hle.
  unfold out, format. cbn [sections usedTokens]. unfold select.
  rewrite selectLoop_all_fit; [split; reflexivity | exact Hnn2|].
  simpl. lia.
Qed.

(** *** The section that ranks first *)

(** X16: for a collation that is a total preorder and a non-empty input,
    the section that ranks first has the highest priority of the input; it
    is never dropped as a duplicate, and it is the first section of the
    output whenever its own token count fits the budget. *)
Theorem top_section_leads_output
        (localeCompare : string -> string -> Z)
        (input : list ContextSection) (options : FormatOptions) :
  (forall a b, 0 < localeCompare a b -> localeCompare b a <= 0) ->
  (forall a b c, localeCompare a b <= 0 -> localeCompare b c <= 0 ->
                 localeCompare a c <= 0) ->
  input <> [] ->
  exists top,
    hd_error (sort (compareSections localeCompare) input) = Some top
    /\ In top input
    /\ (forall s, In s input -> priority s <= priority top)
    /\ hd_error (deduplicate (sort (compareSections localeCompare) input))
       = Some top
    /\ (tokens top <= maxTokens options ->
        hd_error (sections (format localeCompare input options)) = Some top).
Proof.
  intros Htotal Htrans Hne.
  pose proof (sort_perm (compareSections localeCompare) input) as Hperm.
  pose proof (FormatterFacts.sort_sorted localeCompare Htotal Htrans input)
    as Hsorted.
  unfold format. cbn [sections]. unfold select, deduplicate.
  destruct (sort (compareSections localeCompare) input) as [|top rest].
  - apply Permutation_nil in Hperm. contradiction.
  - exists top. split; [reflexivity|]. split.
    { eapply Permutation_in; [exact Hperm | left; reflexivity]. }
    split.
    { intros s Hs. apply (Permutation_in _ (Permutation_sym Hperm)) in Hs.
      destruct Hs as [->|Hs]; [lia|].
      apply StronglySorted_inv in Hsorted. destruct Hsorted as [_ Hall].
      rewrite Forall_forall in Hall. specialize (Hall s Hs).
      unfold precedes in Hall. lia. }
    cbn [deduplicateLoop setHas existsb]. unfold setAdd. cbn [setHas existsb app].
    destruct (FormatterFacts.deduplicateLoop_Subseq
                rest [JS.trim (JS.toLowerCase (content top))] [top])
      as (kept & Hk & _).
    rewrite Hk. cbn [app hd_error]. split; [reflexivity|].
    intros Hfit. cbn [selectLoop sel_usedTokens sel_included sel_excluded].
    destruct (Z.gtb_spec (0 + tokens top) (maxTokens options)); [lia|].
    destruct (FormatterFacts.selectLoop_Subseq
                (maxTokens options) kept
                {| sel_usedTokens := 0 + tokens top;
                   sel_included := [] ++ [top];
                   sel_excluded := [] |}) as (kept' & Hk' & _).
    rewrite Hk'. reflexivity.
Qed.

Lemma top_section_leads_output_witness :
  let input :=
    [ {| id := "1"; content := "First memory"; priority := 1;
         tokens := 10; source := "profile" |};
      {| id := "3"; content := "Third memory"; priority := 3;
         tokens := 15; source := "recent" |};
      {| id := "2"; content := "Second memory"; priority := 2;
         tokens := 10; source := "search" |} ]%string in
  let options := {| maxTokens := 30; includeTokens := false;
                    includeMetadata := false; separator := None |} in
  exists top,
    hd_error (sort (compareSections codeUnitCompare) input) = Some top
    /\ In top input
    /\ (forall s, In s input -> priority s <= priority top)
    /\ hd_error (deduplicate (sort (compareSections codeUnitCompare) input))
       = Some top
    /\ (tokens top <= maxTokens options ->
        hd_error (sections (format codeUnitCompare input options)) = Some top).
Proof.
  intros input options.
  apply (top_section_leads_output codeUnitCompare input options
           FormatterFacts.codeUnitCompare_total
           FormatterFacts.codeUnitCompare_trans).
  discriminate.
Defined.

Lemma format_keeps_all_when_budget_suffices_witness :
  let input :=
    [ {| id := "1"; content := "First"; priority := 1;
         tokens := 10; source := "source1" |};
      {| id := "2"; content := "Second"; priority := 2;
         tokens := 10; source := "source2" |} ]%string in
  let options := {| maxTokens := 100; includeTokens := false;
                    includeMetadata := true; separator := None |} in
  let out := format codeUnitCompare input options in
  sections out = deduplicate (sort (compareSections codeUnitCompare) input)
  /\ usedTokens out = sumTokens (sections out).
Proof.
  intros input options.
  apply (format_keeps_all_when_budget_suffices codeUnitCompare input options).
  - repeat constructor; simpl; lia.
  - simpl. lia.
Defined.

End FormatterMoreFacts.

(* ================================================================== *)
(** * Further properties of the backend client *)

Module ClientMoreFacts.
Import Effects SupermemoryClient.





Lemma allTagChars_sanitize (tag : string) :
  allTagChars (sanitizeContainerTag tag) = true.
Proof.
  induction tag as [|c tag IH]; simpl; [reflexivity|].
  destruct (isTagChar c) eqn:Hc; [|exact IH].
  simpl. rewrite Hc. exact IH.
Qed.

Lemma sanitize_clean (tag : string) :
  allTagChars tag = true -> sanitizeContainerTag tag = tag.
Proof.
  induction tag as [|c tag IH]; simpl; [reflexivity|].
  intros H. apply andb_prop in H. destruct H as [Hc Ht].
  rewrite Hc, (IH Ht). reflexivity.
Qed.

(** X18: sanitizing is idempotent and never lengthens a tag; a tag is left
    as it is exactly when all its characters are letters, digits, [_] or
    [-]. *)
Theorem sanitize_idempotent (tag : string) :
  sanitizeContainerTag (sanitizeContainerTag tag) = sanitizeContainerTag tag
  /\ (String.length (sanitizeContainerTag tag) <= String.length tag)%nat
  /\ (sanitizeContainerTag tag = tag <-> allTagChars tag = true).
Proof.
  split; [apply sanitize_clean, allTagChars_sanitize|].
  split.
  - induction tag as [|c tag IH]; simpl; [lia|].
    destruct (isTagChar c); simpl; lia.
  - split; [|apply sanitize_clean].
    intros Heq. rewrite <- Heq. apply allTagChars_sanitize.
Qed.

End ClientMoreFacts.

(* ================================================================== *)
(** * Further properties of the context assembly *)

Module ContextMoreFacts.
Import Effects VapiMemory VapiMemoryOps.

Section Steps.
Variable env : Env.
Variable options : Options.
Variable uid : string.

Lemma knownSource_snoc (s : string) (l : list string) :
  knownSource s -> Forall knownSource l -> Forall knownSource (l ++ [s]).
Proof.
  intros Hs Hl. apply Forall_app.
  split; [exact Hl | constructor; [exact Hs | constructor]].
Qed.

Lemma setProfile_accounted (p : SupermemoryProfile) (l : Locals) :
  accounted uid l -> profile (context l) = None ->
  accounted uid (setProfile p l)
  /\ searchResults (context (setProfile p l)) = []
  /\ recentMemories (context (setProfile p l)) = recentMemories (context l).
Proof.
  intros (Htok & Hsearch & Hsrc & Huid) Hnone.
  specialize (Hsearch Hnone).
  unfold accounted, textTokens, setProfile in *. simpl.
  rewrite Hnone, Hsearch in Htok. simpl in Htok.
  rewrite Hsearch. simpl.
  change (TokenCounter.estimateMultiple []) with 0.
  repeat split; try assumption; try discriminate. lia.
Qed.

Lemma addProfileSearch_accounted (request : GetContextRequest)
      (p : SupermemoryProfile) (l : Locals) :
  accounted uid l -> searchResults (context l) = [] ->
  profile (context l) <> None ->
  accounted uid (addProfileSearch request p l)
  /\ recentMemories (context (addProfileSearch request p l))
     = recentMemories (context l).
Proof.
  intros (Htok & Hsearch & Hsrc & Huid) Hempty Hsome.
  unfold addProfileSearch.
  destruct (Effects.searchResults p) as [sr|];
    [|split; [repeat split; assumption | reflexivity]].
  destruct (JS.notFalse (includeSearch request));
    [|split; [repeat split; assumption | reflexivity]].
  unfold accounted, textTokens, pushSource in *. simpl.
  rewrite Hempty in Htok. simpl in Htok.
  change (TokenCounter.estimateMultiple []) with 0 in Htok.
  split; [|reflexivity].
  repeat split; try assumption.
  - lia.
  - intros Hnone. contradiction.
  - apply knownSource_snoc; [|exact Hsrc].
    unfold knownSource. simpl. tauto.
Qed.

Lemma pushSource_accounted (s : string) (l : Locals) :
  knownSource s -> accounted uid l -> accounted uid (pushSource s l).
Proof.
  intros Hs (Htok & Hsearch & Hsrc & Huid).
  unfold accounted, pushSource. simpl.
  repeat split; try assumption. apply knownSource_snoc; assumption.
Qed.

(** The locals after a profile has been taken in, from the cache or from
    the backend. *)
Lemma takeProfile_accounted (request : GetContextRequest) (tag : string)
      (p : SupermemoryProfile) (l : Locals) :
  knownSource tag ->
  accounted uid l -> profile (context l) = None ->
  recentMemories (context l) = [] ->
  let l' := addProfileSearch request p (setProfile p (pushSource tag l)) in
  accounted uid l' /\ recentMemories (context l') = [].
Proof.
  intros Htag Hacc Hnone Hrecent l'.
  pose proof (pushSource_accounted tag l Htag Hacc) as H1.
  destruct (setProfile_accounted p (pushSource tag l) H1 Hnone)
    as (H2 & Hs2 & Hr2).
  destruct (addProfileSearch_accounted request p _ H2 Hs2) as [H3 Hr3];
    [simpl; discriminate|].
  split; [exact H3|].
  unfold l'. rewrite Hr3, Hr2. exact Hrecent.
Qed.

Lemma pushSource_setProfile (tag : string) (p : SupermemoryProfile)
      (l : Locals) :
  pushSource tag (setProfile p l) = setProfile p (pushSource tag l).
Proof. reflexivity. Qed.

Lemma checkCache_summary (request : GetContextRequest) (l : Locals)
      (w : World) :
  accounted uid l -> profile (context l) = None ->
  recentMemories (context l) = [] ->
  exists l' w',
    checkCache env options request l w = (Return l', w')
    /\ accounted uid l'
    /\ recentMemories (context l') = []
    /\ transmitted w' = transmitted w.
Proof.
  intros Hacc Hnone Hrecent. unfold checkCache.
  destruct (cacheEnabled options); [|exists l, w; repeat first [assumption | reflexivity | split]].
  unfold bind, cacheGet.
  destruct (LRU.has string_dec _ (profileCache w));
    [|exists l, w; repeat first [assumption | reflexivity | split]].
  destruct (LRU.get string_dec _ _ (profileCache w)) as [[cached|] c]; simpl.
  - eexists. eexists. split; [reflexivity|].
    rewrite pushSource_setProfile.
    destruct (takeProfile_accounted request "cache" cached l) as [H1 H2];
      try assumption; [unfold knownSource; simpl; tauto|].
    repeat first [assumption | reflexivity | split].
  - eexists. eexists. split; [reflexivity|].
    repeat first [assumption | reflexivity | split].
Qed.

Lemma fetchProfile_summary (request : GetContextRequest) (l : Locals)
      (w : World) :
  accounted uid l -> recentMemories (context l) = [] ->
  exists l' w' reqs,
    fetchProfile env options request l w = (Return l', w')
    /\ accounted uid l'
    /\ recentMemories (context l') = []
    /\ transmitted w' = transmitted w ++ reqs
    /\ (List.length reqs <= 1)%nat
    /\ (JS.notFalse (includeProfile request) = false -> reqs = []).
Proof.
  intros Hacc Hrecent. unfold fetchProfile.
  destruct (profile (context l)) eqn:Hp.
  { exists l, w, []. rewrite app_nil_r.
    repeat first [assumption | reflexivity | split | (simpl; lia)
                  | intros _]. }
  destruct (JS.notFalse (includeProfile request)).
  2:{ exists l, w, []. rewrite app_nil_r.
    repeat first [assumption | reflexivity | split | (simpl; lia)
                  | intros _]. }
  unfold tryCatch, bind, SupermemoryClient.getProfile,
    SupermemoryClient.rethrow, log, transmit, await, throw, ret.
  simpl.
  destruct (be_profile (backend env) _ (query request)) as [p|e]; simpl.
  - destruct (takeProfile_accounted request "profile" p l) as [H1 H2];
      try assumption; [unfold knownSource; simpl; tauto|].
    destruct (cacheEnabled options); simpl;
      eexists; eexists; eexists; (split; [reflexivity|]);
      repeat first [eassumption | reflexivity | split
                    | (simpl; lia) | (intros; discriminate)].
  - eexists. eexists. eexists. split; [reflexivity|].
    repeat first [eassumption | reflexivity | split
                  | (simpl; lia) | (intros; discriminate)].
Qed.

Lemma fetchRecent_summary (request : GetContextRequest) (l : Locals)
      (w : World) :
  accounted uid l -> recentMemories (context l) = [] ->
  exists l' w' reqs,
    fetchRecent env options request l w = (Return l', w')
    /\ accounted uid l'
    /\ transmitted w' = transmitted w ++ reqs
    /\ (List.length reqs <= 1)%nat
    /\ ((JS.notFalse (includeRecent request)
         && JS.truthyStr (callId request))%bool = false -> reqs = []).
Proof.
  intros Hacc Hrecent. unfold fetchRecent.
  destruct (JS.notFalse (includeRecent request)
            && JS.truthyStr (callId request))%bool.
  2:{ exists l, w, []. rewrite app_nil_r.
    repeat first [assumption | reflexivity | split | (simpl; lia)
                  | intros _]. }
  unfold tryCatch, bind, SupermemoryClient.searchMemories,
    SupermemoryClient.rethrow, log, transmit, await, throw, ret.
  simpl.
  destruct (be_searchMemories (backend env) _ _ _ _) as [found|e]; simpl.
  - eexists. eexists. eexists. split; [reflexivity|].
    split; [|repeat first [reflexivity | split | (simpl; lia)
                           | (intros; discriminate)]].
    apply pushSource_accounted; [unfold knownSource; simpl; tauto|].
    destruct Hacc as (Htok & Hsearch & Hsrc & Huid).
    unfold accounted, textTokens, setRecent in *. simpl.
    rewrite Hrecent in Htok. simpl in Htok.
    change (TokenCounter.estimateMultiple []) with 0 in Htok.
    repeat split; try assumption. lia.
  - eexists. eexists. eexists. split; [reflexivity|].
    repeat first [eassumption | reflexivity | split
                  | (simpl; lia) | (intros; discriminate)].
Qed.

End Steps.

Section Assembly.
Variable env : Env.
Variable options : Options.

Lemma getContext_summary (request : GetContextRequest) (w : World) :
  exists ctx w' reqs,
    getContext env options request w = (Return ctx, w')
    /\ totalTokens ctx = textTokens ctx
    /\ Forall knownSource (sources (metadata ctx))
    /\ metaUserId (metadata ctx) = userId request
    /\ transmitted w' = transmitted w ++ reqs
    /\ (List.length reqs <= 2)%nat
    /\ (JS.notFalse (includeProfile request) = false ->
        (JS.notFalse (includeRecent request)
         && JS.truthyStr (callId request))%bool = false ->
        reqs = []).
Proof.
  unfold getContext, bind at 1, dateNow at 1. unfold tryCatch.
  set (w0 := {| profileCache := profileCache w; logged := logged w;
                transmitted := transmitted w; ticks := S (ticks w) |}).
  set (l0 := {| context := _; srcs := [] |}).
  assert (Hacc0 : accounted (userId request) l0).
  { unfold accounted, textTokens. simpl.
    repeat split; try reflexivity. constructor. }
  destruct (checkCache_summary env options (userId request) request l0 w0
              Hacc0 eq_refl eq_refl) as (l1 & w1 & Hc & Hacc1 & Hr1 & Ht1).
  destruct (fetchProfile_summary env options (userId request) request l1 w1
              Hacc1 Hr1)
    as (l2 & w2 & reqs2 & Hp & Hacc2 & Hr2 & Ht2 & Hn2 & Hz2).
  destruct (fetchRecent_summary env options (userId request) request l2 w2
              Hacc2 Hr2)
    as (l3 & w3 & reqs3 & Hr & Hacc3 & Ht3 & Hn3 & Hz3).
  unfold bind. rewrite Hc, Hp, Hr. simpl.
  destruct Hacc3 as (Htok & _ & Hsrc & Huid).
  exists (mkContext (profile (context l3)) (recentMemories (context l3))
            (searchResults (context l3)) (totalTokens (context l3))
            (mkContextMetadata (metaUserId (metadata (context l3)))
               (clock env (ticks w3) - clock env (ticks w)) (srcs l3))).
  eexists. exists (reqs2 ++ reqs3).
  split; [reflexivity|].
  split; [exact Htok|].
  split; [exact Hsrc|].
  split; [exact Huid|].
  split; [simpl; rewrite Ht3, Ht2, Ht1, app_assoc; reflexivity|].
  split; [rewrite length_app; lia|].
  intros Hnp Hnr. rewrite (Hz2 Hnp), (Hz3 Hnr). reflexivity.
Qed.


(** X20: the [totalTokens] of the record [getContext] returns is the sum
    of the token estimates of the texts it carries: the static and dynamic
    profile facts, the search results and the recent memories. *)
Theorem getContext_totalTokens (request : GetContextRequest) (w : World) :
  exists ctx w',
    getContext env options request w = (Return ctx, w')
    /\ totalTokens ctx
       = profileTokens (profile ctx)
         + TokenCounter.estimateMultiple (searchResults ctx)
         + TokenCounter.estimateMultiple (recentMemories ctx).
Proof.
  destruct (getContext_summary request w)
    as (ctx & w' & reqs & Heq & Htok & _).
  exists ctx, w'. split; [exact Heq | exact Htok].
Qed.

(** X21: a request that asks for no profile ([includeProfile] false) and
    for no recent memories ([includeRecent] false, or no [callId]) sends
    nothing to the backend, with or without a cached profile. *)
Theorem getContext_without_backend (request : GetContextRequest) (w : World) :
  includeProfile request = Some false ->
  includeRecent request = Some false \/ JS.truthyStr (callId request) = false ->
  exists ctx w',
    getContext env options request w = (Return ctx, w')
    /\ transmitted w' = transmitted w
    /\ recentMemories ctx = [].
Proof.
  intros Hp Hr.
  assert (Hnp : JS.notFalse (includeProfile request) = false)
    by (rewrite Hp; reflexivity).
  assert (Hnr : (JS.notFalse (includeRecent request)
                 && JS.truthyStr (callId request))%bool = false).
  { destruct Hr as [Hr|Hr]; rewrite Hr; [reflexivity | apply andb_false_r]. }
  destruct (getContext_summary request w)
    as (ctx & w' & reqs & Heq & _ & _ & _ & Ht & _ & Hz).
  rewrite (Hz Hnp Hnr), app_nil_r in Ht.
  exists ctx, w'. split; [exact Heq|]. split; [exact Ht|].
  revert Heq. unfold getContext, bind at 1, dateNow at 1. unfold tryCatch.
  set (w0 := {| profileCache := profileCache w; logged := logged w;
                transmitted := transmitted w; ticks := S (ticks w) |}).
  set (l0 := {| context := _; srcs := [] |}).
  assert (Hacc0 : accounted (userId request) l0).
  { unfold accounted, textTokens. simpl.
    repeat split; try reflexivity. constructor. }
  destruct (checkCache_summary env options (userId request) request l0 w0
              Hacc0 eq_refl eq_refl) as (l1 & w1 & Hc & Hacc1 & Hr1 & Ht1).
  destruct (fetchProfile_summary env options (userId request) request l1 w1
              Hacc1 Hr1)
    as (l2 & w2 & reqs2 & Hpf & Hacc2 & Hr2 & _).
  unfold bind. rewrite Hc, Hpf. unfold fetchRecent. rewrite Hnr.
  unfold ret, dateNow, log. simpl.
  intros Heq. injection Heq as <- _. simpl. exact Hr2.
Qed.

End Assembly.

Lemma getContext_without_backend_witness :
  exists ctx w',
    getContext MoreFixtures.answeringEnv Fixtures.testOptions
               MoreFixtures.quietRequest Fixtures.freshWorld
    = (Return ctx, w')
    /\ transmitted w' = transmitted Fixtures.freshWorld
    /\ recentMemories ctx = [].
Proof.
  apply (getContext_without_backend
           MoreFixtures.answeringEnv Fixtures.testOptions
           MoreFixtures.quietRequest Fixtures.freshWorld).
  - reflexivity.
  - right. reflexivity.
Defined.

End ContextMoreFacts.

(* ================================================================== *)
(** * The profile cache inside the context assembly *)

Section FreshKey.
Context {K V : Type}.
Variable K_eq_dec : forall x y : K, {x = y} + {x <> y}.

(** A key that is absent is present after [set], whatever the state of the
    map, and [get] then returns the value that was set. *)
Lemma set_fresh_then_get (k : K) (v : V) (t0 t1 : Z) (c : LRU.LRUCache K V) :
  LRU.has K_eq_dec k c = false ->
  LRU.has K_eq_dec k (LRU.set K_eq_dec k v t0 c) = true
  /\ fst (LRU.get K_eq_dec k t1 (LRU.set K_eq_dec k v t0 c)) = Some v.
Proof.
  intros Hmiss. unfold LRU.has in *.
  assert (Hget : LRU.mapGet K_eq_dec k (LRU.cache (LRU.set K_eq_dec k v t0 c))
                 = Some {| LRU.value := v; LRU.timestamp := t0;
                           LRU.hits := 0 |}).
  { unfold LRU.set, LRU.dropExisting. rewrite Hmiss. cbn [LRU.cache].
    assert (Hnin : ~ In k (LRU.keys (LRU.evictIfFull K_eq_dec c))).
    { intros Hin. apply evictIfFull_keys_incl in Hin.
      apply (proj1 (mapHas_false K_eq_dec k (LRU.cache c))) in Hmiss.
      exact (Hmiss Hin). }
    rewrite mapSet_absent by exact Hnin.
    apply mapGet_snoc. exact Hnin. }
  split.
  - unfold LRU.mapHas. rewrite Hget. reflexivity.
  - unfold LRU.get. rewrite Hget. reflexivity.
Qed.

End FreshKey.

Module CacheFacts.
Import Effects VapiMemory VapiMemoryOps.

Section RoundTrip.
Variable env : Env.
Variable options : Options.

Local Abbreviation keyOf request := ("profile:" ++ userId request)%string.

(** A call that finds no cached profile and wants one asks the backend. *)
Lemma getContext_on_miss (request : GetContextRequest) (w : World) :
  cacheEnabled options = false
  \/ LRU.has string_dec (keyOf request) (profileCache w) = false ->
  JS.notFalse (includeProfile request) = true ->
  exists ctx w',
    getContext env options request w = (Return ctx, w')
    /\ In (ReqProfile (SupermemoryClient.sanitizeContainerTag (userId request))
                      (query request))
          (transmitted w')
    /\ ~ In "cache"%string (sources (metadata ctx))
    /\ (forall p,
          be_profile (backend env)
                     (SupermemoryClient.sanitizeContainerTag (userId request))
                     (query request) = Return p ->
          profile ctx = Some {| static := profileStatic p;
                                dynamic := profileDynamic p |}
          /\ In "profile"%string (sources (metadata ctx))
          /\ (cacheEnabled options = true ->
              profileCache w'
              = LRU.set string_dec (keyOf request) p
                        (clock env (S (ticks w))) (profileCache w))).
Proof.
  intros Hmiss Hwant.
  unfold getContext, bind at 1, dateNow at 1. unfold tryCatch.
  assert (Hcheck : forall l w0,
             profileCache w0 = profileCache w ->
             checkCache env options request l w0 = (Return l, w0)).
  { intros l w0 Hw0. unfold checkCache.
    destruct (cacheEnabled options) eqn:Hen; [|reflexivity].
    destruct Hmiss as [Hoff|Hmiss]; [discriminate|].
    unfold bind, cacheGet. rewrite Hw0, Hmiss. reflexivity. }
  unfold bind at 1. rewrite Hcheck by reflexivity.
  unfold bind at 1. unfold fetchProfile. cbn [context profile].
  rewrite Hwant.
  unfold tryCatch, bind at 1, SupermemoryClient.getProfile,
    SupermemoryClient.rethrow. unfold tryCatch, bind, log, transmit, await,
    throw, ret, cacheSet, dateNow.
  cbn [fst snd profileCache logged transmitted ticks].
  destruct (be_profile (backend env) _ (query request)) as [p|e] eqn:Hp.
  - unfold addProfileSearch, setProfile, pushSource, fetchRecent.
    destruct (cacheEnabled options) eqn:Hen;
      destruct (Effects.searchResults p) as [sr|];
      try destruct (JS.notFalse (includeSearch request));
      destruct (JS.notFalse (includeRecent request)
                && JS.truthyStr (callId request))%bool;
      unfold tryCatch, bind, SupermemoryClient.searchMemories,
        SupermemoryClient.rethrow, log, transmit, await, throw, ret;
      cbn [fst snd profileCache logged transmitted ticks context srcs];
      try destruct (be_searchMemories (backend env) _ _ _ _);
      cbn;
      (eexists; eexists; split; [reflexivity|]);
      (split; [rewrite <- ?app_assoc; apply in_elt|]);
      (split; [simpl; intuition discriminate|]);
      intros p' Hp'; injection Hp' as <-;
      (split; [reflexivity|]);
      (split; [left; reflexivity|]);
      intros Hon; try discriminate; reflexivity.
  - unfold fetchRecent.
    destruct (JS.notFalse (includeRecent request)
              && JS.truthyStr (callId request))%bool;
      unfold tryCatch, bind, SupermemoryClient.searchMemories,
        SupermemoryClient.rethrow, log, transmit, await, throw, ret;
      cbn [fst snd profileCache logged transmitted ticks context srcs];
      try destruct (be_searchMemories (backend env) _ _ _ _);
      cbn;
      (eexists; eexists; split; [reflexivity|]);
      (split; [rewrite <- ?app_assoc; apply in_elt|]);
      (split; [simpl; intuition discriminate|]);
      intros p' Hp'; discriminate.
Qed.

(** A call that finds a cached profile uses it and does not ask the
    backend for one. *)
Lemma getContext_on_hit (request : GetContextRequest) (w : World)
      (p : SupermemoryProfile) (c' : LRU.LRUCache string SupermemoryProfile) :
  cacheEnabled options = true ->
  LRU.has string_dec (keyOf request) (profileCache w) = true ->
  LRU.get string_dec (keyOf request) (clock env (S (ticks w)))
          (profileCache w) = (Some p, c') ->
  exists ctx w' reqs,
    getContext env options request w = (Return ctx, w')
    /\ profile ctx = Some {| static := profileStatic p;
                             dynamic := profileDynamic p |}
    /\ hd_error (sources (metadata ctx)) = Some "cache"%string
    /\ ~ In "profile"%string (sources (metadata ctx))
    /\ transmitted w' = transmitted w ++ reqs
    /\ (forall tag q, ~ In (ReqProfile tag q) reqs).
Proof.
  intros Hen Hhas Hget.
  unfold getContext, bind at 1, dateNow at 1. unfold tryCatch.
  unfold bind at 1. unfold checkCache. rewrite Hen.
  unfold bind at 1. unfold cacheGet.
  cbn [profileCache ticks logged transmitted]. rewrite Hhas, Hget.
  unfold log at 1. unfold bind at 1. cbn [fst snd]. unfold ret at 1.
  unfold bind at 1. unfold fetchProfile.
  unfold addProfileSearch, setProfile, pushSource, fetchRecent.
  destruct (Effects.searchResults p) as [sr|];
    try destruct (JS.notFalse (includeSearch request));
    cbn [context profile srcs];
    destruct (JS.notFalse (includeRecent request)
              && JS.truthyStr (callId request))%bool;
    unfold tryCatch, bind, SupermemoryClient.searchMemories,
      SupermemoryClient.rethrow, log, transmit, await, throw, ret, dateNow;
    cbn [fst snd profileCache logged transmitted ticks context srcs];
    try destruct (be_searchMemories (backend env) _ _ _ _);
    cbn;
    (eexists; eexists; eexists; split; [reflexivity|]);
    (split; [reflexivity|]);
    (split; [reflexivity|]);
    (split; [simpl; intuition discriminate|]);
    (split; [simpl; first [reflexivity | symmetry; apply app_nil_r]|]);
    intros tag q; simpl; intuition discriminate.
Qed.

(** X22: with caching on, a profile fetched from the backend is stored,
    and the next [getContext] for the same user takes the same profile
    from the cache: its first source is ["cache"], ["profile"] is not
    among its sources, and it sends no profile request to the backend. *)
Theorem profile_served_from_cache
        (request1 request2 : GetContextRequest) (w : World)
        (p : SupermemoryProfile) :
  cacheEnabled options = true ->
  LRU.has string_dec (keyOf request1) (profileCache w) = false ->
  JS.notFalse (includeProfile request1) = true ->
  be_profile (backend env)
             (SupermemoryClient.sanitizeContainerTag (userId request1))
             (query request1) = Return p ->
  userId request2 = userId request1 ->
  exists ctx1 w1 ctx2 w2 reqs,
    getContext env options request1 w = (Return ctx1, w1)
    /\ In "profile"%string (sources (metadata ctx1))
    /\ getContext env options request2 w1 = (Return ctx2, w2)
    /\ profile ctx2 = profile ctx1
    /\ profile ctx2 = Some {| static := profileStatic p;
                              dynamic := profileDynamic p |}
    /\ hd_error (sources (metadata ctx2)) = Some "cache"%string
    /\ ~ In "profile"%string (sources (metadata ctx2))
    /\ transmitted w2 = transmitted w1 ++ reqs
    /\ (forall tag q, ~ In (ReqProfile tag q) reqs).
Proof.
  intros Hen Hmiss Hwant Hp Hsame.
  destruct (getContext_on_miss request1 w (or_intror Hmiss) Hwant)
    as (ctx1 & w1 & Hcall1 & _ & _ & Hfetched).
  destruct (Hfetched p Hp) as (Hprof1 & Hsrc1 & Hcache).
  specialize (Hcache Hen).
  destruct (set_fresh_then_get string_dec (keyOf request1) p
              (clock env (S (ticks w))) (clock env (S (ticks w1)))
              (profileCache w) Hmiss) as [Hhas Hget].
  rewrite <- Hcache in Hhas, Hget.
  destruct (LRU.get string_dec (keyOf request1) (clock env (S (ticks w1)))
                    (profileCache w1)) as [v c'] eqn:Hg.
  simpl in Hget. subst v.
  assert (Hkey : keyOf request2 = keyOf request1) by (rewrite Hsame; reflexivity).
  rewrite <- Hkey in Hhas, Hg.
  destruct (getContext_on_hit request2 w1 p c' Hen Hhas Hg)
    as (ctx2 & w2 & reqs & Hcall2 & Hprof2 & Hhd & Hnp & Ht & Hnone).
  exists ctx1, w1, ctx2, w2, reqs.
  repeat first [assumption | split | congruence].
Qed.

(** X23: after [clearCache], the next [getContext] that wants a profile
    asks the backend for it and does not report the source ["cache"],
    whatever had been cached before. *)
Theorem clearCache_forces_refetch (request : GetContextRequest) (w : World) :
  JS.notFalse (includeProfile request) = true ->
  exists ctx w',
    getContext env options request (snd (clearCache w)) = (Return ctx, w')
    /\ In (ReqProfile (SupermemoryClient.sanitizeContainerTag (userId request))
                      (query request))
          (transmitted w')
    /\ ~ In "cache"%string (sources (metadata ctx))
    /\ LRU.size (profileCache (snd (clearCache w))) = 0.
Proof.
  intros Hwant.
  destruct (getContext_on_miss request (snd (clearCache w))
              (or_intror eq_refl) Hwant) as (ctx & w' & Hcall & Hin & Hnc & _).
  exists ctx, w'. repeat split; assumption.
Qed.

End RoundTrip.

Lemma profile_served_from_cache_witness :
  exists ctx1 w1 ctx2 w2 reqs,
    getContext MoreFixtures.answeringEnv Fixtures.testOptions
               MoreFixtures.plainRequest Fixtures.freshWorld
    = (Return ctx1, w1)
    /\ In "profile"%string (sources (metadata ctx1))
    /\ getContext MoreFixtures.answeringEnv Fixtures.testOptions
                  MoreFixtures.plainRequest w1
       = (Return ctx2, w2)
    /\ profile ctx2 = profile ctx1
    /\ profile ctx2
       = Some {| static := ["User is VIP customer"]%string;
                 dynamic := ["Asked about pricing"]%string |}
    /\ hd_error (sources (metadata ctx2)) = Some "cache"%string
    /\ ~ In "profile"%string (sources (metadata ctx2))
    /\ transmitted w2 = transmitted w1 ++ reqs
    /\ (forall tag q, ~ In (ReqProfile tag q) reqs).
Proof.
  apply (profile_served_from_cache
           MoreFixtures.answeringEnv Fixtures.testOptions
           MoreFixtures.plainRequest MoreFixtures.plainRequest
           Fixtures.freshWorld
           (Effects.mkProfile ["User is VIP customer"]%string
                              ["Asked about pricing"]%string None));
    reflexivity.
Defined.

Lemma clearCache_forces_refetch_witness :
  exists ctx w',
    getContext MoreFixtures.answeringEnv Fixtures.testOptions
               MoreFixtures.plainRequest (snd (clearCache Fixtures.freshWorld))
    = (Return ctx, w')
    /\ In (ReqProfile "user123" None) (transmitted w')
    /\ ~ In "cache"%string (sources (metadata ctx))
    /\ LRU.size (profileCache (snd (clearCache Fixtures.freshWorld))) = 0.
Proof.
  apply (clearCache_forces_refetch
           MoreFixtures.answeringEnv Fixtures.testOptions
           MoreFixtures.plainRequest Fixtures.freshWorld).
  reflexivity.
Defined.

End CacheFacts.

(* ================================================================== *)
(** * The two renderings of a context record *)

Module MessageFacts.
Import VapiMemory VapiMemoryOps.

Local Abbreviation LF := VapiResponseBuilder.LF.

Lemma append_empty_r (s : string) : (s ++ EmptyString)%string = s.
Proof. induction s as [|c s IH]; simpl; [reflexivity | rewrite IH; reflexivity]. Qed.

Lemma concat_tailJoin (x : string) (l : list string) :
  String.concat LF (x :: l) = (x ++ tailJoin l)%string.
Proof.
  revert x. induction l as [|y l IH]; intros x.
  - simpl. symmetry. apply append_empty_r.
  - change (String.concat LF (x :: y :: l))
      with (x ++ (LF ++ String.concat LF (y :: l)))%string.
    rewrite IH. reflexivity.
Qed.

Lemma tailJoin_app (l1 l2 : list string) :
  tailJoin (l1 ++ l2) = (tailJoin l1 ++ tailJoin l2)%string.
Proof.
  unfold tailJoin.
  induction l1 as [|y l1 IH]; cbn [fold_right app]; [reflexivity|].
  rewrite IH, !FormatterFacts.string_app_assoc. reflexivity.
Qed.

Lemma section_appends (title : string) (items : option (list string))
      (content : string) :
  section title items content = (content ++ blockText title items)%string.
Proof.
  unfold section, blockText. destruct items as [[|item rest]|];
    try (symmetry; apply append_empty_r).
  rewrite !FormatterFacts.string_app_assoc. reflexivity.
Qed.

(** A block behind a line feed is the block's lines, each behind a line
    feed, followed by a line feed. *)
Lemma block_shift (title : string) (items : option (list string))
      (tail : string) :
  (LF ++ (blockText title items ++ tail))%string
  = (tailJoin (VapiResponseBuilder.block title items) ++ (LF ++ tail))%string.
Proof.
  unfold VapiResponseBuilder.block, blockText.
  destruct items as [[|item rest]|]; try reflexivity.
  rewrite concat_tailJoin.
  change (tailJoin ([title] ++ (item :: rest) ++ [EmptyString]))
    with (LF ++ (title ++ (LF ++ (item ++ tailJoin (rest ++ [EmptyString])))))%string.
  rewrite tailJoin_app. unfold tailJoin at 2. cbn [fold_right].
  rewrite !FormatterFacts.string_app_assoc. reflexivity.
Qed.

(** X26: [VapiMemory.createContextMessage] and
    [VapiResponseBuilder.buildSystemMessage] render every context record
    as the same system message. *)
Theorem createContextMessage_agrees_with_builder
        (context : FormattedContext) :
  createContextMessage context
  = VapiResponseBuilder.buildSystemMessage context.
Proof.
  unfold createContextMessage, VapiResponseBuilder.buildSystemMessage,
    VapiResponseBuilder.formatContextString.
  f_equal.
  rewrite !section_appends.
  rewrite <- !app_assoc. cbn [app].
  rewrite concat_tailJoin, !tailJoin_app.
  change (tailJoin [?a; ?b]) with (LF ++ (a ++ (LF ++ (b ++ EmptyString))))%string.
  rewrite !FormatterFacts.string_app_assoc.
  rewrite !block_shift.
  rewrite append_empty_r. reflexivity.
Qed.

End MessageFacts.

(* ================================================================== *)
(** * Properties of the other operations of VapiMemory *)

Module FacadeFacts.
Import Effects VapiMemory VapiMemoryOps.

Lemma objGet_objSet (k k' : string) (v : Json) (o : list (string * Json)) :
  objGet k (objSet k' v o)
  = if String.eqb k k' then Some v else objGet k o.
Proof.
  induction o as [|[k0 v0] o IH]; simpl; [reflexivity|].
  destruct (String.eqb_spec k' k0) as [->|Hne]; simpl.
  - destruct (String.eqb k k0); reflexivity.
  - rewrite IH.
    destruct (String.eqb_spec k k0) as [->|Hk]; [|reflexivity].
    destruct (String.eqb_spec k0 k'); [congruence | reflexivity].
Qed.

Lemma objGet_app (k : string) (a b : list (string * Json)) :
  objGet k (a ++ b)
  = match objGet k a with Some v => Some v | None => objGet k b end.
Proof.
  induction a as [|[k0 v0] a IH]; simpl; [reflexivity|].
  destruct (String.eqb k k0); [reflexivity | exact IH].
Qed.

(** In a spread, the last binding of a key in the source wins, and the
    target supplies the keys the source does not bind. *)
Lemma objGet_spread (k : string) (fields target : list (string * Json)) :
  objGet k (objSpread target (Some fields))
  = match objGet k (rev fields) with
    | Some v => Some v
    | None => objGet k target
    end.
Proof.
  unfold objSpread. revert target.
  induction fields as [|[k0 v0] fields IH]; intros target; simpl;
    [reflexivity|].
  rewrite IH, objGet_app, objGet_objSet. simpl.
  destruct (objGet k (rev fields)); [reflexivity|].
  destruct (String.eqb k k0); reflexivity.
Qed.

(** X24: [getUserProfile] and [addMemory] hand on the backend's answer
    (the profile as [userId], [static] and [dynamic]); when the backend
    throws they throw an [Error] whose message carries the prefix of the
    operation, the prefix of the client and the message of the cause; and
    neither of them touches the profile cache. *)
Theorem facade_wraps_client_failures
        (env : Env) (w : World) (user : string) (memory : Memory) :
  fst (getUserProfile env user w)
  = match be_profile (backend env)
                     (SupermemoryClient.sanitizeContainerTag user) None with
    | Return p => Return {| up_userId := user;
                            up_static := profileStatic p;
                            up_dynamic := profileDynamic p |}
    | Throw e =>
        Throw (ErrorObj ("Failed to get user profile: "
                           ++ "Failed to fetch profile: " ++ messageOf e))
    end
  /\ fst (addMemory env memory w)
     = match be_add (backend env) (mem_content memory)
                    (SupermemoryClient.sanitizeContainerTag (mem_userId memory))
                    (mem_metadata memory) with
       | Return _ => Return tt
       | Throw e =>
           Throw (ErrorObj ("Failed to add memory: "
                              ++ "Failed to add memory: " ++ messageOf e))
       end
  /\ profileCache (snd (getUserProfile env user w)) = profileCache w
  /\ profileCache (snd (addMemory env memory w)) = profileCache w.
Proof.
  unfold getUserProfile, addMemory, SupermemoryClient.getProfile,
    SupermemoryClient.addMemory, SupermemoryClient.rethrow,
    tryCatch, bind, log, transmit, await, throw, ret.
  simpl.
  destruct (be_profile (backend env) _ None);
    destruct (be_add (backend env) _ _ _); simpl; repeat split.
Qed.

(** X25: [storeConversation] sends the backend one memory: the transcript
    rendered as one ["role: content"] line per turn, under the sanitized
    user id, with a metadata object in which the caller's metadata takes
    precedence over the generated [callId] and [timestamp].  It returns
    when the backend answers, and throws an [Error] with the prefixes
    ["Failed to store conversation: "] and ["Failed to add memory: "]
    before the message of the cause when the backend throws. *)
Theorem storeConversation_stores_transcript
        (env : Env) (toISOString : Z -> string)
        (call : StoreConversationRequest) (w : World) :
  let r := storeConversation env toISOString call w in
  let generated :=
    [("callId"%string, JStr (sc_callId call));
     ("timestamp"%string, JStr (toISOString (clock env (ticks w))))] in
  exists md,
    transmitted (snd r)
    = transmitted w
      ++ [ReqAdd (transcriptText (sc_transcript call))
                 (SupermemoryClient.sanitizeContainerTag (sc_userId call))
                 (Some (JObj md))]
    /\ (forall k,
          objGet k md
          = match sc_metadata call with
            | Some fields =>
                match objGet k (rev fields) with
                | Some v => Some v
                | None => objGet k generated
                end
            | None => objGet k generated
            end)
    /\ fst r
       = match be_add (backend env) (transcriptText (sc_transcript call))
                      (SupermemoryClient.sanitizeContainerTag (sc_userId call))
                      (Some (JObj md)) with
         | Return _ => Return tt
         | Throw e =>
             Throw (ErrorObj ("Failed to store conversation: "
                                ++ "Failed to add memory: " ++ messageOf e))
         end.
Proof.
  intros r generated.
  exists (objSpread generated (sc_metadata call)).
  unfold r, storeConversation, SupermemoryClient.addMemory,
    SupermemoryClient.rethrow, tryCatch, bind, dateNow, log, transmit, await,
    throw, ret.
  cbn [fst snd profileCache logged transmitted ticks].
  fold generated.
  split; [destruct (be_add (backend env) _ _ _); reflexivity|].
  split.
  - intros k. destruct (sc_metadata call) as [fields|]; [|reflexivity].
    apply objGet_spread.
  - destruct (be_add (backend env) _ _ _); reflexivity.
Qed.

End FacadeFacts.

(* ================================================================== *)
(** * Properties of the variable extraction *)

Module VariableFacts.
Import VapiMemory VapiResponseBuilder.

Lemma lowerChar_not_capital (c : ascii) : isCapital (JS.lowerChar c) = false.
Proof.
  destruct c as [b0 b1 b2 b3 b4 b5 b6 b7].
  destruct b0, b1, b2, b3, b4, b5, b6, b7; reflexivity.
Qed.

Lemma toLowerCase_no_capital (s : string) :
  hasCapital (JS.toLowerCase s) = false.
Proof.
  induction s as [|c s IH]; simpl; [reflexivity|].
  rewrite lowerChar_not_capital, IH. reflexivity.
Qed.

Lemma prefix_no_capital (k s : string) :
  hasCapital s = false -> String.prefix k s = true -> hasCapital k = false.
Proof.
  revert s. induction k as [|c k IH]; intros s Hs Hp; [reflexivity|].
  destruct s as [|d s]; simpl in *; [discriminate|].
  destruct (ascii_dec c d) as [->|Hne]; [|discriminate].
  apply orb_false_elim in Hs. destruct Hs as [Hd Hs].
  rewrite Hd. simpl. eapply IH; eassumption.
Qed.

Lemma includes_no_capital (s k : string) :
  hasCapital s = false -> hasCapital k = true -> includes s k = false.
Proof.
  intros Hs Hk. induction s as [|d s IH]; cbn [includes].
  - destruct k; [discriminate | reflexivity].
  - destruct (String.prefix k (String d s)) eqn:Hp.
    + rewrite (prefix_no_capital k _ Hs Hp) in Hk. discriminate.
    + cbn [hasCapital] in Hs. apply orb_false_elim in Hs.
      cbn [orb]. apply IH, Hs.
Qed.

Lemma existsb_drop_dead {A : Type} (f : A -> bool) (l1 l2 : list A) (x : A) :
  f x = false -> existsb f (l1 ++ x :: l2) = existsb f (l1 ++ l2).
Proof.
  intros Hx. rewrite !existsb_app. simpl. rewrite Hx. reflexivity.
Qed.

(** X27: [extractValue] returns the empty string or a fact of the list
    whose lower-cased text includes one of the keywords.  A keyword that
    contains a capital letter [A]..[Z] never matches, because the fact is
    lower-cased before the test: leaving such a keyword out changes no
    result, so [userName] and [userTier] of [extractVariableValues] are
    decided by the lower-case keywords alone. *)
Theorem extractValue_matches_lower_case_only
        (facts keywords before after : list string) (dead : string)
        (context : FormattedContext) :
  (extractValue facts keywords = EmptyString
   \/ (In (extractValue facts keywords) facts
       /\ exists k, In k keywords
                    /\ includes (JS.toLowerCase (extractValue facts keywords)) k
                       = true))
  /\ (hasCapital dead = true ->
      extractValue facts (before ++ dead :: after)
      = extractValue facts (before ++ after))
  /\ valueOf "userName" (extractVariableValues context)
     = option_map (fun p => extractValue (static p) ["name"%string])
                  (profile context)
  /\ valueOf "userTier" (extractVariableValues context)
     = option_map (fun p => extractValue (static p)
                                         ["vip"; "premium"; "standard"]%string)
                  (profile context).
Proof.
  assert (Hdead : forall fs ks1 ks2 k,
             hasCapital k = true ->
             extractValue fs (ks1 ++ k :: ks2) = extractValue fs (ks1 ++ ks2)).
  { intros fs ks1 ks2 k Hk. induction fs as [|f fs IH]; simpl; [reflexivity|].
    rewrite existsb_drop_dead
      by (apply includes_no_capital; [apply toLowerCase_no_capital | exact Hk]).
    rewrite IH. reflexivity. }
  split; [|split; [apply Hdead|]].
  - induction facts as [|f facts IH]; simpl; [left; reflexivity|].
    destruct (existsb _ keywords) eqn:Hex.
    + right. split; [left; reflexivity|].
      apply existsb_exists in Hex. destruct Hex as (k & Hk & Hinc).
      exists k. split; assumption.
    + destruct IH as [IH|[Hin Hk]]; [left; exact IH | right].
      split; [right; exact Hin | exact Hk].
  - unfold extractVariableValues.
    destruct (profile context) as [p|]; destruct (recentMemories context);
      cbn [valueOf app String.eqb Ascii.eqb Bool.eqb option_map];
      try (split; reflexivity).
    + split.
      * f_equal.
        exact (Hdead (static p) ["name"%string] [] "Name"%string eq_refl).
      * f_equal.
        exact (Hdead (static p) [] ["vip"; "premium"; "standard"]%string
                     "VIP"%string eq_refl).
    + split.
      * f_equal.
        exact (Hdead (static p) ["name"%string] [] "Name"%string eq_refl).
      * f_equal.
        exact (Hdead (static p) [] ["vip"; "premium"; "standard"]%string
                     "VIP"%string eq_refl).
Qed.

Lemma extractValue_matches_lower_case_only_witness :
  extractValue ["User is VIP customer"; "Name is John"]%string
               (["name"%string] ++ "Name"%string :: [])
  = extractValue ["User is VIP customer"; "Name is John"]%string
                 (["name"%string] ++ []).
Proof.
  apply (proj1 (proj2 (extractValue_matches_lower_case_only
                         ["User is VIP customer"; "Name is John"]%string []
                         ["name"%string] [] "Name"%string
                         MoreFixtures.fullContext))).
  reflexivity.
Defined.

End VariableFacts.
